(** * gdrive_summarizer: a shallow embedding and its verified properties

    The development follows the layout of the Python package:

    - [PyStr]       Python [str] values (sequences of code points) and the
                    few string operations the package uses;
    - [Float64]     Python [float] values (IEEE 754 binary64);
    - [Config]      [config.py];
    - [Eff]         the effects of the package (HTTP, sleeping, file reads,
                    the download library) as a trace-passing error monad;
    - [PyJson]      decoded JSON values and what Python's accesses to them
                    return or raise;
    - [Registry]    [processors/base.py];
    - [LlmClient]   [llm_client.py];
    - [Processors]  [processors/*_processor.py];
    - [Downloader]  [downloader.py];
    - [Summarizer]  [summarizer.py].

    Theorems come after the definitions, one section per module. *)

From Stdlib Require Import ZArith String Ascii DecimalString SpecFloat.
From stdpp Require Import gmap list fin_maps.

#[local] Set Warnings "-clear-no-such-hyp".

Local Open Scope Z_scope.

(* ===================================================================== *)
(** ** Python strings *)
(* ===================================================================== *)

Module PyStr.

(** A Python [str] is a sequence of Unicode code points: [len] counts code
    points and slicing cuts between them. *)
Definition pystr := list N.

(** Literals are written as UTF-8 source text and decoded once. [need] is
    the number of continuation bytes still expected, [acc] the bits read so
    far. *)
Fixpoint utf8_go (need : nat) (acc : N) (bs : list N) : pystr :=
  match bs with
  | [] => []
  | b :: bs' =>
      match need with
      | O =>
          if (b <? 128)%N then b :: utf8_go 0 0 bs'
          else if (b <? 224)%N then utf8_go 1 (b - 192) bs'
          else if (b <? 240)%N then utf8_go 2 (b - 224) bs'
          else utf8_go 3 (b - 240) bs'
      | S O => (acc * 64 + (b - 128))%N :: utf8_go 0 0 bs'
      | S n => utf8_go n (acc * 64 + (b - 128))%N bs'
      end
  end.

Definition py (s : string) : pystr :=
  utf8_go 0 0 (map N_of_ascii (list_ascii_of_string s)).

(** [str(n)] for an [int]. *)
Definition str_of_Z (n : Z) : pystr :=
  py (NilZero.string_of_int (Z.to_int n)).

(** [s[:n]] for a non-negative literal [n]. *)
Definition slice_to (n : nat) (s : pystr) : pystr := take n s.

(** [sep.join(parts)]. *)
Fixpoint join (sep : pystr) (parts : list pystr) : pystr :=
  match parts with
  | [] => []
  | [p] => p
  | p :: rest => p ++ sep ++ join sep rest
  end.

(** Truthiness of a [str]: non-empty. *)
Definition truthy (s : pystr) : bool :=
  match s with [] => false | _ => true end.

End PyStr.
Export PyStr.

(* ===================================================================== *)
(** ** Python floats *)
(* ===================================================================== *)

Module Float64.

(** A Python [float] is an IEEE 754 binary64 number: 53 bits of precision,
    infinities at exponent 1024. [valid_binary] tells the members of
    [spec_float] that are such numbers. *)
Definition prec : Z := 53.
Definition emax : Z := 1024.

Definition is_float (x : spec_float) : Prop := valid_binary prec emax x = true.

(** [x * y] on floats, rounded to nearest, ties to even. *)
Definition fmul (x y : spec_float) : spec_float := SFmul prec emax x y.

(** [float(n)] for an [int], as in [RETRY_DELAY * attempt]. *)
Definition of_int (n : Z) : spec_float := binary_normalize prec emax n 0 false.

(** The mantissa of 1.0 and 2.0: two to the power 52. *)
Definition two52 : positive := 4503599627370496.

(** [x < y] on floats. *)
Definition flt (x y : spec_float) : bool := SFltb x y.

(** A positive number that is not an infinity. *)
Definition positive_finite (x : spec_float) : Prop :=
  match x with
  | S754_finite false _ _ => True
  | _ => False
  end.

End Float64.
Export Float64.

(* ===================================================================== *)
(** ** config.py *)
(* ===================================================================== *)

Module Config.

(** The module-level constants of [config.py]. All but the base URL come
    from the environment; [MAX_RETRIES] is read with [int(...)] and
    [RETRY_DELAY] with [float(...)]. *)
Record config := {
  OPENROUTER_API_KEY : pystr;
  OPENROUTER_BASE_URL : pystr;
  TEXT_MODEL : pystr;
  VISION_MODEL : pystr;
  VISION_FALLBACK_MODELS : list pystr;
  DOWNLOAD_DIR : pystr;
  MAX_RETRIES : Z;
  RETRY_DELAY : spec_float
}.

(** The values used when the environment sets nothing. *)
Definition default_config : config := {|
  OPENROUTER_API_KEY := [];
  OPENROUTER_BASE_URL := py "https://openrouter.ai/api/v1/chat/completions";
  TEXT_MODEL := py "google/gemma-3-27b-it:free";
  VISION_MODEL := py "google/gemma-3-27b-it:free";
  VISION_FALLBACK_MODELS :=
    [ py "mistralai/mistral-small-3.1-24b-instruct:free";
      py "google/gemma-3-12b-it:free";
      py "nvidia/nemotron-nano-12b-v2-vl:free";
      py "google/gemini-2.5-flash:free" ];
  DOWNLOAD_DIR := py "./downloads";
  MAX_RETRIES := 3;
  RETRY_DELAY := of_int 5
|}.

End Config.
Export Config.

(* ===================================================================== *)
(** ** llm_client.py, pure part: the candidate list of [describe_image] *)
(* ===================================================================== *)

Module Candidates.

(** [[
    models_to_try = [VISION_MODEL]
    for fb in VISION_FALLBACK_MODELS:
        if fb not in models_to_try:
            models_to_try.append(fb)
    ]] *)
Fixpoint append_fallbacks (models_to_try : list pystr) (fbs : list pystr)
  : list pystr :=
  match fbs with
  | [] => models_to_try
  | fb :: rest =>
      if decide (fb ∈ models_to_try)
      then append_fallbacks models_to_try rest
      else append_fallbacks (models_to_try ++ [fb]) rest
  end.

Definition models_to_try (primary : pystr) (fallbacks : list pystr)
  : list pystr :=
  append_fallbacks [primary] fallbacks.

(** The specification's wording, "duplicates removed, preserving first-seen
    order": walk the list once and keep an element exactly when it was not
    seen before. *)
Fixpoint first_seen (seen : list pystr) (l : list pystr) : list pystr :=
  match l with
  | [] => []
  | x :: rest =>
      if decide (x ∈ seen) then first_seen seen rest
      else x :: first_seen (x :: seen) rest
  end.

Definition dedup_first_seen (l : list pystr) : list pystr := first_seen [] l.

End Candidates.
Export Candidates.

(* ===================================================================== *)
(** ** Effects: exceptions, the environment, the trace *)
(* ===================================================================== *)

Module Eff.

(** The exception classes that can reach the package's [except] clauses. *)
Inductive exn_class :=
| ContentBlockedError   (* llm_client.ContentBlockedError *)
| RuntimeError
| HTTPError             (* requests: raised by raise_for_status *)
| RequestException      (* requests: transport failure in requests.post *)
| JSONDecodeError       (* resp.json() on a body that is not JSON *)
| ValueError
| UnicodeDecodeError
| OverflowError
| OSError               (* file system and third-party library failures *)
| AttributeError        (* [.get] on a value that is no [dict] *)
| TypeError             (* a subscript or [len] of a value that has none *)
| KeyError              (* [d[0]] on a [dict] *)
| IndexError.           (* [v[0]] on an empty sequence *)

(** An exception: its class and [str(exc)]. *)
Record exn := Exn { exn_class_of : exn_class; exn_str : pystr }.

#[global] Instance exn_class_eq_dec : EqDecision exn_class.
Proof. solve_decision. Defined.

(** [isinstance(exc, cls)] on the classes above. *)
Definition isinstance (e : exn) (c : exn_class) : bool :=
  match exn_class_of e, c with
  | UnicodeDecodeError, ValueError => true
  | JSONDecodeError, ValueError => true
  | HTTPError, RequestException => true
  | HTTPError, OSError => true
  | RequestException, OSError => true
  | c1, c2 => bool_decide (c1 = c2)
  end.

(** A file path as its components; [Path.name] is the last one. *)
Definition path := list pystr.
Definition name (p : path) : pystr := List.last p [].

(** The chat-completion request body. *)
Inductive part :=
| TextPart (text : pystr)
| ImageUrlPart (url : pystr).

Inductive content :=
| TextContent (s : pystr)
| PartsContent (parts : list part).

Record message := { role : pystr; msg_content : content }.
Record payload := { model : pystr; messages : list message }.

(** A decoded JSON document, the value of [resp.json()]: [None], a
    [bool], an [int], a [float], a [str], a [list], or a [dict] whose keys
    are [str]. The entries of a [dict] are listed as the document has
    them; where it repeats a key, the last entry is the one that counts. *)
#[local] Unset Elimination Schemes.
Inductive jvalue :=
| JNull
| JBool (b : bool)
| JInt (n : Z)
| JFloat (x : spec_float)
| JStr (s : pystr)
| JArr (items : list jvalue)
| JObj (fields : list (pystr * jvalue)).
#[local] Set Elimination Schemes.

(** A response. [json = None] stands for a body on which [resp.json()]
    raises. *)
Record response := {
  status_code : Z;
  reason : pystr;
  text : pystr;
  json : option jvalue
}.

Inductive post_result :=
| PostRaise (msg : pystr)
| PostResp (r : response).

Inductive outcome (A : Type) :=
| Ret (a : A)
| Raise (e : exn).
Arguments Ret {A} a.
Arguments Raise {A} e.

Inductive processor_cls := TextProcessor | PDFProcessor | ImageProcessor.

#[global] Instance processor_cls_eq_dec : EqDecision processor_cls.
Proof. solve_decision. Defined.

Inductive log_record :=
| WarnErrorIn200 (error_msg : jvalue)
| WarnRateLimited (status : Z) (wait : spec_float) (attempt : Z)
| WarnBlocked (model : pystr) (err : exn)
| WarnExhausted (model : pystr) (err : exn).

(** What a run does to the outside world, in order. Only the warnings of
    [llm_client] are kept from the log. *)
Inductive event :=
| EvDownload (folder_url dest : pystr)
| EvExtract (cls : processor_cls) (file : path)
| EvReadText (file : path) (encoding : pystr)
| EvOpenPdf (file : path)
| EvPrepareImage (file : path)
| EvChat (prompt system : pystr)
| EvPost (p : payload)
| EvSleep (seconds : spec_float)
| EvLog (r : log_record).

Definition trace := list event.

(** The collaborators. Each answer may depend on everything that happened
    before. *)
Record env := {
  (** [requests.post(OPENROUTER_BASE_URL, json=payload, ...)] *)
  http_post : trace -> payload -> post_result;
  (** [time.sleep(seconds)], which returns or raises *)
  time_sleep : trace -> spec_float -> outcome unit;
  (** [file_path.read_text(encoding=enc)] *)
  read_text : trace -> path -> pystr -> outcome pystr;
  (** [[page.extract_text() for page in PdfReader(str(file_path)).pages]];
      [None] for a page without text *)
  pdf_page_texts : trace -> path -> outcome (list (option pystr));
  (** the base64 text of the PNG that [_prepare_image] encodes *)
  png_base64 : trace -> path -> bool -> outcome pystr;
  (** [dest.mkdir(parents=True, exist_ok=True)], which returns or raises *)
  mkdir : trace -> pystr -> outcome unit;
  (** [gdown.download_folder(url=..., output=..., quiet=False)] with each
      returned string already parsed by [Path] *)
  gdown_download_folder : trace -> pystr -> pystr -> outcome (option (list path));
  (** [gdown] is called once the directory is there and not otherwise, so
      it has returned only where [mkdir] has. *)
  gdown_after_mkdir : forall tr url dest downloaded,
    gdown_download_folder tr url dest = Ret downloaded -> mkdir tr dest = Ret tt;
  (** [str(v)] for a decoded [float], [list] or [dict]: the interpreter's
      [repr] *)
  py_repr : jvalue -> pystr
}.

(** Computations: read and extend the trace, return or raise. *)
Definition eff (A : Type) : Type := trace -> outcome A * trace.

Definition eff_ret {A} (a : A) : eff A := fun tr => (Ret a, tr).

Definition eff_bind {A B} (f : A -> eff B) (m : eff A) : eff B :=
  fun tr =>
    match m tr with
    | (Ret a, tr') => f a tr'
    | (Raise e, tr') => (Raise e, tr')
    end.

#[global] Instance eff_mret : MRet eff := @eff_ret.
#[global] Instance eff_mbind : MBind eff := @eff_bind.

Definition raise {A} (e : exn) : eff A := fun tr => (Raise e, tr).
Definition emit (ev : event) : eff unit := fun tr => (Ret tt, tr ++ [ev]).

(** Ask a collaborator, recording the call first. *)
Definition ask {A} (ev : event) (oracle : trace -> outcome A) : eff A :=
  fun tr => (oracle tr, tr ++ [ev]).

(** Ask a collaborator whose call the trace does not keep. *)
Definition consult {A} (oracle : trace -> outcome A) : eff A :=
  fun tr => (oracle tr, tr).

(** A step that touches nothing outside: it returns or raises. *)
Definition lift {A} (o : outcome A) : eff A := fun tr => (o, tr).

(** Sequencing of such steps. *)
Definition and_then {A B} (o : outcome A) (k : A -> outcome B) : outcome B :=
  match o with
  | Ret a => k a
  | Raise e => Raise e
  end.

(** [try: m  except <classes>: h exc]; other exceptions pass through. *)
Definition try_except {A} (m : eff A) (classes : list exn_class)
    (h : exn -> eff A) : eff A :=
  fun tr =>
    match m tr with
    | (Ret a, tr') => (Ret a, tr')
    | (Raise e, tr') =>
        if existsb (isinstance e) classes then h e tr' else (Raise e, tr')
    end.

(** [except Exception]: every class. *)
Definition try_except_all {A} (m : eff A) (h : exn -> eff A) : eff A :=
  fun tr =>
    match m tr with
    | (Ret a, tr') => (Ret a, tr')
    | (Raise e, tr') => h e tr'
    end.

End Eff.
Export Eff.

(* ===================================================================== *)
(** ** Decoded JSON as Python sees it *)
(* ===================================================================== *)

Module PyJson.

(** [type(v).__name__] *)
Definition type_name (v : jvalue) : pystr :=
  match v with
  | JNull => py "NoneType"
  | JBool _ => py "bool"
  | JInt _ => py "int"
  | JFloat _ => py "float"
  | JStr _ => py "str"
  | JArr _ => py "list"
  | JObj _ => py "dict"
  end.

(** [bool(v)] *)
Definition jtruthy (v : jvalue) : bool :=
  match v with
  | JNull => false
  | JBool b => b
  | JInt n => negb (n =? 0)
  | JFloat (S754_zero _) => false
  | JFloat _ => true
  | JStr s => truthy s
  | JArr items => match items with [] => false | _ => true end
  | JObj fields => match fields with [] => false | _ => true end
  end.

(** The value under [key] in a [dict], if the key is there. *)
Fixpoint lookup_key (key : pystr) (fields : list (pystr * jvalue))
  : option jvalue :=
  match fields with
  | [] => None
  | (k, v) :: rest =>
      match lookup_key key rest with
      | Some later => Some later
      | None => if decide (k = key) then Some v else None
      end
  end.

(** [v.get(key, default)]: only a [dict] has [get]. *)
Definition py_get (v : jvalue) (key : pystr) (default : jvalue)
  : outcome jvalue :=
  match v with
  | JObj fields =>
      Ret (match lookup_key key fields with Some x => x | None => default end)
  | _ =>
      Raise (Exn AttributeError
               (py "'" ++ type_name v ++ py "' object has no attribute 'get'"))
  end.

(** [v[0]] *)
Definition py_first (v : jvalue) : outcome jvalue :=
  match v with
  | JArr (x :: _) => Ret x
  | JArr [] => Raise (Exn IndexError (py "list index out of range"))
  | JStr (c :: _) => Ret (JStr [c])
  | JStr [] => Raise (Exn IndexError (py "string index out of range"))
  | JObj _ => Raise (Exn KeyError (py "0"))
  | _ =>
      Raise (Exn TypeError
               (py "'" ++ type_name v ++ py "' object is not subscriptable"))
  end.

(** [data["choices"][0]["message"]["content"]] when all of it is there and
    the content is a [str]. *)
Definition reply_content (data : jvalue) : option pystr :=
  match data with
  | JObj fields =>
      match lookup_key (py "choices") fields with
      | Some (JArr (JObj first :: _)) =>
          match lookup_key (py "message") first with
          | Some (JObj message) =>
              match lookup_key (py "content") message with
              | Some (JStr s) => Some s
              | _ => None
              end
          | _ => None
          end
      | _ => None
      end
  | _ => None
  end.

End PyJson.
Export PyJson.

(* ===================================================================== *)
(** ** llm_client.py *)
(* ===================================================================== *)

Module LlmClient.
Section WithEnv.

Context (E : env) (cfg : config).

(** [requests.post(...)]: the call is recorded, then it returns a response
    or raises. *)
Definition post (p : payload) : eff response :=
  fun tr =>
    match http_post E tr p with
    | PostResp r => (Ret r, tr ++ [EvPost p])
    | PostRaise msg => (Raise (Exn RequestException msg), tr ++ [EvPost p])
    end.

(** [resp.json()] *)
Definition json_of (r : response) : outcome jvalue :=
  match json r with
  | Some data => Ret data
  | None => Raise (Exn JSONDecodeError (py "Expecting value"))
  end.

Definition resp_json (r : response) : eff jvalue := lift (json_of r).

(** [time.sleep(wait)] *)
Definition sleep (wait : spec_float) : eff unit :=
  ask (EvSleep wait) (fun tr => time_sleep E tr wait).

(** [Response.ok], which is also the truth value of a response. *)
Definition resp_ok (r : response) : bool :=
  negb ((400 <=? status_code r) && (status_code r <? 600)).

(** [resp.raise_for_status()] *)
Definition raise_for_status (r : response) : eff unit :=
  let s := status_code r in
  if (400 <=? s) && (s <? 500) then
    raise (Exn HTTPError
             (str_of_Z s ++ py " Client Error: " ++ reason r
              ++ py " for url: " ++ OPENROUTER_BASE_URL cfg))
  else if (500 <=? s) && (s <? 600) then
    raise (Exn HTTPError
             (str_of_Z s ++ py " Server Error: " ++ reason r
              ++ py " for url: " ++ OPENROUTER_BASE_URL cfg))
  else mret tt.

(** [wait = RETRY_DELAY * attempt] *)
Definition wait_for (attempt : Z) : spec_float :=
  fmul (RETRY_DELAY cfg) (of_int attempt).

(** The value of
    [choices and choices[0].get("message", {}).get("content")]
    after [choices = data.get("choices")]. *)
Definition reply_of (data : jvalue) : outcome jvalue :=
  and_then (py_get data (py "choices") JNull) (fun choices =>
  if jtruthy choices then
    and_then (py_first choices) (fun first =>
    and_then (py_get first (py "message") (JObj [])) (fun message =>
    py_get message (py "content") JNull))
  else Ret choices).

(** [data.get("error", {}).get("message", "")] *)
Definition error_msg_of (data : jvalue) : outcome jvalue :=
  and_then (py_get data (py "error") (JObj [])) (fun error =>
  py_get error (py "message") (JStr [])).

(** [return choices[0]["message"]["content"]]. The function is annotated
    [-> str] and returns the content whatever it is; the embedding follows
    the annotation, so a reply is a [str]. A content that is true and no
    [str] has no value here: the call ends with the [TypeError] that
    [len(reply)] raises in [chat] and in [describe_image] for a number or
    a boolean, and for a list or a dict, which the code would hand on as a
    reply that is no [str], with the one that writing it as text raises. *)
Definition as_str (content : jvalue) : outcome pystr :=
  match content with
  | JStr s => Ret s
  | JArr _ | JObj _ =>
      Raise (Exn TypeError (py "data must be str, not " ++ type_name content))
  | _ =>
      Raise (Exn TypeError
               (py "object of type '" ++ type_name content ++ py "' has no len()"))
  end.

(** [str(v)], as an f-string shows a value. *)
Definition py_str (v : jvalue) : pystr :=
  match v with
  | JStr s => s
  | JNull => py "None"
  | JBool true => py "True"
  | JBool false => py "False"
  | JInt n => str_of_Z n
  | _ => py_repr E v
  end.

(** The message of the [RuntimeError] after the loop. [last_resp] is tested
    for truth, which for a response means [ok]. *)
Definition exhausted_msg (last_resp : option response) : pystr :=
  let shown := match last_resp with
               | Some r => if resp_ok r then Some r else None
               | None => None
               end in
  py "OpenRouter request failed after " ++ str_of_Z (MAX_RETRIES cfg)
  ++ py " retries. Last status: "
  ++ match shown with Some r => str_of_Z (status_code r) | None => py "?" end
  ++ py ", body: "
  ++ match shown with Some r => slice_to 500 (text r) | None => py "N/A" end.

(** [error_body] in the 403 branch:
    [[
    try:
        error_body = resp.json().get("error", {}).get("message", "")
    except Exception:
        error_body = resp.text[:300]
    ]]
    as the f-string shows it. *)
Definition error_body (r : response) : pystr :=
  match and_then (json_of r) error_msg_of with
  | Ret v => py_str v
  | Raise _ => slice_to 300 (text r)
  end.

(** The message of the [ContentBlockedError] for a 403. *)
Definition blocked_msg (p : payload) (r : response) : pystr :=
  py "Model " ++ model p ++ py " returned 403: " ++ error_body r.

(** The [if resp.status_code == 200:] block: [Some reply] when the function
    returns from inside it, [None] when control leaves it at the bottom. *)
Definition on_status_200 (r : response) : eff (option pystr) :=
  data ← resp_json r;
  content ← lift (reply_of data);
  if jtruthy content then
    reply ← lift (as_str content);
    mret (Some reply)
  else
    error_msg ← lift (error_msg_of data);
    if jtruthy error_msg
    then emit (EvLog (WarnErrorIn200 error_msg));; mret None
    else mret None.

(** The body of [for attempt in range(1, MAX_RETRIES + 1)] over the
    attempts still to run, and the [raise RuntimeError] after the loop. *)
Fixpoint attempts_loop (p : payload) (attempts : list Z)
    (last_resp : option response) : eff pystr :=
  match attempts with
  | [] => raise (Exn RuntimeError (exhausted_msg last_resp))
  | attempt :: rest =>
      resp ← post p;
      early ← (if status_code resp =? 200 then on_status_200 resp
               else mret None);
      match early with
      | Some reply => mret reply
      | None =>
          if bool_decide (status_code resp ∈ [429; 402; 503]) then
            let wait := wait_for attempt in
            emit (EvLog (WarnRateLimited (status_code resp) wait attempt));;
            sleep wait;;
            attempts_loop p rest (Some resp)
          else if status_code resp =? 403 then
            raise (Exn ContentBlockedError (blocked_msg p resp))
          else
            raise_for_status resp;;
            attempts_loop p rest (Some resp)
      end
  end.

Definition _request_with_retry (p : payload) : eff pystr :=
  attempts_loop p (seqZ 1 (MAX_RETRIES cfg)) None.

Definition chat (prompt system : pystr) : eff pystr :=
  let messages :=
    (if truthy system
     then [ {| role := py "system"; msg_content := TextContent system |} ]
     else [])
    ++ [ {| role := py "user"; msg_content := TextContent prompt |} ] in
  emit (EvChat prompt system);;
  _request_with_retry {| model := TEXT_MODEL cfg; messages := messages |}.

Definition vision_messages (data_url prompt : pystr) : list message :=
  [ {| role := py "user";
       msg_content :=
         PartsContent [ TextPart prompt; ImageUrlPart data_url ] |} ].

Definition ALL_FAILED : pystr := py "All vision models failed. Last error: ".

(** [for model in models_to_try: ...] and the final [raise]. *)
Fixpoint try_models (msgs : list message) (models : list pystr)
    (last_error : option exn) : eff pystr :=
  match models with
  | [] =>
      raise (Exn RuntimeError
               (ALL_FAILED
                ++ match last_error with
                   | Some e => exn_str e
                   | None => py "None"
                   end))
  | m :: rest =>
      fun tr =>
        match _request_with_retry {| model := m; messages := msgs |} tr with
        | (Ret reply, tr') => (Ret reply, tr')
        | (Raise exc, tr') =>
            if isinstance exc ContentBlockedError then
              (emit (EvLog (WarnBlocked m exc));;
               try_models msgs rest (Some exc)) tr'
            else if isinstance exc RuntimeError then
              (emit (EvLog (WarnExhausted m exc));;
               try_models msgs rest (Some exc)) tr'
            else (Raise exc, tr')
        end
  end.

Definition describe_image (data_url prompt : pystr) : eff pystr :=
  try_models (vision_messages data_url prompt)
    (models_to_try (VISION_MODEL cfg) (VISION_FALLBACK_MODELS cfg)) None.

Definition default_prompt : pystr := py "Describe this image in detail.".

End WithEnv.
End LlmClient.
Export LlmClient.

(* ===================================================================== *)
(** ** processors/base.py: the processor registry *)
(* ===================================================================== *)

Module Registry.

(** [name.rfind(".")] *)
Fixpoint rfind_dot (s : pystr) : option nat :=
  match s with
  | [] => None
  | c :: rest =>
      match rfind_dot rest with
      | Some j => Some (S j)
      | None => if (c =? 46)%N then Some O else None
      end
  end.

(** [Path.suffix] of pathlib: the last dot and what follows it, unless that
    dot is the first or the last character of the name. *)
Definition suffix (p : path) : pystr :=
  let nm := name p in
  match rfind_dot nm with
  | Some i =>
      if ((0 <? i) && (i <? length nm - 1))%nat then drop i nm else []
  | None => []
  end.

Section WithLower.

(** [str.lower], Python's Unicode lower-casing, is a parameter. *)
Context (lower : pystr -> pystr).

Definition register_processor (extension : pystr) (cls : processor_cls)
    (_EXTENSION_MAP : gmap pystr processor_cls)
  : gmap pystr processor_cls :=
  let ext := lower extension in
  <[ ext := cls ]> _EXTENSION_MAP.

(** [None] is Python's [None]: no processor for the extension. *)
Definition get_processor (_EXTENSION_MAP : gmap pystr processor_cls)
    (file_path : path) : option processor_cls :=
  let ext := lower (suffix file_path) in
  _EXTENSION_MAP !! ext.

(** The registry after a sequence of [register_processor] calls on an
    empty one. *)
Definition registered (calls : list (pystr * processor_cls))
  : gmap pystr processor_cls :=
  foldl (fun m call => register_processor call.1 call.2 m) ∅ calls.

Definition register_all (exts : list pystr) (cls : processor_cls)
    (m : gmap pystr processor_cls) : gmap pystr processor_cls :=
  foldl (fun m ext => register_processor ext cls m) m exts.

Definition image_extensions : list pystr :=
  [ py ".jpg"; py ".jpeg"; py ".png"; py ".gif"; py ".webp"; py ".bmp";
    py ".tiff"; py ".tif" ].

Definition text_extensions : list pystr :=
  [ py ".txt"; py ".md"; py ".csv"; py ".json"; py ".xml"; py ".html";
    py ".htm"; py ".log"; py ".rst" ].

(** The registry once [summarizer] has imported the three processor
    modules, in its import order: image, pdf, text. *)
Definition imported_registry : gmap pystr processor_cls :=
  register_all text_extensions TextProcessor
    (register_processor (py ".pdf") PDFProcessor
       (register_all image_extensions ImageProcessor ∅)).

End WithLower.

(** Lower-casing of the letters A to Z, which is what [str.lower] does on
    ASCII text; used where a concrete [lower] is needed. *)
Definition ascii_lower (s : pystr) : pystr :=
  map (fun c => if ((65 <=? c) && (c <=? 90))%N then (c + 32)%N else c) s.

End Registry.
Export Registry.

(* ===================================================================== *)
(** ** processors/text_processor.py, pdf_processor.py, image_processor.py *)
(* ===================================================================== *)

Module Processors.
Section WithEnv.

Context (E : env) (cfg : config).

Definition ENCODINGS : list pystr := [ py "utf-8"; py "cp1251"; py "latin-1" ].

(** [TextProcessor.extract]: the loop over the encodings still to try and
    the [return ""] after it. *)
Fixpoint try_encodings (file_path : path) (encodings : list pystr)
  : eff pystr :=
  match encodings with
  | [] => mret []
  | enc :: rest =>
      try_except
        (ask (EvReadText file_path enc)
             (fun tr => read_text E tr file_path enc))
        [UnicodeDecodeError; ValueError]
        (fun _ => try_encodings file_path rest)
  end.

Definition text_extract (file_path : path) : eff pystr :=
  try_encodings file_path ENCODINGS.

(** The characters [str.strip()] removes. *)
Definition is_space (c : N) : bool :=
  ((9 <=? c) && (c <=? 13) || (28 <=? c) && (c <=? 32)
   || (c =? 133) || (c =? 160) || (c =? 5760)
   || (8192 <=? c) && (c <=? 8202) || (c =? 8232) || (c =? 8233)
   || (c =? 8239) || (c =? 8287) || (c =? 12288))%N.

(** [bool(text.strip())] *)
Definition has_text (s : pystr) : bool := negb (forallb is_space s).

Definition nl : pystr := [10%N].

Definition pdf_extract (file_path : path) : eff pystr :=
  texts ← ask (EvOpenPdf file_path) (fun tr => pdf_page_texts E tr file_path);
  let pages := List.filter has_text (map (default []) texts) in
  mret (join (nl ++ nl) pages).

Definition IMAGE_PROMPT : pystr :=
  py "Это изображение — скорее всего скан или фотография документа/страницы. "
  ++ py "Качество может быть невысоким. "
  ++ py "1) Внимательно распознай и перепиши ВЕСЬ текст, который видишь на изображении. "
  ++ py "Если текст на русском языке — пиши на русском. "
  ++ py "2) Если текст нечитаем или отсутствует, опиши содержимое изображения максимально подробно. "
  ++ py "3) Укажи язык текста и общий тип документа (если возможно определить).".

Definition _prepare_image (file_path : path) (enhance : bool) : eff pystr :=
  b64 ← ask (EvPrepareImage file_path)
            (fun tr => png_base64 E tr file_path enhance);
  mret (py "data:image/png;base64," ++ b64).

Definition image_extract (file_path : path) : eff pystr :=
  data_url ← _prepare_image file_path true;
  describe_image E cfg data_url IMAGE_PROMPT.

(** [processor.extract(file_path)] on an instance of [cls]. *)
Definition extract (cls : processor_cls) (file_path : path) : eff pystr :=
  emit (EvExtract cls file_path);;
  match cls with
  | TextProcessor => text_extract file_path
  | PDFProcessor => pdf_extract file_path
  | ImageProcessor => image_extract file_path
  end.

End WithEnv.
End Processors.
Export Processors.

(* ===================================================================== *)
(** ** downloader.py *)
(* ===================================================================== *)

Module Downloader.

(** [<] on [str] and on paths: lexicographic. *)
Fixpoint str_ltb (a b : pystr) : bool :=
  match a, b with
  | _, [] => false
  | [], _ :: _ => true
  | x :: a', y :: b' => (x <? y)%N || ((x =? y)%N && str_ltb a' b')
  end.

Fixpoint path_ltb (p q : path) : bool :=
  match p, q with
  | _, [] => false
  | [], _ :: _ => true
  | x :: p', y :: q' =>
      str_ltb x y || (bool_decide (x = y) && path_ltb p' q')
  end.

(** [sorted(...)]: a stable sort that only asks [<]. *)
Fixpoint insert_sorted (p : path) (l : list path) : list path :=
  match l with
  | [] => [p]
  | q :: rest => if path_ltb q p then q :: insert_sorted p rest else p :: q :: rest
  end.

Definition sorted (l : list path) : list path := foldr insert_sorted [] l.

(** [s.split("/")] *)
Fixpoint split_slash (s : pystr) : list pystr :=
  match s with
  | [] => [[]]
  | c :: rest =>
      if (c =? 47)%N then [] :: split_slash rest
      else match split_slash rest with
           | piece :: pieces => (c :: piece) :: pieces
           | [] => [[c]]
           end
  end.

(** The root of a POSIX path: one slash, or two when the text starts with
    exactly two. *)
Definition root_of (s : pystr) : pystr :=
  match s with
  | a :: rest =>
      if (a =? 47)%N then
        match rest with
        | b :: rest' =>
            if (b =? 47)%N then
              match rest' with
              | c :: _ => if (c =? 47)%N then [47%N] else [47%N; 47%N]
              | [] => [47%N; 47%N]
              end
            else [47%N]
        | [] => [47%N]
        end
      else []
  | [] => []
  end.

(** [str(Path(s))] on POSIX: the root, then the parts that are neither
    empty nor a single dot, joined by slashes; a dot when nothing is
    left. *)
Definition path_str (s : pystr) : pystr :=
  let tail :=
    List.filter (fun part => negb (bool_decide (part = [])
                                   || bool_decide (part = [46%N])))
      (split_slash s) in
  match root_of s ++ join [47%N] tail with
  | [] => [46%N]
  | shown => shown
  end.

Section WithEnv.

Context (E : env) (cfg : config).

(** [str(dest)] for [dest = Path(output_dir or DOWNLOAD_DIR)] *)
Definition dest_of (output_dir : option pystr) : pystr :=
  path_str match output_dir with
           | Some d => if truthy d then d else DOWNLOAD_DIR cfg
           | None => DOWNLOAD_DIR cfg
           end.

Definition download_folder (folder_url : pystr) (output_dir : option pystr)
  : eff (list path) :=
  let dest := dest_of output_dir in
  consult (fun tr => mkdir E tr dest);;
  downloaded ← ask (EvDownload folder_url dest)
                   (fun tr => gdown_download_folder E tr folder_url dest);
  match downloaded with
  | None | Some [] => mret []
  | Some ps => mret (sorted ps)
  end.

End WithEnv.
End Downloader.
Export Downloader.

(* ===================================================================== *)
(** ** summarizer.py *)
(* ===================================================================== *)

Module Summarizer.

Definition _SYSTEM_PROMPT : pystr :=
  py "You are an expert analyst. The user will give you descriptions / extracted "
  ++ py "content of several files from one folder. Produce a coherent, well-structured "
  ++ py "summary that covers ALL of the files. Highlight key themes, relationships "
  ++ py "between files, and any notable details. Answer in Russian.".

Definition FOLDER_EMPTY : pystr := py "Папка пуста или файлы не удалось скачать.".
Definition EXTRACTION_FAILED : pystr := py "(не удалось извлечь содержимое)".
Definition NOTHING_EXTRACTED : pystr :=
  py "Не удалось извлечь содержимое ни из одного файла.".
Definition TRUNCATION_MARKER : pystr := nl ++ py "... (содержимое обрезано)".
Definition SECTION_HEADER : pystr := py "### Файл: ".
Definition PROMPT_INTRO : pystr :=
  py "Ниже приведено содержимое / описание каждого файла из папки." ++ nl
  ++ py "Сделай общее подробное саммари по ВСЕМ файлам папки." ++ nl ++ nl.
Definition DELIMITER : pystr := nl ++ nl ++ py "---" ++ nl ++ nl.

(** The per-file cap, [12_000]. *)
Definition CAP : nat := Z.to_nat 12000.

(** A Python [dict] from [str] to [str], in insertion order. *)
Definition pydict := list (pystr * pystr).

(** [d[k] = v]: a known key keeps its place and takes the new value, a new
    key goes to the end. *)
Fixpoint dict_set (k v : pystr) (d : pydict) : pydict :=
  match d with
  | [] => [(k, v)]
  | (k', v') :: rest =>
      if decide (k' = k) then (k, v) :: rest
      else (k', v') :: dict_set k v rest
  end.

(** [[
    truncated = content[:12_000]
    if len(content) > 12_000:
        truncated += "\n... (содержимое обрезано)"
    ]] *)
Definition truncate (content : pystr) : pystr :=
  let truncated := slice_to CAP content in
  if (CAP <? length content)%nat then truncated ++ TRUNCATION_MARKER
  else truncated.

(** One element of [parts]. *)
Definition file_section (item : pystr * pystr) : pystr :=
  let '(name, content) := item in
  SECTION_HEADER ++ name ++ nl ++ nl ++ truncate content.

(** [parts] after the loop over [per_file.items()]. *)
Definition build_parts (per_file : pydict) : list pystr :=
  map file_section per_file.

Definition combined_prompt (per_file : pydict) : pystr :=
  PROMPT_INTRO ++ join DELIMITER (build_parts per_file).

(** [not any(v != "(не удалось извлечь содержимое)" for v in per_file.values())] *)
Definition nothing_extracted (per_file : pydict) : bool :=
  negb (existsb (fun kv => bool_decide (kv.2 ≠ EXTRACTION_FAILED)) per_file).

Section WithEnv.

Context (lower : pystr -> pystr) (E : env) (cfg : config).
(** The registry at the time of the call. *)
Context (_EXTENSION_MAP : gmap pystr processor_cls).

Definition _extract_file_content (file_path : path) : eff (option pystr) :=
  match get_processor lower _EXTENSION_MAP file_path with
  | None => mret None
  | Some processor =>
      try_except_all
        (text ← extract E cfg processor file_path; mret (Some text))
        (fun _ => mret None)
  end.

(** What the loop stores for a file, from what [_extract_file_content]
    returned. *)
Definition recorded (content : option pystr) : pystr :=
  match content with
  | Some c => if truthy c then c else EXTRACTION_FAILED
  | None => EXTRACTION_FAILED
  end.

(** Step 2, [for f in files: ...], over the files still to process. *)
Fixpoint extract_all (files : list path) (per_file : pydict) : eff pydict :=
  match files with
  | [] => mret per_file
  | f :: rest =>
      content ← _extract_file_content f;
      extract_all rest (dict_set (name f) (recorded content) per_file)
  end.

Definition summarize_folder (folder_url : pystr) (output_dir : option pystr)
  : eff pystr :=
  files ← download_folder E cfg folder_url output_dir;
  match files with
  | [] => mret FOLDER_EMPTY
  | _ :: _ =>
      per_file ← extract_all files [];
      if nothing_extracted per_file then mret NOTHING_EXTRACTED
      else chat E cfg (combined_prompt per_file) _SYSTEM_PROMPT
  end.

End WithEnv.
End Summarizer.
Export Summarizer.

(* ===================================================================== *)
(** ** Reading a trace *)
(* ===================================================================== *)

Module Observe.

(** The HTTP requests, the sleeps, the [chat] calls and the [extract] calls
    of a trace, in order. *)
Definition posts (tr : trace) : list payload :=
  omap (fun ev => match ev with EvPost p => Some p | _ => None end) tr.

Definition sleeps (tr : trace) : list spec_float :=
  omap (fun ev => match ev with EvSleep w => Some w | _ => None end) tr.

Definition chats (tr : trace) : list (pystr * pystr) :=
  omap (fun ev => match ev with EvChat p s => Some (p, s) | _ => None end) tr.

Definition extractions (tr : trace) : list (processor_cls * path) :=
  omap (fun ev => match ev with EvExtract c f => Some (c, f) | _ => None end) tr.

Definition is_chat (ev : event) : bool :=
  match ev with EvChat _ _ => true | _ => false end.

Definition no_chat (ev : event) : Prop := is_chat ev = false.

(** [m] only appends events, and only events satisfying [P]. *)
Definition emits {A} (P : event -> Prop) (m : eff A) : Prop :=
  forall tr, exists evs, (m tr).2 = tr ++ evs /\ Forall P evs.




(** The service keeps to the type that the client's annotations promise:
    the content of a reply, when it counts as true, is a [str]. *)
Definition text_replies (E : env) : Prop :=
  forall tr p r data content,
    http_post E tr p = PostResp r -> status_code r = 200 ->
    json r = Some data -> reply_of data = Ret content ->
    jtruthy content = true ->
    exists s, content = JStr s.






End Observe.
Export Observe.

(* ===================================================================== *)
(** ** Reading the orchestrator *)
(* ===================================================================== *)

Module SummarizerSpec.

(** [m] always returns, appending only events that are not [chat] calls. *)
Definition returns_quietly {A} (m : eff A) : Prop :=
  forall tr, exists a evs, m tr = (Ret a, tr ++ evs) /\ Forall no_chat evs.

(** The recorded value is the failure placeholder. *)
Definition failed (item : pystr * pystr) : Prop := item.2 = EXTRACTION_FAILED.




Section WithEnv.

Context (lower : pystr -> pystr) (E : env) (cfg : config).
Context (_EXTENSION_MAP : gmap pystr processor_cls).


End WithEnv.
End SummarizerSpec.
Export SummarizerSpec.

(* ===================================================================== *)
(** ** Concrete environments for examples *)
(* ===================================================================== *)

Module Scenarios.

(** [time.sleep] as CPython has it for the numbers an example meets: NaN
    and negative numbers are a [ValueError], infinities do not fit the
    clock. *)
Definition cpython_sleep (seconds : spec_float) : outcome unit :=
  match seconds with
  | S754_nan => Raise (Exn ValueError (py "Invalid value NaN (not a number)"))
  | S754_infinity _ =>
      Raise (Exn OverflowError (py "timestamp too large to convert to C _PyTime_t"))
  | S754_finite true _ _ =>
      Raise (Exn ValueError (py "sleep length must be non-negative"))
  | _ => Ret tt
  end.

Definition with_retry_delay (d : spec_float) (cfg : config) : config := {|
  OPENROUTER_API_KEY := OPENROUTER_API_KEY cfg;
  OPENROUTER_BASE_URL := OPENROUTER_BASE_URL cfg;
  TEXT_MODEL := TEXT_MODEL cfg;
  VISION_MODEL := VISION_MODEL cfg;
  VISION_FALLBACK_MODELS := VISION_FALLBACK_MODELS cfg;
  DOWNLOAD_DIR := DOWNLOAD_DIR cfg;
  MAX_RETRIES := MAX_RETRIES cfg;
  RETRY_DELAY := d
|}.

Definition with_vision (primary : pystr) (fallbacks : list pystr)
    (cfg : config) : config := {|
  OPENROUTER_API_KEY := OPENROUTER_API_KEY cfg;
  OPENROUTER_BASE_URL := OPENROUTER_BASE_URL cfg;
  TEXT_MODEL := TEXT_MODEL cfg;
  VISION_MODEL := primary;
  VISION_FALLBACK_MODELS := fallbacks;
  DOWNLOAD_DIR := DOWNLOAD_DIR cfg;
  MAX_RETRIES := MAX_RETRIES cfg;
  RETRY_DELAY := RETRY_DELAY cfg
|}.

(** No example shows a float, a list or a dict in a message. *)
Definition no_repr (v : jvalue) : pystr := py "...".

(** The body [{error: {message: msg}}] and the body
    [{choices: [{message: {role: assistant, content: reply}}]}]. *)
Definition error_object (msg : pystr) : jvalue :=
  JObj [(py "error", JObj [(py "message", JStr msg)])].

Definition reply_object (reply : pystr) : jvalue :=
  JObj [(py "choices",
         JArr [JObj [(py "message",
                      JObj [(py "role", JStr (py "assistant"));
                            (py "content", JStr reply)])]])].

(** A server that answers every request with the same response, next to an
    empty folder and unreadable files. *)
Definition constant_server (r : response) : env := {|
  http_post := fun _ _ => PostResp r;
  time_sleep := fun _ => cpython_sleep;
  read_text := fun _ _ _ => Raise (Exn OSError (py "No such file"));
  pdf_page_texts := fun _ _ => Raise (Exn OSError (py "No such file"));
  png_base64 := fun _ _ _ => Raise (Exn OSError (py "No such file"));
  mkdir := fun _ _ => Ret tt;
  gdown_download_folder := fun _ _ _ => Ret None;
  gdown_after_mkdir := fun _ _ _ _ _ => eq_refl;
  py_repr := no_repr
|}.

Definition error_200 : response := {|
  status_code := 200;
  reason := py "OK";
  text := py "{error: {message: Provider returned error}}";
  json := Some (error_object (py "Provider returned error"))
|}.

Definition rate_limited_429 : response := {|
  status_code := 429;
  reason := py "Too Many Requests";
  text := py "{error: {message: Rate limit exceeded}}";
  json := Some (error_object (py "Rate limit exceeded"))
|}.

Definition blocked_403 : response := {|
  status_code := 403;
  reason := py "Forbidden";
  text := py "{error: {message: Blocked by provider}}";
  json := Some (error_object (py "Blocked by provider"))
|}.

Definition reply_200 (reply : pystr) : response := {|
  status_code := 200;
  reason := py "OK";
  text := py "{choices: [...]}";
  json := Some (reply_object reply)
|}.


(** A folder of text files: [gdown] returns the listed paths in the listed
    order, [read_text] gives the listed result whatever the encoding, PDF
    and image libraries fail, and the server answers [resp] to everything. *)
Definition folder_env (files : list (path * outcome pystr)) (resp : response)
  : env := {|
  http_post := fun _ _ => PostResp resp;
  time_sleep := fun _ => cpython_sleep;
  read_text := fun _ p _ =>
    match list_find (fun entry => entry.1 = p) files with
    | Some (_, entry) => entry.2
    | None => Raise (Exn OSError (py "No such file"))
    end;
  pdf_page_texts := fun _ _ => Raise (Exn OSError (py "No such file"));
  png_base64 := fun _ _ _ => Raise (Exn OSError (py "No such file"));
  mkdir := fun _ _ => Ret tt;
  gdown_download_folder := fun _ _ _ => Ret (Some files.*1);
  gdown_after_mkdir := fun _ _ _ _ _ => eq_refl;
  py_repr := no_repr
|}.

Definition user_payload (m : pystr) : payload :=
  {| model := m;
     messages := [ {| role := py "user"; msg_content := TextContent (py "hi") |} ] |}.

End Scenarios.
Export Scenarios.

(* ===================================================================== *)
(** ** config.py: reading the fallback list *)
(* ===================================================================== *)

Module ConfigParse.

(** [s.split(",")]: the pieces between the commas, one more than there are
    commas. *)
Fixpoint split_comma (s : pystr) : list pystr :=
  match s with
  | [] => [[]]
  | c :: rest =>
      if (c =? 44)%N then [] :: split_comma rest
      else match split_comma rest with
           | piece :: pieces => (c :: piece) :: pieces
           | [] => [[c]]
           end
  end.

(** [s.lstrip()], [s.rstrip()] and [s.strip()] *)
Fixpoint lstrip (s : pystr) : pystr :=
  match s with
  | [] => []
  | c :: rest => if is_space c then lstrip rest else s
  end.

Definition rstrip (s : pystr) : pystr := reverse (lstrip (reverse s)).

Definition strip (s : pystr) : pystr := rstrip (lstrip s).

(** [[m.strip() for m in _vision_fb.split(",") if m.strip()]] *)
Definition parse_models (_vision_fb : pystr) : list pystr :=
  map strip (List.filter (fun m => truthy (strip m)) (split_comma _vision_fb)).

(** The default of the [VISION_FALLBACK_MODELS] variable. *)
Definition DEFAULT_VISION_FALLBACK : pystr :=
  py "mistralai/mistral-small-3.1-24b-instruct:free,"
  ++ py "google/gemma-3-12b-it:free,"
  ++ py "nvidia/nemotron-nano-12b-v2-vl:free,"
  ++ py "google/gemini-2.5-flash:free".

(** A model identifier as the parser returns it: not empty, no comma, no
    white space at either end. *)
Definition clean (m : pystr) : Prop :=
  m ≠ [] ∧ (44%N ∉ m) ∧ strip m = m.

End ConfigParse.
Export ConfigParse.

(* ===================================================================== *)
(** ** main.py *)
(* ===================================================================== *)

Module Main.

(** The parsed command line. [--output] defaults to [DOWNLOAD_DIR] and
    [--save] to [summary.txt]. *)
Record args := {
  arg_url : pystr;
  arg_output : pystr;
  arg_save : pystr;
  arg_verbose : bool
}.

Inductive stream := Stdout | Stderr.

(** How [main] ends: it returns, [sys.exit(code)] is called, or an
    exception leaves it. *)
Inductive ending :=
| Returned
| SystemExit (code : Z)
| Uncaught (e : exn).

(** What a run of [main] did: the pipeline's trace, the [print] calls in
    order, the files written with their text, and the ending. *)
Record main_run := {
  pipeline : trace;
  printed : list (stream * pystr);
  written : list (pystr * pystr);
  ended : ending
}.

Definition KEY_PLACEHOLDER : pystr := py "sk-or-v1-xxx".

Definition MISSING_KEY : pystr :=
  py "ОШИБКА: Установите OPENROUTER_API_KEY в файле .env" ++ nl
  ++ py "  Получить ключ: https://openrouter.ai/keys".

Definition BANNER : pystr := replicate 60 61%N.
Definition TITLE : pystr := py "ИТОГОВОЕ САММАРИ ПАПКИ".
Definition SAVED_TO : pystr := nl ++ py "Саммари сохранено в: ".

(** [s.startswith(prefix)] *)
Fixpoint startswith (s prefix : pystr) : bool :=
  match prefix, s with
  | [], _ => true
  | _ :: _, [] => false
  | x :: prefix', y :: s' => (x =? y)%N && startswith s' prefix'
  end.

Section WithEnv.

Context (lower : pystr -> pystr) (E : env) (cfg : config).
Context (_EXTENSION_MAP : gmap pystr processor_cls).
(** [save_path.write_text(summary, encoding="utf-8")], which returns or
    raises, and [str(save_path.resolve())]. *)
Context (write_text : pystr -> pystr -> outcome unit).
Context (resolve : pystr -> pystr).

(** [main] after [parser.parse_args]; logging set-up is left out. *)
Definition main (a : args) (tr : trace) : main_run :=
  if negb (truthy (OPENROUTER_API_KEY cfg))
     || startswith (OPENROUTER_API_KEY cfg) KEY_PLACEHOLDER
  then {| pipeline := tr; printed := [(Stderr, MISSING_KEY)]; written := [];
          ended := SystemExit 1 |}
  else
    match summarize_folder lower E cfg _EXTENSION_MAP
            (arg_url a) (Some (arg_output a)) tr with
    | (Raise e, tr') =>
        {| pipeline := tr'; printed := []; written := []; ended := Uncaught e |}
    | (Ret summary, tr') =>
        let report := [ (Stdout, nl ++ BANNER); (Stdout, TITLE);
                        (Stdout, BANNER); (Stdout, summary);
                        (Stdout, BANNER) ] in
        match write_text (arg_save a) summary with
        | Raise e =>
            {| pipeline := tr'; printed := report; written := [];
               ended := Uncaught e |}
        | Ret _ =>
            {| pipeline := tr';
               printed := report ++ [(Stdout, SAVED_TO ++ resolve (arg_save a))];
               written := [(arg_save a, summary)];
               ended := Returned |}
        end
    end.

End WithEnv.
End Main.
Export Main.

(* ===================================================================== *)
(** ** Reading the retry loop *)
(* ===================================================================== *)

Module RetrySpec.

(** How one pass through the body of the retry loop ends: the function
    returns or raises, or the loop goes on, remembering the response. *)
Inductive verdict :=
| Done (o : outcome pystr)
| Continue (r : response).

Section WithEnv.

Context (E : env) (cfg : config).

(** One pass through the loop body at trace [tr], case by case: the verdict
    and the events of the pass. *)
Definition loop_body (p : payload) (attempt : Z) (tr : trace)
  : verdict * list event :=
  match http_post E tr p with
  | PostRaise msg => (Done (Raise (Exn RequestException msg)), [EvPost p])
  | PostResp r =>
      let s := status_code r in
      if s =? 200 then
        match json r with
        | None =>
            (Done (Raise (Exn JSONDecodeError (py "Expecting value"))), [EvPost p])
        | Some data =>
            match reply_of data with
            | Raise e => (Done (Raise e), [EvPost p])
            | Ret content =>
                if jtruthy content then
                  match as_str content with
                  | Ret reply => (Done (Ret reply), [EvPost p])
                  | Raise e => (Done (Raise e), [EvPost p])
                  end
                else
                  match error_msg_of data with
                  | Raise e => (Done (Raise e), [EvPost p])
                  | Ret error_msg =>
                      (Continue r,
                       EvPost p :: if jtruthy error_msg
                                   then [EvLog (WarnErrorIn200 error_msg)]
                                   else [])
                  end
            end
        end
      else if bool_decide (s ∈ [429; 402; 503]) then
        let w := wait_for cfg attempt in
        let before := [EvPost p; EvLog (WarnRateLimited s w attempt)] in
        match time_sleep E (tr ++ before) w with
        | Ret _ => (Continue r, before ++ [EvSleep w])
        | Raise e => (Done (Raise e), before ++ [EvSleep w])
        end
      else if s =? 403 then
        (Done (Raise (Exn ContentBlockedError (blocked_msg E p r))), [EvPost p])
      else
        match raise_for_status cfg r [] with
        | (Raise e, _) => (Done (Raise e), [EvPost p])
        | (Ret _, _) => (Continue r, [EvPost p])
        end
  end.

(** [retried p attempts tr last tr' last']: from trace [tr], each of
    [attempts] is made and ends with the loop going on; [tr'] is the trace
    and [last'] the remembered response afterwards. *)
Inductive retried (p : payload)
  : list Z -> trace -> option response -> trace -> option response -> Prop :=
| retried_nil tr last : retried p [] tr last tr last
| retried_cons a rest tr last r evs tr' last' :
    loop_body p a tr = (Continue r, evs) ->
    retried p rest (tr ++ evs) (Some r) tr' last' ->
    retried p (a :: rest) tr last tr' last'.

(** The statuses the client neither accepts, nor backs off from, nor takes
    for a block, and that [raise_for_status] lets pass. *)
Definition passes_silently (s : Z) : Prop :=
  s ≠ 200 ∧ (s < 400 ∨ 600 ≤ s).

(** The message of the retries-exhausted error when it names neither a
    status nor a body. *)
Definition exhausted_unknown : pystr :=
  py "OpenRouter request failed after " ++ str_of_Z (MAX_RETRIES cfg)
  ++ py " retries. Last status: ?, body: N/A".

(** The message of the [HTTPError] that [raise_for_status] builds. *)
Definition http_error_msg (r : response) : pystr :=
  str_of_Z (status_code r)
  ++ (if status_code r <? 500 then py " Client Error: " else py " Server Error: ")
  ++ reason r ++ py " for url: " ++ OPENROUTER_BASE_URL cfg.

(** The statuses that are raised at once as [HTTPError]. *)
Definition unexpected_status (s : Z) : Prop :=
  400 ≤ s < 600 ∧ s ∉ [429; 402; 503; 403].

End WithEnv.
End RetrySpec.
Export RetrySpec.

(* ===================================================================== *)
(** ** More environments for examples *)
(* ===================================================================== *)

Module MoreScenarios.

(** A server that answers the n-th request of a run with the n-th entry of
    [script], and with [after] once the script is used up. *)
Definition scripted_server (script : list post_result) (after : post_result)
  : env := {|
  http_post := fun tr _ => nth (length (posts tr)) script after;
  time_sleep := fun _ => cpython_sleep;
  read_text := fun _ _ _ => Raise (Exn OSError (py "No such file"));
  pdf_page_texts := fun _ _ => Raise (Exn OSError (py "No such file"));
  png_base64 := fun _ _ _ => Raise (Exn OSError (py "No such file"));
  mkdir := fun _ _ => Ret tt;
  gdown_download_folder := fun _ _ _ => Ret None;
  gdown_after_mkdir := fun _ _ _ _ _ => eq_refl;
  py_repr := no_repr
|}.

Definition with_max_retries (n : Z) (cfg : config) : config := {|
  OPENROUTER_API_KEY := OPENROUTER_API_KEY cfg;
  OPENROUTER_BASE_URL := OPENROUTER_BASE_URL cfg;
  TEXT_MODEL := TEXT_MODEL cfg;
  VISION_MODEL := VISION_MODEL cfg;
  VISION_FALLBACK_MODELS := VISION_FALLBACK_MODELS cfg;
  DOWNLOAD_DIR := DOWNLOAD_DIR cfg;
  MAX_RETRIES := n;
  RETRY_DELAY := RETRY_DELAY cfg
|}.

Definition with_api_key (key : pystr) (cfg : config) : config := {|
  OPENROUTER_API_KEY := key;
  OPENROUTER_BASE_URL := OPENROUTER_BASE_URL cfg;
  TEXT_MODEL := TEXT_MODEL cfg;
  VISION_MODEL := VISION_MODEL cfg;
  VISION_FALLBACK_MODELS := VISION_FALLBACK_MODELS cfg;
  DOWNLOAD_DIR := DOWNLOAD_DIR cfg;
  MAX_RETRIES := MAX_RETRIES cfg;
  RETRY_DELAY := RETRY_DELAY cfg
|}.

Definition status_only (s : Z) (why : pystr) : response := {|
  status_code := s; reason := why; text := py "<html>"; json := None
|}.

(** A folder whose files are read by the three extractors: text files give
    [texts], PDF files the pages of [pdfs], images the base64 of [images];
    anything else cannot be opened. *)
Definition mixed_folder (listing : option (list path))
    (texts : list (path * outcome pystr))
    (pdfs : list (path * list (option pystr)))
    (images : list (path * pystr))
    (server : trace -> payload -> post_result) : env := {|
  http_post := server;
  time_sleep := fun _ => cpython_sleep;
  read_text := fun _ p _ =>
    match list_find (fun entry => entry.1 = p) texts with
    | Some (_, entry) => entry.2
    | None => Raise (Exn OSError (py "No such file"))
    end;
  pdf_page_texts := fun _ p =>
    match list_find (fun entry => entry.1 = p) pdfs with
    | Some (_, entry) => Ret entry.2
    | None => Raise (Exn OSError (py "No such file"))
    end;
  png_base64 := fun _ p _ =>
    match list_find (fun entry => entry.1 = p) images with
    | Some (_, entry) => Ret entry.2
    | None => Raise (Exn OSError (py "cannot identify image file"))
    end;
  mkdir := fun _ _ => Ret tt;
  gdown_download_folder := fun _ _ _ => Ret listing;
  gdown_after_mkdir := fun _ _ _ _ _ => eq_refl;
  py_repr := no_repr
|}.

(** Files in a legacy encoding: utf-8 cannot decode them, every other
    encoding gives [text]. *)
Definition legacy_text_env (text : pystr) : env := {|
  http_post := fun _ _ => PostRaise (py "Connection refused");
  time_sleep := fun _ => cpython_sleep;
  read_text := fun _ _ enc =>
    if decide (enc = py "utf-8")
    then Raise (Exn UnicodeDecodeError (py "invalid start byte"))
    else Ret text;
  pdf_page_texts := fun _ _ => Raise (Exn OSError (py "No such file"));
  png_base64 := fun _ _ _ => Raise (Exn OSError (py "No such file"));
  mkdir := fun _ _ => Ret tt;
  gdown_download_folder := fun _ _ _ => Ret None;
  gdown_after_mkdir := fun _ _ _ _ _ => eq_refl;
  py_repr := no_repr
|}.

(** A destination that is there already and is no directory: [mkdir]
    raises [FileExistsError], an [OSError], and [gdown] is not called. *)
Definition taken_destination : env.
Proof.
  refine {|
    http_post := fun _ _ => PostRaise (py "Connection refused");
    time_sleep := fun _ => cpython_sleep;
    read_text := fun _ _ _ => Raise (Exn OSError (py "No such file"));
    pdf_page_texts := fun _ _ => Raise (Exn OSError (py "No such file"));
    png_base64 := fun _ _ _ => Raise (Exn OSError (py "No such file"));
    mkdir := fun _ dest =>
      Raise (Exn OSError (py "[Errno 17] File exists: '" ++ dest ++ py "'"));
    gdown_download_folder := fun _ _ _ => Raise (Exn OSError (py "not called"));
    gdown_after_mkdir := _;
    py_repr := no_repr
  |}.
  discriminate.
Defined.

End MoreScenarios.
Export MoreScenarios.

(* ===================================================================== *)
(** ** Reading the extractors *)
(* ===================================================================== *)

Module ExtractSpec.

(** The errors that [except (UnicodeDecodeError, ValueError)] catches. *)
Definition decoding_error (x : exn) : bool :=
  existsb (isinstance x) [UnicodeDecodeError; ValueError].

(** A page that [PDFProcessor.extract] skips: no text, or white space
    only. *)
Definition blank_page (t : option pystr) : Prop :=
  has_text (default [] t) = false.

(** [<=] on paths, as [sorted] sees it. *)
Definition path_le (p q : path) : Prop := path_ltb q p = false.

(** The longest a section of the prompt can be for a file of the given
    name. *)
Definition section_bound (name : pystr) : nat :=
  length SECTION_HEADER + length name + 2 + CAP + length TRUNCATION_MARKER.

End ExtractSpec.
Export ExtractSpec.

(* ===================================================================== *)
(** * Properties *)
(* ===================================================================== *)

(** ** The candidate list *)

Module CandidatesFacts.

Lemma first_seen_ext (s1 s2 l : list pystr) :
  (∀ x, x ∈ s1 ↔ x ∈ s2) → first_seen s1 l = first_seen s2 l.
Proof.
  revert s1 s2. induction l as [|x l IH]; intros s1 s2 Hs; [done|].
  simpl. destruct (decide (x ∈ s1)) as [H1|H1], (decide (x ∈ s2)) as [H2|H2].
  - by apply IH.
  - by apply Hs in H1.
  - by apply Hs in H2.
  - f_equal. apply IH. intros y. rewrite !elem_of_cons. by rewrite Hs.
Qed.

(** The loop appends to [models_to_try] exactly the fallbacks not yet in
    it, each once. *)
Lemma append_fallbacks_first_seen (acc fbs : list pystr) :
  append_fallbacks acc fbs = acc ++ first_seen acc fbs.
Proof.
  revert acc. induction fbs as [|fb fbs IH]; intros acc; simpl.
  - by rewrite app_nil_r.
  - destruct (decide (fb ∈ acc)); [apply IH|].
    rewrite IH, <- app_assoc. simpl. do 2 f_equal.
    apply first_seen_ext. intros x. set_solver.
Qed.

Lemma append_fallbacks_NoDup (acc fbs : list pystr) :
  NoDup acc → NoDup (append_fallbacks acc fbs).
Proof.
  revert acc. induction fbs as [|fb fbs IH]; intros acc Hacc; simpl; [done|].
  destruct (decide (fb ∈ acc)); apply IH; [done|].
  apply NoDup_app. split_and!; [done| |apply NoDup_singleton].
  set_solver.
Qed.

Lemma append_fallbacks_elem (acc fbs : list pystr) (m : pystr) :
  m ∈ append_fallbacks acc fbs ↔ m ∈ acc ∨ m ∈ fbs.
Proof.
  revert acc. induction fbs as [|fb fbs IH]; intros acc; simpl.
  - rewrite elem_of_nil. tauto.
  - destruct (decide (fb ∈ acc)) as [Hin|Hin]; rewrite IH, elem_of_cons.
    + split; [tauto|]. intros [?|[->|?]]; tauto.
    + set_solver.
Qed.

Lemma append_fallbacks_prefix (acc fbs : list pystr) :
  acc `prefix_of` append_fallbacks acc fbs.
Proof.
  rewrite append_fallbacks_first_seen. by apply prefix_app_r.
Qed.

(** C1. For every primary model and fallback list, the candidate list of
    [describe_image] is the primary followed by the fallbacks with
    duplicates removed in first-seen order: it equals the first-seen
    de-duplication of [primary :: fallbacks], has no duplicates, starts
    with the primary, holds exactly the primary and the fallbacks, and for
    primary M0 and fallbacks M1, M0, M2 it is M0, M1, M2. *)
Theorem models_to_try_first_seen (primary : pystr) (fallbacks : list pystr) :
  models_to_try primary fallbacks = dedup_first_seen (primary :: fallbacks)
  ∧ NoDup (models_to_try primary fallbacks)
  ∧ head (models_to_try primary fallbacks) = Some primary
  ∧ (∀ m, m ∈ models_to_try primary fallbacks ↔ m ∈ primary :: fallbacks)
  ∧ models_to_try (py "M0") [py "M1"; py "M0"; py "M2"]
    = [py "M0"; py "M1"; py "M2"].
Proof.
  unfold models_to_try, dedup_first_seen. split_and!.
  - rewrite append_fallbacks_first_seen. simpl.
    destruct (decide (primary ∈ [])) as [H|_]; [by apply elem_of_nil in H|].
    done.
  - apply append_fallbacks_NoDup, NoDup_singleton.
  - rewrite append_fallbacks_first_seen. done.
  - intros m. rewrite append_fallbacks_elem. set_solver.
  - vm_compute. reflexivity.
Qed.

End CandidatesFacts.

(** ** The processor registry *)

Module RegistryFacts.
Section WithLower.

Context (lower : pystr → pystr).

Lemma registered_snoc calls extension cls :
  registered lower (calls ++ [(extension, cls)])
  = register_processor lower extension cls (registered lower calls).
Proof. unfold registered. by rewrite foldl_app. Qed.

Lemma registered_lookup_None calls (ext : pystr) :
  (∀ call, call ∈ calls → lower call.1 ≠ ext) →
  registered lower calls !! ext = None.
Proof.
  induction calls as [|[e c] calls IH] using rev_ind; intros Hnone; [done|].
  rewrite registered_snoc. unfold register_processor.
  rewrite lookup_insert_ne.
  - apply IH. intros call Hin. apply Hnone. set_solver.
  - apply (Hnone (e, c)). set_solver.
Qed.

(** C8. Lookup lower-cases the file's suffix and registration lower-cases
    the extension, so after [register_processor extension cls] every file
    whose suffix is a case variant of [extension] resolves to [cls]; two
    files whose suffixes differ only in case always resolve alike; and a
    file whose suffix was never registered, in any case, resolves to
    [None]. With ASCII lower-casing, [report.PDF] and [report.pdf] both
    resolve to the PDF processor and [notes.docx] to [None]. *)
Theorem get_processor_case_insensitive
    (reg : gmap pystr processor_cls) (extension : pystr) (cls : processor_cls)
    (calls : list (pystr * processor_cls)) (file_path file_path' : path) :
  (lower (suffix file_path) = lower extension →
   get_processor lower (register_processor lower extension cls reg) file_path
   = Some cls)
  ∧ (lower (suffix file_path) = lower (suffix file_path') →
     get_processor lower reg file_path = get_processor lower reg file_path')
  ∧ ((∀ call, call ∈ calls → lower call.1 ≠ lower (suffix file_path)) →
     get_processor lower (registered lower calls) file_path = None).
Proof.
  unfold get_processor, register_processor. split_and!.
  - intros ->. apply lookup_insert_eq.
  - by intros ->.
  - apply registered_lookup_None.
Qed.

End WithLower.

Lemma get_processor_case_insensitive_witness :
  let reg := imported_registry ascii_lower in
  let calls := [(py ".PDF", PDFProcessor); (py ".Txt", TextProcessor)] in
  get_processor ascii_lower
    (register_processor ascii_lower (py ".Pdf") PDFProcessor reg)
    [py "docs"; py "report.PDF"] = Some PDFProcessor
  ∧ get_processor ascii_lower reg [py "report.PDF"]
    = get_processor ascii_lower reg [py "report.pdf"]
  ∧ get_processor ascii_lower (registered ascii_lower calls) [py "notes.docx"]
    = None.
Proof.
  intros reg calls.
  pose proof (get_processor_case_insensitive ascii_lower reg (py ".Pdf")
                PDFProcessor calls [py "docs"; py "report.PDF"]
                [py "report.PDF"]) as (H1 & _ & _).
  pose proof (get_processor_case_insensitive ascii_lower reg (py ".Pdf")
                PDFProcessor calls [py "report.PDF"]
                [py "report.pdf"]) as (_ & H2 & _).
  pose proof (get_processor_case_insensitive ascii_lower reg (py ".Pdf")
                PDFProcessor calls [py "notes.docx"]
                [py "notes.docx"]) as (_ & _ & H3).
  split_and!.
  - apply H1. vm_compute. reflexivity.
  - apply H2. vm_compute. reflexivity.
  - apply H3. intros call Hin.
    apply elem_of_cons in Hin as [->|Hin]; [vm_compute; discriminate|].
    apply list_elem_of_singleton in Hin as ->. vm_compute. discriminate.
Defined.

Example imported_registry_lookups :
  let reg := imported_registry ascii_lower in
  get_processor ascii_lower reg [py "a"; py "Scan.JPEG"] = Some ImageProcessor
  ∧ get_processor ascii_lower reg [py "report.PDF"] = Some PDFProcessor
  ∧ get_processor ascii_lower reg [py "report.pdf"] = Some PDFProcessor
  ∧ get_processor ascii_lower reg [py "README.md"] = Some TextProcessor
  ∧ get_processor ascii_lower reg [py "archive.tar.gz"] = None
  ∧ get_processor ascii_lower reg [py ".txt"] = None
  ∧ get_processor ascii_lower reg [py "Makefile"] = None.
Proof. vm_compute. repeat split; reflexivity. Qed.

End RegistryFacts.

(** ** Binary64 products with 1.0 and 2.0 *)

Module Float64Facts.

Lemma of_int_1 : of_int 1 = S754_finite false two52 (-52).
Proof. vm_compute. reflexivity. Qed.

Lemma of_int_2 : of_int 2 = S754_finite false two52 (-51).
Proof. vm_compute. reflexivity. Qed.

Lemma mul_two52 m :
  (m * two52)%positive
  = (m~0~0~0~0~0~0~0~0~0~0~0~0~0~0~0~0~0~0~0~0~0~0~0~0~0~0
      ~0~0~0~0~0~0~0~0~0~0~0~0~0~0~0~0~0~0~0~0~0~0~0~0~0~0)%positive.
Proof. rewrite Pos.mul_comm. reflexivity. Qed.

Lemma digits_shifted m :
  Z.pos (digits2_pos
           (m~0~0~0~0~0~0~0~0~0~0~0~0~0~0~0~0~0~0~0~0~0~0~0~0~0~0
             ~0~0~0~0~0~0~0~0~0~0~0~0~0~0~0~0~0~0~0~0~0~0~0~0~0~0))
  = Z.pos (digits2_pos m) + 52.
Proof. cbn [digits2_pos]. lia. Qed.

(** A binary64 mantissa is normal (53 digits) or subnormal (fewer digits,
    at the least exponent). *)
Lemma bounded_cases m e :
  bounded prec emax m e = true →
  e ≤ 971
  ∧ ((Z.pos (digits2_pos m) = 53 ∧ -1074 ≤ e)
     ∨ (Z.pos (digits2_pos m) < 53 ∧ e = -1074)).
Proof.
  unfold bounded, canonical_mantissa, fexp, emin, prec, emax.
  intros H. apply andb_prop in H as [H1 H2].
  apply Z.eqb_eq in H1. apply Z.leb_le in H2. lia.
Qed.

(** Replace the shift distance [k] of a rounding step by its value [n]. *)
Ltac shift_by k n :=
  replace k with n by (cbn [digits2_pos]; unfold fexp, emin, prec, emax; lia).

Ltac run_shift :=
  cbn [shr shr_record_of_loc]; cbv [SpecFloat.iter_pos shr_1];
  cbn [orb shr_m loc_of_shr_record round_nearest_even Zdigits2
       shr_record_of_loc].

(** [x * 1.0 = x] *)
Lemma fmul_one s m e :
  bounded prec emax m e = true →
  fmul (S754_finite s m e) (of_int 1) = S754_finite s m e.
Proof.
  intros Hb. pose proof (bounded_cases m e Hb) as [He Hc].
  rewrite of_int_1. unfold fmul, SFmul. rewrite mul_two52.
  unfold binary_round_aux, shr_fexp. unfold Zdigits2 at 1.
  rewrite digits_shifted, xorb_false_r.
  shift_by (fexp prec emax (Z.pos (digits2_pos m) + 52 + (e + -52)) - (e + -52)) 52.
  run_shift.
  shift_by (fexp prec emax (Z.pos (digits2_pos m) + (e + -52 + 52)) - (e + -52 + 52)) 0.
  cbn [shr shr_m]. replace (e + -52 + 52) with e by lia.
  unfold emax, prec. by rewrite (proj2 (Z.leb_le e (1024 - 53))) by lia.
Qed.

(** [x * 2.0]: the next exponent, or twice the mantissa for a subnormal
    number, or an infinity when the exponent is already the largest. *)
Lemma fmul_two s m e :
  bounded prec emax m e = true →
  fmul (S754_finite s m e) (of_int 2)
  = if Z.pos (digits2_pos m) <? 53 then S754_finite s (m~0) e
    else if e <? 971 then S754_finite s m (e + 1)
    else S754_infinity s.
Proof.
  intros Hb. pose proof (bounded_cases m e Hb) as [He Hc].
  rewrite of_int_2. unfold fmul, SFmul. rewrite mul_two52.
  unfold binary_round_aux, shr_fexp. unfold Zdigits2 at 1.
  rewrite digits_shifted, xorb_false_r.
  destruct Hc as [[Hd Hemin]|[Hd ->]].
  - shift_by (fexp prec emax (Z.pos (digits2_pos m) + 52 + (e + -51)) - (e + -51)) 52.
    run_shift.
    shift_by (fexp prec emax (Z.pos (digits2_pos m) + (e + -51 + 52)) - (e + -51 + 52)) 0.
    cbn [shr shr_m]. replace (e + -51 + 52) with (e + 1) by lia.
    rewrite (proj2 (Z.ltb_ge _ 53)) by lia.
    unfold emax, prec. destruct (Z.ltb_spec e 971).
    + by rewrite (proj2 (Z.leb_le (e + 1) (1024 - 53))) by lia.
    + by rewrite (proj2 (Z.leb_gt (e + 1) (1024 - 53))) by lia.
  - shift_by (fexp prec emax (Z.pos (digits2_pos m) + 52 + (-1074 + -51))
              - (-1074 + -51)) 51.
    run_shift.
    shift_by (fexp prec emax (Z.pos (digits2_pos m~0) + (-1074 + -51 + 51))
              - (-1074 + -51 + 51)) 0.
    cbn [shr shr_m].
    by rewrite (proj2 (Z.ltb_lt _ 53)) by lia.
Qed.

(** [x * 1.0 < x * 2.0] exactly for the positive finite numbers. *)
Lemma fmul_one_lt_fmul_two x :
  is_float x →
  flt (fmul x (of_int 1)) (fmul x (of_int 2)) = true ↔ positive_finite x.
Proof.
  intros Hx. destruct x as [s|s| |s m e].
  - rewrite of_int_1, of_int_2. by destruct s.
  - rewrite of_int_1, of_int_2. by destruct s.
  - rewrite of_int_1, of_int_2. done.
  - unfold is_float in Hx. simpl in Hx. rewrite fmul_one, fmul_two by done.
    unfold flt, SFltb, SFcompare, positive_finite.
    destruct (Z.pos (digits2_pos m) <? 53).
    + rewrite Z.compare_refl.
      change (Pos.compare_cont Eq m m~0) with (m ?= m~0)%positive.
      rewrite (proj2 (Pos.compare_lt_iff m m~0)) by lia. by destruct s.
    + destruct (e <? 971); [|by destruct s].
      rewrite (proj2 (Z.compare_lt_iff e (e + 1))) by lia. by destruct s.
Qed.

End Float64Facts.

(** ** The request/retry protocol *)

Module RetryFacts.

(** Unfold the monad operations of a goal. *)
Ltac unfold_eff :=
  unfold mbind, mret, eff_mbind, eff_mret, eff_bind, eff_ret, raise, emit,
    ask, consult, lift in *.

Section WithEnv.

Context (E : env) (cfg : config).

Lemma posts_app tr1 tr2 : posts (tr1 ++ tr2) = posts tr1 ++ posts tr2.
Proof. apply omap_app. Qed.

Lemma sleeps_app tr1 tr2 : sleeps (tr1 ++ tr2) = sleeps tr1 ++ sleeps tr2.
Proof. apply omap_app. Qed.








End WithEnv.



Section Backoff.

Context (E : env) (cfg : config).

(** One pass through the loop body on a 429, 402 or 503: request, warning,
    [time.sleep(wait_for attempt)], then the remaining attempts, unless
    [time.sleep] raised. *)
Lemma attempts_loop_transient p attempt rest last tr r :
  http_post E tr p = PostResp r → status_code r ∈ [429; 402; 503] →
  let w := wait_for cfg attempt in
  let tr1 := tr ++ [EvPost p; EvLog (WarnRateLimited (status_code r) w attempt)] in
  attempts_loop E cfg p (attempt :: rest) last tr
  = match time_sleep E tr1 w with
    | Ret _ => attempts_loop E cfg p rest (Some r) (tr1 ++ [EvSleep w])
    | Raise e => (Raise e, tr1 ++ [EvSleep w])
    end.
Proof.
  intros Hpost Hs w tr1. cbn [attempts_loop]. unfold_eff. unfold post.
  rewrite Hpost.
  assert ((status_code r =? 200) = false) as ->.
  { apply Z.eqb_neq. rewrite !elem_of_cons, elem_of_nil in Hs. lia. }
  rewrite bool_decide_eq_true_2 by done.
  unfold sleep. unfold_eff. fold w. subst tr1. rewrite <- !app_assoc. simpl.
  by destruct (time_sleep E _ w).
Qed.

Lemma attempts_loop_all_transient p attempts :
  (∀ tr, ∃ r, http_post E tr p = PostResp r ∧ status_code r ∈ [429; 402; 503]) →
  (∀ tr n, n ∈ attempts → time_sleep E tr (wait_for cfg n) = Ret tt) →
  ∀ last tr,
    ∃ last' evs,
      attempts_loop E cfg p attempts last tr
      = (Raise (Exn RuntimeError (exhausted_msg cfg last')), tr ++ evs)
      ∧ sleeps evs = map (wait_for cfg) attempts
      ∧ posts evs = replicate (length attempts) p.
Proof.
  intros Hall. induction attempts as [|a rest IH]; intros Hsleep last tr.
  - exists last, []. by rewrite app_nil_r.
  - destruct (Hall tr) as (r & Hpost & Hs).
    rewrite (attempts_loop_transient p a rest last tr r Hpost Hs).
    rewrite Hsleep by apply list_elem_of_here.
    set (w := wait_for cfg a).
    set (new := [EvPost p; EvLog (WarnRateLimited (status_code r) w a); EvSleep w]).
    destruct (IH (fun tr0 n Hn => Hsleep tr0 n (list_elem_of_further _ _ _ Hn))
                (Some r) (tr ++ new))
      as (last' & evs & Heq & Hsl & Hp).
    exists last', (new ++ evs). split_and!.
    + rewrite app_assoc, <- Heq. f_equal. subst new.
      by rewrite <- app_assoc.
    + rewrite sleeps_app, Hsl. done.
    + rewrite posts_app, Hp. done.
Qed.

(** C4, as amended. Handling a 429, 402 or 503 at attempt [n] calls
    [time.sleep] with the binary64 product [RETRY_DELAY * n] before the
    next attempt, and a run that only meets such statuses sleeps
    [RETRY_DELAY * 1], ..., [RETRY_DELAY * MAX_RETRIES] in turn. The wait
    of attempt 2 exceeds that of attempt 1 exactly when [RETRY_DELAY] is
    positive and finite. *)
Theorem backoff_linear_in_attempt :
  (∀ p attempt rest last tr r,
     http_post E tr p = PostResp r → status_code r ∈ [429; 402; 503] →
     ∃ warning,
       let w := fmul (RETRY_DELAY cfg) (of_int attempt) in
       let tr1 := tr ++ [EvPost p; EvLog warning] in
       attempts_loop E cfg p (attempt :: rest) last tr
       = match time_sleep E tr1 w with
         | Ret _ => attempts_loop E cfg p rest (Some r) (tr1 ++ [EvSleep w])
         | Raise e => (Raise e, tr1 ++ [EvSleep w])
         end)
  ∧ (∀ p,
       (∀ tr, ∃ r, http_post E tr p = PostResp r
                   ∧ status_code r ∈ [429; 402; 503]) →
       (∀ tr n, 1 ≤ n ≤ MAX_RETRIES cfg →
                time_sleep E tr (fmul (RETRY_DELAY cfg) (of_int n)) = Ret tt) →
       ∀ tr, ∃ last evs,
         _request_with_retry E cfg p tr
         = (Raise (Exn RuntimeError (exhausted_msg cfg last)), tr ++ evs)
         ∧ sleeps evs
           = map (fun n => fmul (RETRY_DELAY cfg) (of_int n))
                 (seqZ 1 (MAX_RETRIES cfg)))
  ∧ (is_float (RETRY_DELAY cfg) →
     (flt (wait_for cfg 1) (wait_for cfg 2) = true
      ↔ positive_finite (RETRY_DELAY cfg))).
Proof.
  split_and!.
  - intros p attempt rest last tr r Hpost Hs. eexists.
    by apply attempts_loop_transient.
  - intros p Hall Hsleep tr. unfold _request_with_retry.
    destruct (attempts_loop_all_transient p (seqZ 1 (MAX_RETRIES cfg)) Hall)
      with (last := @None response) (tr := tr)
      as (last' & evs & Heq & Hsl & _).
    { intros tr0 n Hn. apply Hsleep. apply elem_of_seqZ in Hn. lia. }
    by exists last', evs.
  - apply Float64Facts.fmul_one_lt_fmul_two.
Qed.

End Backoff.

Lemma backoff_linear_in_attempt_witness :
  let E := constant_server rate_limited_429 in
  let p := user_payload (py "M0") in
  (∃ warning,
     attempts_loop E default_config p [2; 3] None []
     = attempts_loop E default_config p [3] (Some rate_limited_429)
         [EvPost p; EvLog warning; EvSleep (fmul (of_int 5) (of_int 2))])
  ∧ (∃ last evs,
       _request_with_retry E default_config p []
       = (Raise (Exn RuntimeError (exhausted_msg default_config last)), evs)
       ∧ sleeps evs = [of_int 5; of_int 10; of_int 15])
  ∧ flt (wait_for default_config 1) (wait_for default_config 2) = true.
Proof.
  intros E p.
  destruct (backoff_linear_in_attempt E default_config)
    as (Hstep & Hrun & Hmono).
  split_and!.
  - destruct (Hstep p 2 [3] None [] rate_limited_429 eq_refl) as (warning & H).
    { apply list_elem_of_here. }
    exists warning. exact H.
  - destruct (Hrun p) with (tr := @nil event) as (last & evs & Heq & Hsl).
    { intros tr. exists rate_limited_429. split; [reflexivity|].
      apply list_elem_of_here. }
    { intros tr n Hn. change (MAX_RETRIES default_config) with 3 in Hn.
      assert (n = 1 ∨ n = 2 ∨ n = 3) as [->|[->| ->]] by lia;
        vm_compute; reflexivity. }
    exists last, evs. split; [exact Heq|].
    rewrite Hsl. vm_compute. reflexivity.
  - apply Hmono; [vm_compute; reflexivity|exact I].
Defined.

(** With [RETRY_DELAY = 0.0] the waits of attempts 1 and 2 are both zero:
    the run below sleeps three times for zero seconds. *)
Lemma backoff_flat_at_zero_delay :
  let cfg0 := with_retry_delay (of_int 0) default_config in
  let E := constant_server rate_limited_429 in
  is_float (RETRY_DELAY cfg0)
  ∧ sleeps (_request_with_retry E cfg0 (user_payload (py "M0")) []).2
    = [wait_for cfg0 1; wait_for cfg0 2; wait_for cfg0 3]
  ∧ wait_for cfg0 1 = of_int 0 ∧ wait_for cfg0 2 = of_int 0
  ∧ flt (wait_for cfg0 1) (wait_for cfg0 2) = false.
Proof. vm_compute. repeat split; reflexivity. Qed.

End RetryFacts.

(** ** The vision fallback protocol *)

Module FallbackFacts.
Import RetryFacts.

Section WithEnv.

Context (E : env) (cfg : config) (msgs : list message).








End WithEnv.


Lemma models_to_try_snoc primary fallbacks :
  ∃ pre m, models_to_try primary fallbacks = pre ++ [m].
Proof.
  destruct (models_to_try primary fallbacks) as [|m l] eqn:Heq
    using rev_ind; [|by eauto].
  pose proof (CandidatesFacts.append_fallbacks_prefix [primary] fallbacks)
    as [k Hk].
  unfold models_to_try in Heq. rewrite Heq in Hk. discriminate.
Qed.

Section Protocol.

Context (E : env) (cfg : config).


End Protocol.


Example describe_image_all_blocked_run :
  let cfg := with_vision (py "M0") [py "M1"; py "M0"; py "M2"] default_config in
  (describe_image (constant_server blocked_403) cfg
     (py "data:image/png;base64,AAAA") default_prompt []).1
  = Raise (Exn RuntimeError
             (py "All vision models failed. Last error: Model M2 returned 403: Blocked by provider")).
Proof. vm_compute. reflexivity. Qed.

End FallbackFacts.

(** ** What a computation appends to the trace *)

Module TraceFacts.
Import RetryFacts.

Lemma chats_app tr1 tr2 : chats (tr1 ++ tr2) = chats tr1 ++ chats tr2.
Proof. apply omap_app. Qed.

Lemma extractions_app tr1 tr2 :
  extractions (tr1 ++ tr2) = extractions tr1 ++ extractions tr2.
Proof. apply omap_app. Qed.

Lemma no_chat_chats evs : Forall no_chat evs → chats evs = [].
Proof.
  induction 1 as [|ev evs Hev _ IH]; [done|].
  destruct ev; try discriminate Hev; exact IH.
Qed.

Section Combinators.

Context (P : event → Prop).

Lemma emits_ret {A} (a : A) : emits P (mret a).
Proof. intros tr. exists []. by rewrite app_nil_r. Qed.

Lemma emits_raise {A} (e : exn) : emits P (raise (A:=A) e).
Proof. intros tr. exists []. by rewrite app_nil_r. Qed.

Lemma emits_emit ev : P ev → emits P (emit ev).
Proof. intros Hev tr. exists [ev]. split; [done|]. by constructor. Qed.

Lemma emits_ask {A} ev (oracle : trace → outcome A) :
  P ev → emits P (ask ev oracle).
Proof. intros Hev tr. exists [ev]. split; [done|]. by constructor. Qed.

Lemma emits_consult {A} (oracle : trace → outcome A) : emits P (consult oracle).
Proof. intros tr. exists []. by rewrite app_nil_r. Qed.

Lemma emits_lift {A} (o : outcome A) : emits P (lift o).
Proof. intros tr. exists []. by rewrite app_nil_r. Qed.

Lemma emits_bind {A B} (m : eff A) (f : A → eff B) :
  emits P m → (∀ a, emits P (f a)) → emits P (m ≫= f).
Proof.
  intros Hm Hf tr. unfold_eff. destruct (Hm tr) as (evs & Heq & Hevs).
  destruct (m tr) as [[a|e] tr']; simpl in Heq; subst tr'.
  - destruct (Hf a (tr ++ evs)) as (evs' & -> & Hevs').
    exists (evs ++ evs'). split; [by rewrite app_assoc|]. by apply Forall_app.
  - by exists evs.
Qed.

Lemma emits_try_except {A} (m : eff A) classes (h : exn → eff A) :
  emits P m → (∀ e, emits P (h e)) → emits P (try_except m classes h).
Proof.
  intros Hm Hh tr. unfold try_except. destruct (Hm tr) as (evs & Heq & Hevs).
  destruct (m tr) as [[a|e] tr']; simpl in Heq; subst tr'.
  - by exists evs.
  - destruct (existsb _ _); [|by exists evs].
    destruct (Hh e (tr ++ evs)) as (evs' & -> & Hevs').
    exists (evs ++ evs'). split; [by rewrite app_assoc|]. by apply Forall_app.
Qed.

Lemma emits_try_except_all {A} (m : eff A) (h : exn → eff A) :
  emits P m → (∀ e, emits P (h e)) → emits P (try_except_all m h).
Proof.
  intros Hm Hh tr. unfold try_except_all. destruct (Hm tr) as (evs & Heq & Hevs).
  destruct (m tr) as [[a|e] tr']; simpl in Heq; subst tr'.
  - by exists evs.
  - destruct (Hh e (tr ++ evs)) as (evs' & -> & Hevs').
    exists (evs ++ evs'). split; [by rewrite app_assoc|]. by apply Forall_app.
Qed.

End Combinators.

(** Break a computation built from the combinators into its parts. *)
Ltac emits_step :=
  first
    [ assumption
    | apply emits_ret
    | apply emits_raise
    | apply emits_emit; reflexivity
    | apply emits_ask; reflexivity
    | apply emits_consult
    | apply emits_lift
    | apply emits_bind; [|intros ?]
    | apply emits_try_except; [|intros ?]
    | apply emits_try_except_all; [|intros ?]
    | match goal with
      | |- emits _ (if ?c then _ else _) => destruct c
      | |- emits _ (match ?x with _ => _ end) => destruct x
      end ].

Section NoChat.

Context (lower : pystr → pystr) (E : env) (cfg : config).
Context (reg : gmap pystr processor_cls).

Lemma post_no_chat p : emits no_chat (post E p).
Proof.
  intros tr. exists [EvPost p]. unfold post.
  destruct (http_post E tr p); (split; [done|by constructor]).
Qed.

Lemma attempts_loop_no_chat p attempts last :
  emits no_chat (attempts_loop E cfg p attempts last).
Proof.
  revert last. induction attempts as [|a rest IH]; intros last;
    cbn [attempts_loop]; [apply emits_raise|].
  apply emits_bind; [apply post_no_chat|intros resp].
  unfold on_status_200, resp_json, sleep, raise_for_status.
  repeat emits_step; apply IH.
Qed.

Lemma request_with_retry_no_chat p : emits no_chat (_request_with_retry E cfg p).
Proof. apply attempts_loop_no_chat. Qed.

Lemma try_models_no_chat msgs models last :
  emits no_chat (try_models E cfg msgs models last).
Proof.
  revert last. induction models as [|m rest IH]; intros last;
    cbn [try_models]; [apply emits_raise|].
  intros tr.
  destruct (request_with_retry_no_chat {| model := m; messages := msgs |} tr)
    as (evs & Heq & Hevs).
  destruct (_request_with_retry _ _ _ tr) as [[reply|exc] tr'];
    simpl in Heq; subst tr'; [by exists evs|].
  assert (Hnext : ∀ w, ∃ evs',
    ((emit (EvLog w);; try_models E cfg msgs rest (Some exc)) (tr ++ evs)).2
    = tr ++ evs' ∧ Forall no_chat evs').
  { intros w.
    destruct (emits_bind no_chat (emit (EvLog w))
                (fun _ => try_models E cfg msgs rest (Some exc))
                ltac:(by apply emits_emit) ltac:(intros; apply IH) (tr ++ evs))
      as (evs' & Heq' & Hevs').
    exists (evs ++ evs'). split; [by rewrite app_assoc|]. by apply Forall_app. }
  destruct (isinstance exc ContentBlockedError); [apply Hnext|].
  destruct (isinstance exc RuntimeError); [apply Hnext|]. by exists evs.
Qed.

Lemma describe_image_no_chat data_url prompt :
  emits no_chat (describe_image E cfg data_url prompt).
Proof. apply try_models_no_chat. Qed.

Lemma try_encodings_no_chat file_path encodings :
  emits no_chat (try_encodings E file_path encodings).
Proof.
  induction encodings as [|enc rest IH]; cbn [try_encodings];
    repeat emits_step.
Qed.

Lemma extract_no_chat cls file_path :
  emits no_chat (extract E cfg cls file_path).
Proof.
  unfold extract, text_extract, pdf_extract, image_extract, _prepare_image.
  apply emits_bind; [by apply emits_emit|intros _].
  destruct cls.
  - apply try_encodings_no_chat.
  - repeat emits_step.
  - repeat emits_step. apply describe_image_no_chat.
Qed.

End NoChat.
End TraceFacts.

(** ** The orchestrator: short circuits *)

Module SummarizerFacts.
Import RetryFacts TraceFacts.

Lemma nothing_extracted_failed d :
  nothing_extracted d = true ↔ Forall failed d.
Proof.
  unfold nothing_extracted, failed. rewrite negb_true_iff.
  induction d as [|[k v] d IH]; simpl; [by split|].
  rewrite orb_false_iff, IH, Forall_cons. simpl.
  rewrite bool_decide_eq_false. split; intros [H ?]; (split; [|done]).
  - by destruct (decide (v = EXTRACTION_FAILED)).
  - by intros ?.
Qed.

Lemma dict_set_failed k v d :
  v = EXTRACTION_FAILED → Forall failed d → Forall failed (dict_set k v d).
Proof.
  intros Hv. induction 1 as [|[k' v'] d Hkv Hd IH]; simpl.
  - by repeat constructor.
  - destruct (decide (k' = k)); constructor; done.
Qed.

Section WithEnv.

Context (lower : pystr → pystr) (E : env) (cfg : config).
Context (reg : gmap pystr processor_cls).

Lemma extract_file_content_quiet f :
  returns_quietly (_extract_file_content lower E cfg reg f).
Proof.
  intros tr. unfold _extract_file_content.
  destruct (get_processor lower reg f) as [cls|].
  - unfold try_except_all. unfold_eff.
    destruct (extract_no_chat E cfg cls f tr) as (evs & Heq & Hevs).
    destruct (extract E cfg cls f tr) as [[text|e] tr'];
      simpl in Heq; subst tr'; eauto.
  - exists None, []. by rewrite app_nil_r.
Qed.

Lemma extract_all_step f rest d tr c tr' :
  _extract_file_content lower E cfg reg f tr = (Ret c, tr') →
  extract_all lower E cfg reg (f :: rest) d tr
  = extract_all lower E cfg reg rest (dict_set (name f) (recorded c) d) tr'.
Proof. intros H. cbn [extract_all]. unfold_eff. by rewrite H. Qed.

Lemma extract_all_quiet files d :
  returns_quietly (extract_all lower E cfg reg files d).
Proof.
  revert d. induction files as [|f rest IH]; intros d tr.
  - exists d, []. by rewrite app_nil_r.
  - destruct (extract_file_content_quiet f tr) as (c & evs & Hc & Hevs).
    rewrite (extract_all_step f rest d tr c _ Hc).
    destruct (IH (dict_set (name f) (recorded c) d) (tr ++ evs))
      as (d' & evs' & -> & Hevs').
    exists d', (evs ++ evs'). split; [by rewrite app_assoc|].
    by apply Forall_app.
Qed.

(** If each file's extraction yields nothing usable whenever it is run,
    every recorded value is the placeholder. *)
Lemma extract_all_failed files :
  (∀ f, f ∈ files → ∀ tr, ∃ c tr',
     _extract_file_content lower E cfg reg f tr = (Ret c, tr')
     ∧ recorded c = EXTRACTION_FAILED) →
  ∀ d tr d' tr',
    Forall failed d →
    extract_all lower E cfg reg files d tr = (Ret d', tr') →
    Forall failed d'.
Proof.
  induction files as [|f rest IH]; intros Hfiles d tr d' tr' Hd Hrun.
  - cbn in Hrun. by injection Hrun as <- <-.
  - destruct (Hfiles f) with (tr := tr) as (c & tr1 & Hc & Hrec);
      [apply list_elem_of_here|].
    rewrite (extract_all_step f rest d tr c tr1 Hc) in Hrun.
    eapply IH; [|exact (dict_set_failed (name f) _ d Hrec Hd)|exact Hrun].
    intros f' Hin. apply Hfiles. by apply list_elem_of_further.
Qed.

(** The download, by what making the directory and [gdown] come to. *)
Lemma download_folder_cases folder_url output_dir tr :
  download_folder E cfg folder_url output_dir tr
  = match mkdir E tr (dest_of cfg output_dir) with
    | Raise e => (Raise e, tr)
    | Ret _ =>
        match gdown_download_folder E tr folder_url (dest_of cfg output_dir) with
        | Raise e =>
            (Raise e, tr ++ [EvDownload folder_url (dest_of cfg output_dir)])
        | Ret downloaded =>
            (Ret (sorted (default [] downloaded)),
             tr ++ [EvDownload folder_url (dest_of cfg output_dir)])
        end
    end.
Proof.
  unfold download_folder. unfold_eff.
  destruct (mkdir E tr _); [|done].
  destruct (gdown_download_folder E tr _ _) as [[[|f fs]|]|e]; done.
Qed.

Lemma download_folder_trace folder_url output_dir tr files tr1 :
  download_folder E cfg folder_url output_dir tr = (Ret files, tr1) →
  tr1 = tr ++ [EvDownload folder_url (dest_of cfg output_dir)].
Proof.
  rewrite download_folder_cases.
  destruct (mkdir E tr _); [|done].
  destruct (gdown_download_folder E tr _ _); [|done]. by intros [= _ <-].
Qed.

(** Past the download, with files: either the all-failed message or the one
    [chat] call on the combined prompt. *)
Lemma summarize_folder_after_download folder_url output_dir tr files tr1 d tr2 :
  download_folder E cfg folder_url output_dir tr = (Ret files, tr1) →
  files ≠ [] →
  extract_all lower E cfg reg files [] tr1 = (Ret d, tr2) →
  summarize_folder lower E cfg reg folder_url output_dir tr
  = if nothing_extracted d then (Ret NOTHING_EXTRACTED, tr2)
    else chat E cfg (combined_prompt d) _SYSTEM_PROMPT tr2.
Proof.
  intros Hdl Hne Hex. unfold summarize_folder. unfold_eff. rewrite Hdl.
  destruct files as [|f rest]; [done|]. rewrite Hex.
  by destruct (nothing_extracted d).
Qed.

(** C5. When the downloader returns no file, [summarize_folder] returns the
    folder-empty message; the download is the only thing it did: no
    extraction, no [chat] call, no HTTP request. *)
Theorem empty_folder_short_circuit folder_url output_dir tr tr1 :
  download_folder E cfg folder_url output_dir tr = (Ret [], tr1) →
  ∃ evs,
    summarize_folder lower E cfg reg folder_url output_dir tr
    = (Ret FOLDER_EMPTY, tr ++ evs)
    ∧ evs = [EvDownload folder_url (dest_of cfg output_dir)]
    ∧ extractions evs = [] ∧ chats evs = [] ∧ posts evs = [].
Proof.
  intros Hdl. exists [EvDownload folder_url (dest_of cfg output_dir)].
  split_and!; try done.
  unfold summarize_folder. unfold_eff. rewrite Hdl.
  by rewrite (download_folder_trace _ _ _ _ _ Hdl).
Qed.

(** The run when the test after step 2 succeeds. *)
Lemma short_circuit_when_nothing_extracted
    folder_url output_dir tr files tr1 d tr2 :
  download_folder E cfg folder_url output_dir tr = (Ret files, tr1) →
  files ≠ [] →
  extract_all lower E cfg reg files [] tr1 = (Ret d, tr2) →
  nothing_extracted d = true →
  ∃ evs,
    summarize_folder lower E cfg reg folder_url output_dir tr
    = (Ret NOTHING_EXTRACTED, tr ++ evs)
    ∧ tr2 = tr ++ evs ∧ chats evs = [].
Proof.
  intros Hdl Hne Hex Hd.
  rewrite (summarize_folder_after_download _ _ _ _ _ _ _ Hdl Hne Hex), Hd.
  pose proof (download_folder_trace _ _ _ _ _ Hdl) as Htr. subst tr1.
  destruct (extract_all_quiet files [] (tr ++ [EvDownload folder_url (dest_of cfg output_dir)]))
    as (d' & evs & Hex' & Hevs).
  rewrite Hex in Hex'. injection Hex' as _ ->.
  exists ([EvDownload folder_url (dest_of cfg output_dir)] ++ evs).
  rewrite app_assoc. split_and!; try done.
  rewrite chats_app, (no_chat_chats evs Hevs). done.
Qed.

(** C6. When the download yields at least one file and every value recorded
    by the extraction step is the failure placeholder, [summarize_folder]
    returns the nothing-extracted message, and nothing it did since the
    call is a [chat] call. *)
Theorem all_failed_short_circuit folder_url output_dir tr files tr1 d tr2 :
  download_folder E cfg folder_url output_dir tr = (Ret files, tr1) →
  files ≠ [] →
  extract_all lower E cfg reg files [] tr1 = (Ret d, tr2) →
  Forall failed d →
  ∃ evs,
    summarize_folder lower E cfg reg folder_url output_dir tr
    = (Ret NOTHING_EXTRACTED, tr ++ evs)
    ∧ tr2 = tr ++ evs ∧ chats evs = [].
Proof.
  intros Hdl Hne Hex Hd. apply nothing_extracted_failed in Hd.
  by apply short_circuit_when_nothing_extracted with files tr1 d.
Qed.

(** ** The orchestrator: empty extractions *)

Lemma try_encodings_first_ok f enc rest tr text :
  read_text E tr f enc = Ret text →
  try_encodings E f (enc :: rest) tr = (Ret text, tr ++ [EvReadText f enc]).
Proof.
  intros H. cbn [try_encodings]. unfold try_except, ask. by rewrite H.
Qed.

Lemma try_encodings_all_undecodable f encodings tr :
  (∀ tr0 enc, ∃ msg, read_text E tr0 f enc = Raise (Exn UnicodeDecodeError msg)) →
  try_encodings E f encodings tr = (Ret [], tr ++ map (EvReadText f) encodings).
Proof.
  intros Hall. revert tr. induction encodings as [|enc rest IH]; intros tr.
  - simpl. by rewrite app_nil_r.
  - cbn [try_encodings]. unfold try_except, ask.
    destruct (Hall tr enc) as (msg & ->). simpl existsb. cbv iota.
    rewrite IH. simpl. by rewrite <- app_assoc.
Qed.

Lemma extract_file_content_empty f cls tr tr' :
  get_processor lower reg f = Some cls →
  extract E cfg cls f tr = (Ret [], tr') →
  _extract_file_content lower E cfg reg f tr = (Ret (Some []), tr').
Proof.
  intros Hp Hx. unfold _extract_file_content. rewrite Hp.
  unfold try_except_all. unfold_eff. by rewrite Hx.
Qed.

Lemma extract_file_content_raised f cls tr e tr' :
  get_processor lower reg f = Some cls →
  extract E cfg cls f tr = (Raise e, tr') →
  _extract_file_content lower E cfg reg f tr = (Ret None, tr').
Proof.
  intros Hp Hx. unfold _extract_file_content. rewrite Hp.
  unfold try_except_all. unfold_eff. by rewrite Hx.
Qed.

(** C9. An extractor that returns the empty string without raising is
    treated like one that raises: in both cases the loop stores the failure
    placeholder under the file's name and goes on from the same state. The
    text extractor returns the empty string for an empty file and for a
    file that no encoding decodes. A non-empty folder whose files all
    extract to the empty string ends in the nothing-extracted message
    without a [chat] call. *)
Theorem empty_extraction_recorded_as_failure (f : path) :
  (∀ cls rest d tr tr',
     get_processor lower reg f = Some cls →
     extract E cfg cls f tr = (Ret [], tr') →
     extract_all lower E cfg reg (f :: rest) d tr
     = extract_all lower E cfg reg rest
         (dict_set (name f) EXTRACTION_FAILED d) tr')
  ∧ (∀ cls rest d tr e tr',
       get_processor lower reg f = Some cls →
       extract E cfg cls f tr = (Raise e, tr') →
       extract_all lower E cfg reg (f :: rest) d tr
       = extract_all lower E cfg reg rest
           (dict_set (name f) EXTRACTION_FAILED d) tr')
  ∧ (∀ tr,
       read_text E (tr ++ [EvExtract TextProcessor f]) f (py "utf-8") = Ret [] →
       extract E cfg TextProcessor f tr
       = (Ret [], tr ++ [EvExtract TextProcessor f; EvReadText f (py "utf-8")]))
  ∧ ((∀ tr0 enc, ∃ msg,
        read_text E tr0 f enc = Raise (Exn UnicodeDecodeError msg)) →
     ∀ tr, ∃ tr', extract E cfg TextProcessor f tr = (Ret [], tr'))
  ∧ (∀ files folder_url output_dir tr tr1,
       download_folder E cfg folder_url output_dir tr = (Ret files, tr1) →
       files ≠ [] →
       (∀ f', f' ∈ files → ∀ tr0, ∃ cls tr',
          get_processor lower reg f' = Some cls
          ∧ extract E cfg cls f' tr0 = (Ret [], tr')) →
       ∃ evs,
         summarize_folder lower E cfg reg folder_url output_dir tr
         = (Ret NOTHING_EXTRACTED, tr ++ evs)
         ∧ chats evs = []).
Proof.
  split_and!.
  - intros cls rest d tr tr' Hp Hx.
    by rewrite (extract_all_step f rest d tr (Some []) tr')
      by by apply extract_file_content_empty with cls.
  - intros cls rest d tr e tr' Hp Hx.
    by rewrite (extract_all_step f rest d tr None tr')
      by by apply extract_file_content_raised with cls e.
  - intros tr Hread. unfold extract, text_extract, ENCODINGS. unfold_eff.
    rewrite try_encodings_first_ok with (text := []) by done.
    by rewrite <- app_assoc.
  - intros Hall tr. unfold extract, text_extract. unfold_eff.
    rewrite try_encodings_all_undecodable by done. eauto.
  - intros files folder_url output_dir tr tr1 Hdl Hne Hfiles.
    destruct (extract_all_quiet files [] tr1) as (d & evs & Hex & _).
    destruct (short_circuit_when_nothing_extracted _ _ _ _ _ _ _ Hdl Hne Hex)
      as (evs' & Hrun & _ & Hchats); [|by exists evs'].
    apply nothing_extracted_failed.
    apply (extract_all_failed files) with (d := []) (tr := tr1) (tr' := tr1 ++ evs);
      [|constructor|done].
    intros f' Hin tr0. destruct (Hfiles f' Hin tr0) as (cls & tr' & Hp & Hx).
    exists (Some []), tr'. split; [|done].
    by apply extract_file_content_empty with cls.
Qed.

End WithEnv.

Lemma empty_folder_short_circuit_witness :
  let E := constant_server error_200 in
  let reg := imported_registry ascii_lower in
  summarize_folder ascii_lower E default_config reg (py "https://drive/f") None []
  = (Ret FOLDER_EMPTY, [EvDownload (py "https://drive/f") (py "downloads")]).
Proof.
  intros E reg.
  destruct (empty_folder_short_circuit ascii_lower E default_config reg
              (py "https://drive/f") None []
              [EvDownload (py "https://drive/f") (py "downloads")])
    as (evs & Hrun & -> & _).
  - vm_compute. reflexivity.
  - exact Hrun.
Defined.

Lemma all_failed_short_circuit_witness :
  let files :=
    [ ([py "downloads"; py "a.txt"], Raise (Exn OSError (py "Permission denied")));
      ([py "downloads"; py "b.docx"], Ret (py "never read"));
      ([py "downloads"; py "c.pdf"], Ret (py "not a pdf")) ] in
  let E := folder_env files (reply_200 (py "summary")) in
  let reg := imported_registry ascii_lower in
  ∃ evs,
    summarize_folder ascii_lower E default_config reg (py "https://drive/f") None []
    = (Ret NOTHING_EXTRACTED, evs)
    ∧ chats evs = [].
Proof.
  intros files E reg.
  destruct (all_failed_short_circuit ascii_lower E default_config reg
              (py "https://drive/f") None [] files.*1
              [EvDownload (py "https://drive/f") (py "downloads")]
              [ (py "a.txt", EXTRACTION_FAILED); (py "b.docx", EXTRACTION_FAILED);
                (py "c.pdf", EXTRACTION_FAILED) ]
              (extract_all ascii_lower E default_config reg files.*1 []
                 [EvDownload (py "https://drive/f") (py "downloads")]).2)
    as (evs & Hrun & _ & Hchats).
  - vm_compute. reflexivity.
  - discriminate.
  - vm_compute. reflexivity.
  - repeat constructor.
  - exists ([] ++ evs). split; [exact Hrun|exact Hchats].
Defined.

Lemma empty_extraction_recorded_as_failure_witness :
  let a := [py "downloads"; py "a.txt"] in
  let b := [py "downloads"; py "b.txt"] in
  let c := [py "downloads"; py "c.txt"] in
  let undecodable := Raise (Exn UnicodeDecodeError (py "invalid start byte")) in
  let E := folder_env
             [ (a, Ret []); (b, undecodable);
               (c, Raise (Exn OSError (py "Permission denied"))) ]
             (reply_200 (py "summary")) in
  let E' := folder_env [ (a, Ret []); (b, Ret []) ] (reply_200 (py "summary")) in
  let reg := imported_registry ascii_lower in
  let cfg := default_config in
  (* an empty file and a file that cannot be read are recorded alike *)
  extract_all ascii_lower E cfg reg [a; b] [] []
  = extract_all ascii_lower E cfg reg [b] [(py "a.txt", EXTRACTION_FAILED)]
      [EvExtract TextProcessor a; EvReadText a (py "utf-8")]
  ∧ extract_all ascii_lower E cfg reg [c; b] [] []
    = extract_all ascii_lower E cfg reg [b] [(py "c.txt", EXTRACTION_FAILED)]
        [EvExtract TextProcessor c; EvReadText c (py "utf-8")]
  ∧ extract E cfg TextProcessor a []
    = (Ret [], [EvExtract TextProcessor a; EvReadText a (py "utf-8")])
  ∧ (∃ tr', extract E cfg TextProcessor b [] = (Ret [], tr'))
  ∧ (∃ evs,
       summarize_folder ascii_lower E' cfg reg (py "https://drive/f") None []
       = (Ret NOTHING_EXTRACTED, evs)
       ∧ chats evs = []).
Proof.
  intros a b c undecodable E E' reg cfg.
  destruct (empty_extraction_recorded_as_failure ascii_lower E cfg reg a)
    as (Hempty & _ & Htext & _ & _).
  destruct (empty_extraction_recorded_as_failure ascii_lower E cfg reg c)
    as (_ & Hraised & _ & _ & _).
  destruct (empty_extraction_recorded_as_failure ascii_lower E cfg reg b)
    as (_ & _ & _ & Hundec & _).
  destruct (empty_extraction_recorded_as_failure ascii_lower E' cfg reg a)
    as (_ & _ & Htext_a & _ & Hfolder).
  destruct (empty_extraction_recorded_as_failure ascii_lower E' cfg reg b)
    as (_ & _ & Htext_b & _ & _).
  split_and!.
  - apply (Hempty TextProcessor [b] [] []); vm_compute; reflexivity.
  - apply (Hraised TextProcessor [b] [] []
             (Exn OSError (py "Permission denied"))); vm_compute; reflexivity.
  - apply (Htext []). vm_compute. reflexivity.
  - apply Hundec. intros tr0 enc. exists (py "invalid start byte").
    vm_compute. reflexivity.
  - destruct (Hfolder [a; b] (py "https://drive/f") None []
                [EvDownload (py "https://drive/f") (py "downloads")])
      as (evs & Hrun & Hchats).
    + vm_compute. reflexivity.
    + discriminate.
    + intros f' Hin tr0. exists TextProcessor.
      apply elem_of_cons in Hin as [->|Hin];
        [|apply list_elem_of_singleton in Hin as ->].
      * eexists. split; [vm_compute; reflexivity|].
        apply Htext_a. vm_compute. reflexivity.
      * eexists. split; [vm_compute; reflexivity|].
        apply Htext_b. vm_compute. reflexivity.
    + exists ([] ++ evs). split; [exact Hrun|exact Hchats].
Defined.

End SummarizerFacts.

(** ** The orchestrator: the per-file dictionary and the prompt *)

Module PromptFacts.
Import RetryFacts TraceFacts SummarizerFacts.












Lemma join_infix sep (parts : list pystr) i p :
  parts !! i = Some p → ∃ before after, join sep parts = before ++ p ++ after.
Proof.
  revert i. induction parts as [|q parts IH]; intros i Hi; [done|].
  destruct i as [|i]; simpl in Hi.
  - injection Hi as ->. exists []. destruct parts; simpl.
    + exists []. by rewrite app_nil_r.
    + by eexists.
  - destruct (IH i Hi) as (before & after & Heq).
    destruct parts as [|q' parts]; [done|].
    cbn [join]. cbn [join] in Heq. rewrite Heq.
    exists (q ++ sep ++ before), after. by rewrite <- !app_assoc.
Qed.

Lemma truncate_long content :
  (CAP < length content)%nat →
  truncate content = take CAP content ++ TRUNCATION_MARKER
  ∧ length (take CAP content) = CAP.
Proof.
  intros Hlong. unfold truncate, slice_to.
  apply Nat.ltb_lt in Hlong as Hb. rewrite Hb. split; [done|].
  rewrite length_take. lia.
Qed.

Lemma truncate_short content :
  (length content ≤ CAP)%nat → truncate content = content.
Proof.
  intros Hshort. unfold truncate, slice_to.
  apply Nat.ltb_ge in Hshort as Hb. rewrite Hb. by apply take_ge.
Qed.

(** C7. The section of a file in the prompt is the header, the name, a
    blank line and a body: for content of more than 12000 characters the
    body is the first 12000 characters followed by the truncation marker,
    otherwise it is the content unchanged. *)
Theorem section_truncated_at_cap (per_file : pydict) (i : nat)
    (name content : pystr) :
  per_file !! i = Some (name, content) →
  ∃ body,
    build_parts per_file !! i = Some (SECTION_HEADER ++ name ++ nl ++ nl ++ body)
    ∧ (∃ before after,
         combined_prompt per_file
         = before ++ (SECTION_HEADER ++ name ++ nl ++ nl ++ body) ++ after)
    ∧ Z.of_nat CAP = 12000
    ∧ ((CAP < length content)%nat →
       body = take CAP content ++ TRUNCATION_MARKER
       ∧ length (take CAP content) = CAP)
    ∧ ((length content ≤ CAP)%nat → body = content).
Proof.
  intros Hi. exists (truncate content).
  assert (Hpart : build_parts per_file !! i
                  = Some (SECTION_HEADER ++ name ++ nl ++ nl ++ truncate content)).
  { unfold build_parts.
    change (map file_section per_file) with (file_section <$> per_file).
    unfold pydict in *. by rewrite list_lookup_fmap, Hi. }
  split_and!.
  - exact Hpart.
  - destruct (join_infix DELIMITER _ _ _ Hpart) as (before & after & Heq).
    exists (PROMPT_INTRO ++ before), after.
    unfold combined_prompt. rewrite Heq. by rewrite <- !app_assoc.
  - unfold CAP. lia.
  - apply truncate_long.
  - apply truncate_short.
Qed.

Lemma section_truncated_at_cap_witness :
  let long := replicate (Z.to_nat 12001) 97%N in
  let per_file := [(py "a.txt", py "hello"); (py "b.txt", long)] in
  (∃ body,
     build_parts per_file !! 1%nat
     = Some (SECTION_HEADER ++ py "b.txt" ++ nl ++ nl ++ body)
     ∧ body = replicate (Z.to_nat 12000) 97%N ++ TRUNCATION_MARKER)
  ∧ (∃ body,
       build_parts per_file !! 0%nat
       = Some (SECTION_HEADER ++ py "a.txt" ++ nl ++ nl ++ body)
       ∧ body = py "hello").
Proof.
  intros long per_file. split.
  - destruct (section_truncated_at_cap per_file 1 (py "b.txt") long eq_refl)
      as (body & Hpart & _ & _ & Hlong & _).
    exists body. split; [exact Hpart|].
    destruct Hlong as [-> _]; [vm_compute; lia|]. vm_compute. reflexivity.
  - destruct (section_truncated_at_cap per_file 0 (py "a.txt") (py "hello") eq_refl)
      as (body & Hpart & _ & _ & _ & Hshort).
    exists body. split; [exact Hpart|].
    apply Hshort. vm_compute. lia.
Defined.

Section WithEnv.

Context (lower : pystr → pystr) (E : env) (cfg : config).
Context (reg : gmap pystr processor_cls).



End WithEnv.

Example summarize_folder_duplicate_names :
  let x1 := [py "downloads"; py "a"; py "x.txt"] in
  let x2 := [py "downloads"; py "z"; py "x.txt"] in
  let c := [py "downloads"; py "b"; py "c.txt"] in
  let E := folder_env [ (c, Ret (py "third")); (x2, Ret (py "second"));
                        (x1, Ret (py "first")) ] (reply_200 (py "summary")) in
  let run := summarize_folder ascii_lower E default_config
               (imported_registry ascii_lower) (py "https://drive/f") None [] in
  run.1 = Ret (py "summary")
  ∧ extractions run.2
    = [(TextProcessor, x1); (TextProcessor, c); (TextProcessor, x2)]
  ∧ chats run.2
    = [ (PROMPT_INTRO
         ++ SECTION_HEADER ++ py "x.txt" ++ nl ++ nl ++ py "second"
         ++ DELIMITER
         ++ SECTION_HEADER ++ py "c.txt" ++ nl ++ nl ++ py "third",
         _SYSTEM_PROMPT) ].
Proof. vm_compute. repeat split; reflexivity. Qed.

End PromptFacts.

(* ===================================================================== *)
(** * Further properties *)
(* ===================================================================== *)

(** ** The retry loop, case by case *)

Module RetryMore.
Import RetryFacts TraceFacts.

Section WithEnv.

Context (E : env) (cfg : config).

(** The loop as written and the case-by-case reading agree. *)
Lemma attempts_loop_unfold p a rest last tr :
  attempts_loop E cfg p (a :: rest) last tr
  = match loop_body E cfg p a tr with
    | (Done o, evs) => (o, tr ++ evs)
    | (Continue r, evs) => attempts_loop E cfg p rest (Some r) (tr ++ evs)
    end.
Proof.
  cbn [attempts_loop]. unfold loop_body, post. unfold_eff.
  destruct (http_post E tr p) as [msg|r]; [done|].
  destruct (status_code r =? 200) eqn:H200.
  - apply Z.eqb_eq in H200. unfold on_status_200, resp_json, json_of.
    unfold_eff.
    destruct (json r) as [data|]; [|done].
    destruct (reply_of data) as [content|e]; [|done].
    destruct (jtruthy content); [by destruct (as_str content)|].
    destruct (error_msg_of data) as [error_msg|e]; [|done].
    rewrite bool_decide_eq_false_2
      by (rewrite H200, !elem_of_cons, elem_of_nil; lia).
    rewrite H200. change (200 =? 403) with false. cbv iota.
    unfold raise_for_status. rewrite H200. simpl.
    destruct (jtruthy error_msg); unfold_eff;
      by rewrite <- ?app_assoc.
  - destruct (bool_decide (status_code r ∈ [429; 402; 503])).
    + unfold sleep. unfold_eff. rewrite <- !app_assoc. simpl.
      by destruct (time_sleep E _ _).
    + destruct (status_code r =? 403); [done|].
      unfold raise_for_status. unfold_eff.
      destruct (_ && _); [done|]. by destruct (_ && _).
Qed.

(** Every pass sends the payload once, sleeps at most once and then for
    [wait_for attempt], and does nothing else to the outside world. *)
Lemma loop_body_events p a tr :
  posts (loop_body E cfg p a tr).2 = [p]
  ∧ (sleeps (loop_body E cfg p a tr).2 = []
     ∨ sleeps (loop_body E cfg p a tr).2 = [wait_for cfg a])
  ∧ Forall no_chat (loop_body E cfg p a tr).2
  ∧ extractions (loop_body E cfg p a tr).2 = [].
Proof.
  unfold loop_body. destruct (http_post E tr p) as [msg|r].
  { split_and!; [done|by left|by repeat constructor|done]. }
  destruct (status_code r =? 200).
  { destruct (json r) as [data|];
      [|split_and!; [done|by left|by repeat constructor|done]].
    destruct (reply_of data) as [content|e];
      [|split_and!; [done|by left|by repeat constructor|done]].
    destruct (jtruthy content).
    { destruct (as_str content);
        (split_and!; [done|by left|by repeat constructor|done]). }
    destruct (error_msg_of data) as [error_msg|e];
      [|split_and!; [done|by left|by repeat constructor|done]].
    destruct (jtruthy error_msg);
      (split_and!; [done|by left|by repeat constructor|done]). }
  destruct (bool_decide _).
  { destruct (time_sleep E _ _);
      (split_and!; [done|by right|by repeat constructor|done]). }
  destruct (status_code r =? 403).
  { split_and!; [done|by left|by repeat constructor|done]. }
  destruct (raise_for_status cfg r []) as [[?|?] ?];
    (split_and!; [done|by left|by repeat constructor|done]).
Qed.

Lemma attempts_loop_retried p pre rest last tr tr1 last1 :
  retried E cfg p pre tr last tr1 last1 →
  attempts_loop E cfg p (pre ++ rest) last tr
  = attempts_loop E cfg p rest last1 tr1.
Proof.
  induction 1 as [|a pre tr last r evs tr' last' Hbody _ IH]; [done|].
  simpl app. by rewrite attempts_loop_unfold, Hbody.
Qed.

Lemma attempts_loop_bounded p attempts last tr :
  ∃ evs k,
    (attempts_loop E cfg p attempts last tr).2 = tr ++ evs
    ∧ posts evs = replicate k p
    ∧ (k ≤ length attempts)%nat
    ∧ (length (sleeps evs) ≤ k)%nat
    ∧ Forall (fun w => ∃ n, n ∈ attempts ∧ w = wait_for cfg n) (sleeps evs)
    ∧ Forall no_chat evs
    ∧ extractions evs = [].
Proof.
  revert last tr. induction attempts as [|a rest IH]; intros last tr.
  { exists [], 0%nat. rewrite app_nil_r. split_and!; try done; constructor. }
  rewrite attempts_loop_unfold.
  destruct (loop_body_events p a tr) as (Hp & Hs & Hc & Hx).
  assert (Hwaits :
    Forall (fun w => ∃ n, n ∈ a :: rest ∧ w = wait_for cfg n)
      (sleeps (loop_body E cfg p a tr).2)).
  { destruct Hs as [-> | ->]; repeat constructor.
    exists a. split; [apply list_elem_of_here|done]. }
  assert (Hlen : (length (sleeps (loop_body E cfg p a tr).2) ≤ 1)%nat).
  { destruct Hs as [-> | ->]; simpl; lia. }
  destruct (loop_body E cfg p a tr) as [[o|r] evs1]; simpl in *.
  - exists evs1, 1%nat. split_and!; try done. simpl. lia.
  - destruct (IH (Some r) (tr ++ evs1))
      as (evs & k & -> & Hp' & Hk & Hs' & Hw' & Hc' & Hx').
    exists (evs1 ++ evs), (S k). split_and!.
    + by rewrite app_assoc.
    + by rewrite posts_app, Hp, Hp'.
    + lia.
    + rewrite sleeps_app, length_app. lia.
    + rewrite sleeps_app. apply Forall_app. split; [done|].
      eapply Forall_impl; [exact Hw'|]. intros w (n & Hn & ->).
      exists n. split; [by apply list_elem_of_further|done].
    + by apply Forall_app.
    + by rewrite extractions_app, Hx, Hx'.
Qed.

(** X1. Whatever the server and the clock do, [_request_with_retry] sends
    the payload it was given and nothing else, at most [MAX_RETRIES] times
    (never when that is not positive); it sleeps at most once per request,
    each time for [RETRY_DELAY * n] with [n] one of the attempt numbers;
    and it neither calls [chat] nor an extractor. *)
Theorem request_with_retry_bounded (p : payload) (tr : trace) :
  ∃ evs k,
    (_request_with_retry E cfg p tr).2 = tr ++ evs
    ∧ posts evs = replicate k p
    ∧ (k ≤ Z.to_nat (MAX_RETRIES cfg))%nat
    ∧ (length (sleeps evs) ≤ k)%nat
    ∧ Forall (fun w => ∃ n, 1 ≤ n ≤ MAX_RETRIES cfg
                            ∧ w = fmul (RETRY_DELAY cfg) (of_int n))
             (sleeps evs)
    ∧ chats evs = [] ∧ extractions evs = [].
Proof.
  unfold _request_with_retry.
  destruct (attempts_loop_bounded p (seqZ 1 (MAX_RETRIES cfg)) None tr)
    as (evs & k & Heq & Hp & Hk & Hs & Hw & Hc & Hx).
  exists evs, k. rewrite length_seqZ in Hk. split_and!; try done.
  - eapply Forall_impl; [exact Hw|]. intros w (n & Hn & ->).
    exists n. apply elem_of_seqZ in Hn. split; [lia|done].
  - by apply no_chat_chats.
Qed.

(** The reply expression and the reply it reads. *)
Lemma reply_content_reply_of data reply :
  reply_content data = Some reply → reply_of data = Ret (JStr reply).
Proof.
  unfold reply_content, reply_of, py_get, and_then.
  destruct data as [| | | | | |fields]; try done.
  destruct (lookup_key (py "choices") fields)
    as [[| | | | |[|[| | | | | |first] rest]|]|]; try done.
  cbn [jtruthy py_first].
  destruct (lookup_key (py "message") first)
    as [[| | | | | |message]|]; try done.
  destruct (lookup_key (py "content") message) as [[| | | |s| |]|]; try done.
  by intros [= ->].
Qed.

Lemma reply_of_str data content reply :
  reply_of data = Ret content → jtruthy content = true →
  as_str content = Ret reply →
  reply_content data = Some reply ∧ reply ≠ [].
Proof.
  intros Hr Ht Has.
  assert (content = JStr reply) as ->.
  { destruct content; try discriminate Has. by injection Has as ->. }
  split; [|by destruct reply].
  revert Hr. unfold reply_content, reply_of, py_get, and_then.
  destruct data as [| | | | | |fields]; try done.
  destruct (lookup_key (py "choices") fields) as [choices|]; [|done].
  destruct (jtruthy choices) eqn:Hc.
  2:{ intros [= ->]. simpl in Hc, Ht. congruence. }
  destruct choices as [| | | |[|c s]|[|first rest]|]; try done.
  cbn [py_first].
  destruct first as [| | | | | |first]; try done.
  destruct (lookup_key (py "message") first)
    as [[| | | | | |message]|]; try done.
  destruct (lookup_key (py "content") message) as [content|]; [|done].
  by intros [= ->].
Qed.

(** A pass that returns does so on a 200 with a non-empty reply. *)
Lemma loop_body_returns p a tr reply evs :
  loop_body E cfg p a tr = (Done (Ret reply), evs) →
  evs = [EvPost p]
  ∧ ∃ r data, http_post E tr p = PostResp r ∧ status_code r = 200
              ∧ json r = Some data ∧ reply_content data = Some reply
              ∧ reply ≠ [].
Proof.
  unfold loop_body. destruct (http_post E tr p) as [msg|r]; [done|].
  destruct (status_code r =? 200) eqn:H200.
  - apply Z.eqb_eq in H200. destruct (json r) as [data|] eqn:Hj; [|done].
    destruct (reply_of data) as [content|e] eqn:Hr; [|done].
    destruct (jtruthy content) eqn:Ht.
    + destruct (as_str content) as [reply'|e] eqn:Has; [|done].
      intros [= <- <-]. split; [done|]. exists r, data.
      destruct (reply_of_str data content reply' Hr Ht Has). by split_and!.
    + by destruct (error_msg_of data).
  - destruct (bool_decide _); [by destruct (time_sleep E _ _)|].
    destruct (_ =? 403); [done|].
    by destruct (raise_for_status cfg r []) as [[[]|?] ?].
Qed.

Lemma attempts_loop_returns p attempts last tr reply tr' :
  attempts_loop E cfg p attempts last tr = (Ret reply, tr') →
  reply ≠ []
  ∧ ∃ tr0 r data, tr' = tr0 ++ [EvPost p]
      ∧ http_post E tr0 p = PostResp r ∧ status_code r = 200
      ∧ json r = Some data ∧ reply_content data = Some reply.
Proof.
  revert last tr. induction attempts as [|a rest IH]; intros last tr; [done|].
  rewrite attempts_loop_unfold.
  destruct (loop_body E cfg p a tr) as [[o|r] evs] eqn:Hbody.
  - intros [= -> <-].
    apply loop_body_returns in Hbody as (-> & r & data & ? & ? & ? & ? & ?).
    split; [done|]. by exists tr, r, data.
  - apply IH.
Qed.

Lemma try_models_returns msgs models last tr reply tr' :
  try_models E cfg msgs models last tr = (Ret reply, tr') → reply ≠ [].
Proof.
  revert last tr. induction models as [|m rest IH]; intros last tr; [done|].
  cbn [try_models].
  destruct (_request_with_retry E cfg _ tr) as [[reply'|exc] tr1] eqn:Hreq.
  - intros [= -> <-]. by apply attempts_loop_returns in Hreq as [? _].
  - unfold_eff.
    destruct (isinstance exc ContentBlockedError); [apply IH|].
    destruct (isinstance exc RuntimeError); [apply IH|done].
Qed.

(** X2. A reply that [_request_with_retry] returns is never the empty
    string, and it is the content of a 200 response to the last request of
    the call. So neither [chat] nor [describe_image] ever returns an empty
    string. *)
Theorem returned_reply_not_empty :
  (∀ p tr reply tr',
     _request_with_retry E cfg p tr = (Ret reply, tr') →
     reply ≠ []
     ∧ ∃ tr0 r data, tr' = tr0 ++ [EvPost p]
         ∧ http_post E tr0 p = PostResp r ∧ status_code r = 200
         ∧ json r = Some data ∧ reply_content data = Some reply)
  ∧ (∀ prompt system tr reply tr',
       chat E cfg prompt system tr = (Ret reply, tr') → reply ≠ [])
  ∧ (∀ data_url prompt tr reply tr',
       describe_image E cfg data_url prompt tr = (Ret reply, tr') →
       reply ≠ []).
Proof.
  split_and!.
  - intros p tr reply tr'. apply attempts_loop_returns.
  - intros prompt system tr reply tr'. unfold chat. unfold_eff.
    intros H. by apply attempts_loop_returns in H as [? _].
  - intros data_url prompt tr reply tr'. apply try_models_returns.
Qed.

End WithEnv.

Lemma returned_reply_not_empty_witness :
  let E := scripted_server [PostResp rate_limited_429;
                            PostResp (reply_200 (py "a cat"))]
             (PostResp blocked_403) in
  let cfg := default_config in
  (∃ tr0 r data,
     http_post E tr0 (user_payload (py "M0")) = PostResp r
     ∧ status_code r = 200 ∧ json r = Some data
     ∧ reply_content data = Some (py "a cat"))
  ∧ py "a cat" ≠ [] ∧ py "a cat" ≠ [].
Proof.
  intros E cfg.
  destruct (returned_reply_not_empty E cfg) as (Hreq & Hchat & Hvision).
  split_and!.
  - destruct (Hreq (user_payload (py "M0")) [] (py "a cat")
                (_request_with_retry E cfg (user_payload (py "M0")) []).2)
      as (_ & tr0 & r & data & _ & H).
    { vm_compute. reflexivity. }
    by exists tr0, r, data.
  - apply (Hchat (py "hello") [] [] (py "a cat")
             (chat E cfg (py "hello") [] []).2).
    vm_compute. reflexivity.
  - apply (Hvision (py "data:image/png;base64,AAAA") default_prompt []
             (py "a cat")
             (describe_image E cfg (py "data:image/png;base64,AAAA")
                default_prompt []).2).
    vm_compute. reflexivity.
Defined.

Section Decisive.

Context (E : env) (cfg : config).

Lemma request_after_retried p tr pre a post tr1 last :
  seqZ 1 (MAX_RETRIES cfg) = pre ++ a :: post →
  retried E cfg p pre tr None tr1 last →
  _request_with_retry E cfg p tr
  = match loop_body E cfg p a tr1 with
    | (Done o, evs) => (o, tr1 ++ evs)
    | (Continue r, evs) => attempts_loop E cfg p post (Some r) (tr1 ++ evs)
    end.
Proof.
  intros Hseq Hpre. unfold _request_with_retry. rewrite Hseq.
  rewrite (attempts_loop_retried E cfg p pre (a :: post) None tr tr1 last Hpre).
  apply attempts_loop_unfold.
Qed.

Lemma not_transient s :
  s ∉ [429; 402; 503; 403] → bool_decide (s ∈ [429; 402; 503]) = false.
Proof.
  intros H. apply bool_decide_eq_false_2. intros Hin. apply H.
  rewrite !elem_of_cons in *. tauto.
Qed.

(** X3. A 403 at any attempt, after any number of attempts that were
    retried, ends [_request_with_retry] at once with a
    [ContentBlockedError]: that request is the last thing done. The message
    names the model and then shows what the client read as the error. For
    a body that is a JSON object this is the [message] of its [error]
    object, as [str] shows it, and the empty string when [error] or
    [message] is not there. Whenever reading fails it is the first 300
    characters of the body: when the body is no JSON, or is JSON but no
    object, or has an [error] that is no object. *)
Theorem blocked_ends_request p tr pre a post tr1 last r :
  seqZ 1 (MAX_RETRIES cfg) = pre ++ a :: post →
  retried E cfg p pre tr None tr1 last →
  http_post E tr1 p = PostResp r → status_code r = 403 →
  _request_with_retry E cfg p tr
  = (Raise (Exn ContentBlockedError
              (py "Model " ++ model p ++ py " returned 403: "
               ++ error_body E r)),
     tr1 ++ [EvPost p])
  ∧ (json r = None → error_body E r = take 300 (text r))
  ∧ (∀ data, json r = Some data → (∀ fields, data ≠ JObj fields) →
             error_body E r = take 300 (text r))
  ∧ (∀ fields, json r = Some (JObj fields) →
       error_body E r
       = match lookup_key (py "error") fields with
         | None => []
         | Some (JObj inner) =>
             match lookup_key (py "message") inner with
             | None => []
             | Some v => py_str E v
             end
         | Some _ => take 300 (text r)
         end)
  ∧ (∀ msg, py_str E (JStr msg) = msg)
  ∧ py_str E JNull = py "None".
Proof.
  intros Hseq Hpre Hpost Hs. split_and!.
  - rewrite (request_after_retried p tr pre a post tr1 last Hseq Hpre).
    unfold loop_body. rewrite Hpost, Hs. done.
  - intros Hj. unfold error_body, json_of. by rewrite Hj.
  - intros data Hj Hshape. unfold error_body, json_of. rewrite Hj.
    unfold error_msg_of, py_get, and_then.
    destruct data as [| | | | | |fields]; try done. by destruct (Hshape fields).
  - intros fields Hj. unfold error_body, json_of. rewrite Hj.
    unfold error_msg_of, py_get, and_then.
    destruct (lookup_key (py "error") fields) as [[| | | | | |inner]|];
      try done.
    by destruct (lookup_key (py "message") inner).
  - done.
  - done.
Qed.

(** X4. A status from 400 to 599 other than 429, 402, 503 and 403 is
    raised at once as an [HTTPError] that names the status and the reason:
    no sleep, no further attempt. *)
Theorem unexpected_status_raised_at_once p tr pre a post tr1 last r :
  seqZ 1 (MAX_RETRIES cfg) = pre ++ a :: post →
  retried E cfg p pre tr None tr1 last →
  http_post E tr1 p = PostResp r → unexpected_status (status_code r) →
  _request_with_retry E cfg p tr
  = (Raise (Exn HTTPError (http_error_msg cfg r)), tr1 ++ [EvPost p]).
Proof.
  intros Hseq Hpre Hpost [Hrange Hnot].
  rewrite (request_after_retried p tr pre a post tr1 last Hseq Hpre).
  unfold loop_body. rewrite Hpost. cbv zeta.
  rewrite (proj2 (Z.eqb_neq _ 200)) by lia.
  rewrite not_transient by done.
  rewrite (proj2 (Z.eqb_neq _ 403))
    by (intros H403; apply Hnot; rewrite H403, !elem_of_cons; tauto).
  unfold raise_for_status, http_error_msg. unfold_eff.
  destruct (Z.ltb_spec (status_code r) 500).
  - rewrite (proj2 (Z.leb_le 400 _)) by lia. done.
  - rewrite (proj2 (Z.leb_le 400 _)) by lia. simpl.
    rewrite (proj2 (Z.leb_le 500 _)), (proj2 (Z.ltb_lt _ 600)) by lia. done.
Qed.

(** X5. A 200 with a non-empty reply is returned at whatever attempt it
    comes, after any number of attempts that were retried, and that
    request is the last thing done. *)
Theorem reply_returned_at_any_attempt p tr pre a post tr1 last r data reply :
  seqZ 1 (MAX_RETRIES cfg) = pre ++ a :: post →
  retried E cfg p pre tr None tr1 last →
  http_post E tr1 p = PostResp r → status_code r = 200 →
  json r = Some data → reply_content data = Some reply → reply ≠ [] →
  _request_with_retry E cfg p tr = (Ret reply, tr1 ++ [EvPost p]).
Proof.
  intros Hseq Hpre Hpost Hs Hj Hr Hne.
  rewrite (request_after_retried p tr pre a post tr1 last Hseq Hpre).
  unfold loop_body. rewrite Hpost, Hs, Hj. cbv zeta.
  change (200 =? 200) with true. cbv iota.
  rewrite (reply_content_reply_of data reply Hr).
  by destruct reply.
Qed.

Lemma attempts_loop_silent p :
  (∀ tr0, ∃ r, http_post E tr0 p = PostResp r
               ∧ passes_silently (status_code r)) →
  ∀ attempts last tr, ∃ last',
    attempts_loop E cfg p attempts last tr
    = (Raise (Exn RuntimeError (exhausted_msg cfg last')),
       tr ++ replicate (length attempts) (EvPost p)).
Proof.
  intros Hall attempts. induction attempts as [|a rest IH]; intros last tr.
  - exists last. simpl. by rewrite app_nil_r.
  - rewrite attempts_loop_unfold. unfold loop_body.
    destruct (Hall tr) as (r & -> & Hne & Hrange). cbv zeta.
    rewrite (proj2 (Z.eqb_neq _ 200)) by done.
    rewrite not_transient by (rewrite !elem_of_cons, elem_of_nil; lia).
    rewrite (proj2 (Z.eqb_neq _ 403)) by lia.
    unfold raise_for_status. unfold_eff.
    assert ((400 <=? status_code r) && (status_code r <? 500) = false) as ->.
    { apply andb_false_iff. destruct Hrange.
      - left. apply Z.leb_gt. lia.
      - right. apply Z.ltb_ge. lia. }
    assert ((500 <=? status_code r) && (status_code r <? 600) = false) as ->.
    { apply andb_false_iff. destruct Hrange.
      - left. apply Z.leb_gt. lia.
      - right. apply Z.ltb_ge. lia. }
    destruct (IH (Some r) (tr ++ [EvPost p])) as (last' & ->).
    exists last'. by rewrite <- app_assoc.
Qed.

(** X6. A status below 400 other than 200, or from 600 up, is neither an
    error nor a success for the client: the attempt is used up without a
    sleep or a warning. When every response is of that kind, the call
    sends [MAX_RETRIES] requests back to back, does nothing else, and
    raises the retries-exhausted error. *)
Theorem silent_statuses_use_up_attempts p :
  (∀ tr0, ∃ r, http_post E tr0 p = PostResp r
               ∧ passes_silently (status_code r)) →
  ∀ tr, ∃ last,
    _request_with_retry E cfg p tr
    = (Raise (Exn RuntimeError (exhausted_msg cfg last)),
       tr ++ replicate (Z.to_nat (MAX_RETRIES cfg)) (EvPost p)).
Proof.
  intros Hall tr. unfold _request_with_retry.
  destruct (attempts_loop_silent p Hall (seqZ 1 (MAX_RETRIES cfg)) None tr)
    as (last & ->).
  exists last. by rewrite length_seqZ.
Qed.

Lemma exhausted_msg_unknown last :
  (last = None ∨ ∃ r, last = Some r ∧ 400 ≤ status_code r < 600) →
  exhausted_msg cfg last = exhausted_unknown cfg.
Proof.
  unfold exhausted_msg, exhausted_unknown, resp_ok.
  intros [->|(r & -> & Hr)].
  - do 2 apply (f_equal (app _)). vm_compute. reflexivity.
  - rewrite (proj2 (Z.leb_le 400 _)), (proj2 (Z.ltb_lt _ 600)) by lia.
    cbn [andb negb]. do 2 apply (f_equal (app _)). vm_compute. reflexivity.
Qed.

Lemma attempts_loop_transient_unknown p attempts :
  (∀ tr0, ∃ r, http_post E tr0 p = PostResp r
               ∧ status_code r ∈ [429; 402; 503]) →
  (∀ tr0 n, n ∈ attempts → time_sleep E tr0 (wait_for cfg n) = Ret tt) →
  ∀ last tr,
    (last = None ∨ ∃ r, last = Some r ∧ 400 ≤ status_code r < 600) →
    (attempts_loop E cfg p attempts last tr).1
    = Raise (Exn RuntimeError (exhausted_unknown cfg)).
Proof.
  intros Hall. induction attempts as [|a rest IH]; intros Hsleep last tr Hlast.
  - simpl. unfold raise. simpl. by rewrite exhausted_msg_unknown.
  - rewrite attempts_loop_unfold. unfold loop_body.
    destruct (Hall tr) as (r & -> & Hs). cbv zeta.
    rewrite (proj2 (Z.eqb_neq _ 200))
      by (rewrite !elem_of_cons, elem_of_nil in Hs; lia).
    rewrite bool_decide_eq_true_2 by done.
    rewrite Hsleep by apply list_elem_of_here.
    apply IH.
    + intros tr0 n Hn. apply Hsleep. by apply list_elem_of_further.
    + right. exists r. split; [done|].
      rewrite !elem_of_cons, elem_of_nil in Hs. lia.
Qed.

(** X7. When the attempts run out on 429, 402 or 503 responses, the
    retries-exhausted error names neither the last status nor the last
    body: a response with an error status counts as false in
    [last_resp if last_resp else ...], so the message ends in
    [Last status: ?, body: N/A]. *)
Theorem exhausted_error_hides_error_status p :
  (∀ tr0, ∃ r, http_post E tr0 p = PostResp r
               ∧ status_code r ∈ [429; 402; 503]) →
  (∀ tr0 n, 1 ≤ n ≤ MAX_RETRIES cfg →
            time_sleep E tr0 (fmul (RETRY_DELAY cfg) (of_int n)) = Ret tt) →
  ∀ tr,
    (_request_with_retry E cfg p tr).1
    = Raise (Exn RuntimeError (exhausted_unknown cfg)).
Proof.
  intros Hall Hsleep tr. unfold _request_with_retry.
  apply attempts_loop_transient_unknown; [done| |by left].
  intros tr0 n Hn. apply Hsleep. apply elem_of_seqZ in Hn. lia.
Qed.

Lemma request_no_budget p tr :
  MAX_RETRIES cfg ≤ 0 →
  _request_with_retry E cfg p tr
  = (Raise (Exn RuntimeError (exhausted_unknown cfg)), tr).
Proof.
  intros Hmax. unfold _request_with_retry. rewrite seqZ_nil by done.
  simpl. unfold raise. by rewrite exhausted_msg_unknown by by left.
Qed.

Lemma try_models_no_budget msgs models last tr :
  MAX_RETRIES cfg ≤ 0 →
  ∃ evs last',
    try_models E cfg msgs models last tr
    = try_models E cfg msgs [] last' (tr ++ evs)
    ∧ posts evs = [] ∧ sleeps evs = []
    ∧ (models = [] → last' = last)
    ∧ (models ≠ [] →
       last' = Some (Exn RuntimeError (exhausted_unknown cfg))).
Proof.
  intros Hmax. revert last tr.
  induction models as [|m rest IH]; intros last tr.
  - exists [], last. by rewrite app_nil_r.
  - cbn [try_models]. rewrite request_no_budget by done.
    cbn [isinstance exn_class_of]. unfold_eff.
    destruct (IH (Some (Exn RuntimeError (exhausted_unknown cfg)))
                (tr ++ [EvLog (WarnExhausted m
                                 (Exn RuntimeError (exhausted_unknown cfg)))]))
      as (evs & last' & Heq & Hp & Hs & Hnil & Hcons).
    exists (EvLog (WarnExhausted m (Exn RuntimeError (exhausted_unknown cfg)))
            :: evs), last'.
    split_and!.
    + rewrite Heq. by rewrite <- app_assoc.
    + done.
    + done.
    + done.
    + intros _. destruct rest; [by apply Hnil|by apply Hcons].
Qed.

(** X8. With [MAX_RETRIES] at zero or below the loop body never runs:
    [_request_with_retry] raises the retries-exhausted error without
    sending anything, so [chat] fails before any request and
    [describe_image] walks the whole candidate list without a single
    request and fails with the aggregate error. *)
Theorem no_request_without_budget :
  MAX_RETRIES cfg ≤ 0 →
  (∀ p tr,
     _request_with_retry E cfg p tr
     = (Raise (Exn RuntimeError (exhausted_unknown cfg)), tr))
  ∧ (∀ prompt system tr,
       chat E cfg prompt system tr
       = (Raise (Exn RuntimeError (exhausted_unknown cfg)),
          tr ++ [EvChat prompt system]))
  ∧ (∀ data_url prompt tr, ∃ evs,
       describe_image E cfg data_url prompt tr
       = (Raise (Exn RuntimeError (ALL_FAILED ++ exhausted_unknown cfg)),
          tr ++ evs)
       ∧ posts evs = [] ∧ sleeps evs = []).
Proof.
  intros Hmax. split_and!.
  - intros p tr. by apply request_no_budget.
  - intros prompt system tr. unfold chat. unfold_eff.
    by rewrite request_no_budget.
  - intros data_url prompt tr. unfold describe_image.
    destruct (try_models_no_budget (vision_messages data_url prompt)
                (models_to_try (VISION_MODEL cfg) (VISION_FALLBACK_MODELS cfg))
                None tr Hmax)
      as (evs & last' & -> & Hp & Hs & _ & Hlast).
    exists evs. rewrite Hlast; [done|].
    destruct (FallbackFacts.models_to_try_snoc (VISION_MODEL cfg)
                (VISION_FALLBACK_MODELS cfg)) as (pre & m & ->).
    by destruct pre.
Qed.

End Decisive.

(** Build a [retried] derivation on a concrete environment. *)
Ltac run_retried :=
  repeat (eapply retried_cons; [vm_compute; reflexivity|]);
  apply retried_nil.

Lemma blocked_ends_request_witness :
  let E := scripted_server [PostResp rate_limited_429; PostResp error_200]
             (PostResp blocked_403) in
  let p := user_payload (py "M0") in
  let odd := {| status_code := 403; reason := py "Forbidden";
                text := py "{error: Blocked}";
                json := Some (JObj [(py "error", JStr (py "Blocked"))]) |} in
  (∃ tr1,
     _request_with_retry E default_config p []
     = (Raise (Exn ContentBlockedError
                 (py "Model " ++ py "M0" ++ py " returned 403: "
                  ++ py "Blocked by provider")),
        tr1 ++ [EvPost p])
     ∧ posts tr1 = [p; p])
  ∧ _request_with_retry (constant_server odd) default_config p []
    = (Raise (Exn ContentBlockedError
                (py "Model " ++ py "M0" ++ py " returned 403: "
                 ++ py "{error: Blocked}")),
       [EvPost p]).
Proof.
  intros E p odd. split.
  - eexists. split.
    + eapply (blocked_ends_request E default_config p [] [1; 2] 3 []
                _ _ blocked_403).
      * vm_compute. reflexivity.
      * run_retried.
      * vm_compute. reflexivity.
      * reflexivity.
    + vm_compute. reflexivity.
  - eapply (blocked_ends_request (constant_server odd) default_config p
              [] [] 1 [2; 3] [] None odd).
    + vm_compute. reflexivity.
    + apply retried_nil.
    + reflexivity.
    + reflexivity.
Defined.

Lemma unexpected_status_raised_at_once_witness :
  let r500 := status_only 500 (py "Internal Server Error") in
  let E := scripted_server [PostResp rate_limited_429] (PostResp r500) in
  let p := user_payload (py "M0") in
  ∃ tr1,
    _request_with_retry E default_config p []
    = (Raise (Exn HTTPError (http_error_msg default_config r500)),
       tr1 ++ [EvPost p])
    ∧ posts tr1 = [p].
Proof.
  intros r500 E p. eexists. split.
  - eapply (unexpected_status_raised_at_once E default_config p [] [1] 2 [3]
              _ _ r500).
    + vm_compute. reflexivity.
    + run_retried.
    + vm_compute. reflexivity.
    + split; [subst r500; cbn; lia|].
      apply (bool_decide_unpack _). vm_compute. reflexivity.
  - vm_compute. reflexivity.
Defined.

Lemma reply_returned_at_any_attempt_witness :
  let E := scripted_server [PostResp rate_limited_429; PostResp error_200]
             (PostResp (reply_200 (py "a cat"))) in
  let p := user_payload (py "M0") in
  ∃ tr1,
    _request_with_retry E default_config p []
    = (Ret (py "a cat"), tr1 ++ [EvPost p])
    ∧ posts tr1 = [p; p].
Proof.
  intros E p. eexists. split.
  - eapply (reply_returned_at_any_attempt E default_config p [] [1; 2] 3 []
              _ _ (reply_200 (py "a cat"))).
    + vm_compute. reflexivity.
    + run_retried.
    + vm_compute. reflexivity.
    + reflexivity.
    + reflexivity.
    + reflexivity.
    + discriminate.
  - vm_compute. reflexivity.
Defined.

Lemma silent_statuses_use_up_attempts_witness :
  let r204 := status_only 204 (py "No Content") in
  let p := user_payload (py "M0") in
  ∃ last,
    _request_with_retry (constant_server r204) default_config p []
    = (Raise (Exn RuntimeError (exhausted_msg default_config last)),
       [EvPost p; EvPost p; EvPost p]).
Proof.
  intros r204 p.
  destruct (silent_statuses_use_up_attempts (constant_server r204)
              default_config p) with (tr := @nil event) as (last & H).
  - intros tr0. exists r204. split; [reflexivity|].
    split; [discriminate|]. left. reflexivity.
  - exists last. exact H.
Defined.

Lemma exhausted_error_hides_error_status_witness :
  let p := user_payload (py "M0") in
  (_request_with_retry (constant_server rate_limited_429) default_config p []).1
  = Raise (Exn RuntimeError
             (py "OpenRouter request failed after 3 retries. Last status: ?, body: N/A")).
Proof.
  intros p.
  rewrite (exhausted_error_hides_error_status
             (constant_server rate_limited_429) default_config p).
  - vm_compute. reflexivity.
  - intros tr0. exists rate_limited_429. split; [reflexivity|].
    apply list_elem_of_here.
  - intros tr0 n Hn. change (MAX_RETRIES default_config) with 3 in Hn.
    assert (n = 1 ∨ n = 2 ∨ n = 3) as [->|[->| ->]] by lia;
      vm_compute; reflexivity.
Defined.

Lemma no_request_without_budget_witness :
  let cfg := with_max_retries 0 default_config in
  let E := constant_server (reply_200 (py "a cat")) in
  _request_with_retry E cfg (user_payload (py "M0")) []
  = (Raise (Exn RuntimeError (exhausted_unknown cfg)), [])
  ∧ chat E cfg (py "hello") [] []
    = (Raise (Exn RuntimeError (exhausted_unknown cfg)), [EvChat (py "hello") []])
  ∧ ∃ evs,
      describe_image E cfg (py "data:image/png;base64,AAAA") default_prompt []
      = (Raise (Exn RuntimeError (ALL_FAILED ++ exhausted_unknown cfg)), evs)
      ∧ posts evs = [].
Proof.
  intros cfg E.
  destruct (no_request_without_budget E cfg) as (Hreq & Hchat & Hvision).
  { vm_compute. discriminate. }
  split_and!.
  - apply Hreq.
  - apply (Hchat (py "hello") [] []).
  - destruct (Hvision (py "data:image/png;base64,AAAA") default_prompt [])
      as (evs & Hrun & Hp & _).
    exists ([] ++ evs). split; [exact Hrun|exact Hp].
Defined.

End RetryMore.

(** ** The requests of [chat] and [describe_image] *)

Module FallbackMore.
Import RetryFacts TraceFacts RetryMore.

Section WithEnv.

Context (E : env) (cfg : config).

(** X9. [chat] first records the call and then only sends requests with
    the text model and the same messages: the system message, when there
    is one, followed by the user message. It sends at most [MAX_RETRIES]
    of them. *)
Theorem chat_requests (prompt system : pystr) (tr : trace) :
  ∃ evs k,
    (chat E cfg prompt system tr).2 = tr ++ EvChat prompt system :: evs
    ∧ posts evs
      = replicate k
          {| model := TEXT_MODEL cfg;
             messages :=
               (if truthy system
                then [ {| role := py "system"; msg_content := TextContent system |} ]
                else [])
               ++ [ {| role := py "user"; msg_content := TextContent prompt |} ] |}
    ∧ (k ≤ Z.to_nat (MAX_RETRIES cfg))%nat
    ∧ chats evs = [].
Proof.
  unfold chat, _request_with_retry. unfold_eff.
  match goal with
  | |- context [attempts_loop E cfg ?p ?l None ?t] =>
      destruct (attempts_loop_bounded E cfg p l None t)
        as (evs & k & Heq & Hp & Hk & _ & _ & Hc & _)
  end.
  exists evs, k. rewrite length_seqZ in Hk. split_and!; try done.
  - rewrite Heq. by rewrite <- app_assoc.
  - by apply no_chat_chats.
Qed.


Lemma try_models_requests msgs models last tr :
  ∃ evs ks,
    (try_models E cfg msgs models last tr).2 = tr ++ evs
    ∧ posts evs
      = concat (zip_with
                  (fun k m => replicate k {| model := m; messages := msgs |})
                  ks models)
    ∧ Forall (fun k => (k ≤ Z.to_nat (MAX_RETRIES cfg))%nat) ks
    ∧ (length ks ≤ length models)%nat
    ∧ Forall no_chat evs.
Proof.
  revert last tr. induction models as [|m rest IH]; intros last tr.
  { exists [], []. rewrite app_nil_r. split_and!; try done; constructor. }
  cbn [try_models]. unfold _request_with_retry.
  destruct (attempts_loop_bounded E cfg {| model := m; messages := msgs |}
              (seqZ 1 (MAX_RETRIES cfg)) None tr)
    as (evs1 & k & Heq & Hp & Hk & _ & _ & Hc & _).
  rewrite length_seqZ in Hk.
  assert (Hstop : ∃ evs ks,
    tr ++ evs1 = tr ++ evs
    ∧ posts evs
      = concat (zip_with
                  (fun k m => replicate k {| model := m; messages := msgs |})
                  ks (m :: rest))
    ∧ Forall (fun k => (k ≤ Z.to_nat (MAX_RETRIES cfg))%nat) ks
    ∧ (length ks ≤ length (m :: rest))%nat
    ∧ Forall no_chat evs).
  { exists evs1, [k]. split_and!; try done.
    - simpl. by rewrite app_nil_r.
    - by repeat constructor.
    - simpl. lia. }
  assert (Hnext : ∀ exc w, ∃ evs ks,
    ((emit (EvLog w);; try_models E cfg msgs rest (Some exc)) (tr ++ evs1)).2
    = tr ++ evs
    ∧ posts evs
      = concat (zip_with
                  (fun k m => replicate k {| model := m; messages := msgs |})
                  ks (m :: rest))
    ∧ Forall (fun k => (k ≤ Z.to_nat (MAX_RETRIES cfg))%nat) ks
    ∧ (length ks ≤ length (m :: rest))%nat
    ∧ Forall no_chat evs).
  { intros exc w. unfold_eff.
    destruct (IH (Some exc) ((tr ++ evs1) ++ [EvLog w]))
      as (evs' & ks & -> & Hp' & Hks & Hlen & Hc').
    exists (evs1 ++ [EvLog w] ++ evs'), (k :: ks). split_and!.
    - by rewrite <- !app_assoc.
    - rewrite !posts_app, Hp, Hp'. done.
    - by constructor.
    - simpl. lia.
    - apply Forall_app. split; [done|]. by constructor. }
  destruct (attempts_loop E cfg _ _ None tr) as [[reply|exc] tr1];
    simpl in Heq; subst tr1; [exact Hstop|].
  destruct (isinstance exc ContentBlockedError); [apply Hnext|].
  destruct (isinstance exc RuntimeError); [apply Hnext|exact Hstop].
Qed.

(** X10. Every request of [describe_image] goes to a candidate model with
    the same two-part message (the prompt, then the image). The
    candidates are asked in order, each at most [MAX_RETRIES] times in a
    row and never again once a later one has been asked. No [chat] call
    is made. *)
Theorem describe_image_requests (data_url prompt : pystr) (tr : trace) :
  ∃ evs ks,
    (describe_image E cfg data_url prompt tr).2 = tr ++ evs
    ∧ posts evs
      = concat (zip_with
                  (fun k m =>
                     replicate k
                       {| model := m;
                          messages :=
                            [ {| role := py "user";
                                 msg_content :=
                                   PartsContent [ TextPart prompt;
                                                  ImageUrlPart data_url ] |} ] |})
                  ks
                  (models_to_try (VISION_MODEL cfg) (VISION_FALLBACK_MODELS cfg)))
    ∧ Forall (fun k => (k ≤ Z.to_nat (MAX_RETRIES cfg))%nat) ks
    ∧ (length ks
       ≤ length (models_to_try (VISION_MODEL cfg) (VISION_FALLBACK_MODELS cfg)))%nat
    ∧ chats evs = [].
Proof.
  unfold describe_image.
  destruct (try_models_requests (vision_messages data_url prompt)
              (models_to_try (VISION_MODEL cfg) (VISION_FALLBACK_MODELS cfg))
              None tr) as (evs & ks & Heq & Hp & Hks & Hlen & Hc).
  exists evs, ks. split_and!; try done. by apply no_chat_chats.
Qed.


End WithEnv.


End FallbackMore.

(** ** The registry and file suffixes *)

Module RegistryMore.

Lemma rfind_dot_None (s : pystr) : 46%N ∉ s → rfind_dot s = None.
Proof.
  induction s as [|c s IH]; intros Hnot; [done|]. simpl.
  rewrite IH by (intros ?; apply Hnot; by apply list_elem_of_further).
  rewrite (proj2 (N.eqb_neq c 46)); [done|].
  intros ->. apply Hnot, list_elem_of_here.
Qed.

Lemma rfind_dot_last (stem ext : pystr) :
  46%N ∉ ext → rfind_dot (stem ++ 46%N :: ext) = Some (length stem).
Proof.
  intros Hnot. induction stem as [|c stem IH]; simpl.
  - by rewrite rfind_dot_None.
  - by rewrite IH.
Qed.

(** [Path.suffix] by the last dot of the name. *)
Lemma suffix_cases (p : path) :
  (∀ stem ext,
     name p = stem ++ 46%N :: ext → 46%N ∉ ext →
     suffix p = if bool_decide (stem ≠ [] ∧ ext ≠ []) then 46%N :: ext else [])
  ∧ (46%N ∉ name p → suffix p = []).
Proof.
  unfold suffix. split.
  - intros stem ext -> Hnot. rewrite (rfind_dot_last stem ext Hnot).
    rewrite length_app. simpl length.
    destruct stem as [|c stem]; [by rewrite bool_decide_eq_false_2 by tauto|].
    destruct ext as [|d ext].
    + rewrite bool_decide_eq_false_2 by tauto. simpl.
      by rewrite (proj2 (Nat.ltb_ge _ _)) by lia.
    + rewrite bool_decide_eq_true_2 by done.
      change (0 <? length (c :: stem))%nat with true.
      rewrite (proj2 (Nat.ltb_lt _ _)) by (simpl; lia).
      cbn [andb]. by rewrite drop_app_length.
  - intros Hnot. by rewrite rfind_dot_None.
Qed.

Section WithLower.

Context (lower : pystr → pystr).

(** X13. The later registration wins, and leaves no trace of an earlier
    one for a case variant of the same extension; registrations for
    extensions that differ beyond case can be made in either order; and a
    registration leaves every file alone whose suffix is not a case
    variant of the registered extension. *)
Theorem later_registration_wins
    (reg : gmap pystr processor_cls) (e1 e2 : pystr) (c1 c2 : processor_cls)
    (f : path) :
  (lower e1 = lower e2 →
   register_processor lower e2 c2 (register_processor lower e1 c1 reg)
   = register_processor lower e2 c2 reg)
  ∧ (lower e1 ≠ lower e2 →
     register_processor lower e2 c2 (register_processor lower e1 c1 reg)
     = register_processor lower e1 c1 (register_processor lower e2 c2 reg))
  ∧ (lower (suffix f) ≠ lower e2 →
     get_processor lower (register_processor lower e2 c2 reg) f
     = get_processor lower reg f).
Proof.
  unfold get_processor, register_processor. split_and!.
  - intros ->. apply insert_insert_eq.
  - intros Hne. by apply insert_insert_ne.
  - intros Hne. by apply lookup_insert_ne.
Qed.

Lemma register_all_lookup (exts : list pystr) (cls : processor_cls)
    (m : gmap pystr processor_cls) (k : pystr) :
  register_all lower exts cls m !! k
  = if decide (k ∈ map lower exts) then Some cls else m !! k.
Proof.
  unfold register_all. revert m.
  induction exts as [|e exts IH]; intros m; [done|].
  cbn [foldl]. rewrite IH. unfold register_processor. simpl.
  destruct (decide (k ∈ map lower exts)) as [Hin|Hnin].
  - by rewrite decide_True by by apply list_elem_of_further.
  - destruct (decide (k = lower e)) as [->|Hne].
    + rewrite decide_True by apply list_elem_of_here.
      apply lookup_insert_eq.
    + rewrite decide_False by (rewrite elem_of_cons; tauto).
      by apply lookup_insert_ne.
Qed.

Lemma imported_registry_lookup (k : pystr) :
  Forall (fun e => lower e = e)
         (text_extensions ++ py ".pdf" :: image_extensions) →
  imported_registry lower !! k
  = if decide (k ∈ text_extensions) then Some TextProcessor
    else if decide (k = py ".pdf") then Some PDFProcessor
    else if decide (k ∈ image_extensions) then Some ImageProcessor
    else None.
Proof.
  intros Hfix. apply Forall_app in Hfix as [Htext Hrest].
  apply Forall_cons in Hrest as [Hpdf Himg].
  assert (Hmap : ∀ exts, Forall (fun e => lower e = e) exts → map lower exts = exts).
  { induction 1 as [|e exts He _ IH]; [done|]. simpl. by rewrite He, IH. }
  unfold imported_registry.
  rewrite register_all_lookup, (Hmap _ Htext).
  destruct (decide (k ∈ text_extensions)); [done|].
  unfold register_processor. rewrite Hpdf.
  destruct (decide (k = py ".pdf")) as [->|Hne].
  - apply lookup_insert_eq.
  - rewrite lookup_insert_ne by done.
    rewrite register_all_lookup, (Hmap _ Himg).
    by destruct (decide (k ∈ image_extensions)).
Qed.

(** X12. [get_processor] goes by the part of the file name from its last
    dot on. For a name [stem ++ "." ++ ext] with no dot in [ext] and
    neither part empty, it looks up the lower-cased [.ext] in the
    registry, whatever dots [stem] holds. A name without a dot, a name
    that starts with its only dot (such as [.env]) and a name that ends
    with a dot have the empty suffix, for which the processors register
    nothing: in the registry they build such a file gets no processor.
    Lower-casing is taken to leave the empty string and the registered
    lower-case extensions as they are. *)
Theorem processor_by_last_dot_part (f : path) :
  Forall (fun e => lower e = e)
         (text_extensions ++ py ".pdf" :: image_extensions) →
  lower [] = [] →
  (∀ reg stem ext,
     name f = stem ++ 46%N :: ext → 46%N ∉ ext → stem ≠ [] → ext ≠ [] →
     get_processor lower reg f = reg !! lower (46%N :: ext))
  ∧ (46%N ∉ name f → get_processor lower (imported_registry lower) f = None)
  ∧ (∀ ext, name f = 46%N :: ext → 46%N ∉ ext →
            get_processor lower (imported_registry lower) f = None)
  ∧ (∀ stem, name f = stem ++ [46%N] →
             get_processor lower (imported_registry lower) f = None).
Proof.
  intros Hfix Hempty.
  destruct (suffix_cases f) as [Hdot Hnone].
  assert (Hnothing : imported_registry lower !! lower [] = None).
  { rewrite Hempty, (imported_registry_lookup [] Hfix).
    rewrite decide_False
      by (apply (bool_decide_unpack _); vm_compute; reflexivity).
    rewrite decide_False by discriminate.
    by rewrite decide_False
      by (apply (bool_decide_unpack _); vm_compute; reflexivity). }
  unfold get_processor. split_and!.
  - intros reg stem ext Hname Hext Hstem Hne.
    rewrite (Hdot stem ext Hname Hext).
    by rewrite bool_decide_eq_true_2.
  - intros Hnot. by rewrite (Hnone Hnot).
  - intros ext Hname Hext.
    rewrite (Hdot [] ext Hname Hext).
    by rewrite bool_decide_eq_false_2 by tauto.
  - intros stem Hname.
    rewrite (Hdot stem [] Hname) by apply not_elem_of_nil.
    by rewrite bool_decide_eq_false_2 by tauto.
Qed.

(** X14. What the registry holds once the three processor modules are
    imported, for any lower-casing that leaves the registered lower-case
    extensions as they are: a file is handled by the text processor when
    its lower-cased suffix is one of the nine text extensions, by the PDF
    processor when it is [.pdf], by the image processor when it is one of
    the eight image extensions, and by nothing otherwise. *)
Theorem imported_registry_resolution (f : path) :
  Forall (fun e => lower e = e)
         (text_extensions ++ py ".pdf" :: image_extensions) →
  get_processor lower (imported_registry lower) f
  = if decide (lower (suffix f) ∈ text_extensions) then Some TextProcessor
    else if decide (lower (suffix f) = py ".pdf") then Some PDFProcessor
    else if decide (lower (suffix f) ∈ image_extensions) then Some ImageProcessor
    else None.
Proof.
  intros Hfix. apply Forall_app in Hfix as [Htext Hrest].
  apply Forall_cons in Hrest as [Hpdf Himg].
  assert (Hmap : ∀ exts, Forall (fun e => lower e = e) exts → map lower exts = exts).
  { induction 1 as [|e exts He _ IH]; [done|]. simpl. by rewrite He, IH. }
  unfold get_processor, imported_registry.
  rewrite register_all_lookup, (Hmap _ Htext).
  destruct (decide (lower (suffix f) ∈ text_extensions)); [done|].
  unfold register_processor. rewrite Hpdf.
  destruct (decide (lower (suffix f) = py ".pdf")) as [->|Hne].
  - apply lookup_insert_eq.
  - rewrite lookup_insert_ne by done.
    rewrite register_all_lookup, (Hmap _ Himg).
    by destruct (decide (lower (suffix f) ∈ image_extensions)).
Qed.

End WithLower.

Lemma processor_by_last_dot_part_witness :
  let reg := imported_registry ascii_lower in
  get_processor ascii_lower reg [py "downloads"; py "notes.v2.TXT"]
  = Some TextProcessor
  ∧ get_processor ascii_lower reg [py "downloads"; py "archive.tar.gz"] = None
  ∧ get_processor ascii_lower reg [py "downloads"; py "Makefile"] = None
  ∧ get_processor ascii_lower reg [py "downloads"; py ".env"] = None
  ∧ get_processor ascii_lower reg [py "downloads"; py "notes."] = None.
Proof.
  intros reg.
  assert (Hfix : Forall (fun e => ascii_lower e = e)
                   (text_extensions ++ py ".pdf" :: image_extensions)).
  { apply (bool_decide_unpack _). vm_compute. reflexivity. }
  assert (Hempty : ascii_lower [] = []) by reflexivity.
  split_and!.
  - destruct (processor_by_last_dot_part ascii_lower
                [py "downloads"; py "notes.v2.TXT"] Hfix Hempty) as (H & _).
    rewrite (H reg (py "notes.v2") (py "TXT")).
    + vm_compute. reflexivity.
    + vm_compute. reflexivity.
    + apply (bool_decide_unpack _). vm_compute. reflexivity.
    + discriminate.
    + discriminate.
  - destruct (processor_by_last_dot_part ascii_lower
                [py "downloads"; py "archive.tar.gz"] Hfix Hempty) as (H & _).
    rewrite (H reg (py "archive.tar") (py "gz")).
    + vm_compute. reflexivity.
    + vm_compute. reflexivity.
    + apply (bool_decide_unpack _). vm_compute. reflexivity.
    + discriminate.
    + discriminate.
  - destruct (processor_by_last_dot_part ascii_lower
                [py "downloads"; py "Makefile"] Hfix Hempty) as (_ & H & _).
    apply H. apply (bool_decide_unpack _). vm_compute. reflexivity.
  - destruct (processor_by_last_dot_part ascii_lower
                [py "downloads"; py ".env"] Hfix Hempty) as (_ & _ & H & _).
    apply (H (py "env")); [vm_compute; reflexivity|].
    apply (bool_decide_unpack _). vm_compute. reflexivity.
  - destruct (processor_by_last_dot_part ascii_lower
                [py "downloads"; py "notes."] Hfix Hempty) as (_ & _ & _ & H).
    apply (H (py "notes")). vm_compute. reflexivity.
Defined.

Lemma later_registration_wins_witness :
  register_processor ascii_lower (py ".TXT") PDFProcessor
    (register_processor ascii_lower (py ".txt") TextProcessor ∅)
  = register_processor ascii_lower (py ".TXT") PDFProcessor ∅
  ∧ register_processor ascii_lower (py ".pdf") PDFProcessor
      (register_processor ascii_lower (py ".txt") TextProcessor ∅)
    = register_processor ascii_lower (py ".txt") TextProcessor
        (register_processor ascii_lower (py ".pdf") PDFProcessor ∅)
  ∧ get_processor ascii_lower
      (register_processor ascii_lower (py ".txt") PDFProcessor
         (imported_registry ascii_lower))
      [py "scan.png"]
    = get_processor ascii_lower (imported_registry ascii_lower) [py "scan.png"].
Proof.
  split_and!.
  - apply (later_registration_wins ascii_lower ∅ (py ".txt") (py ".TXT")
             TextProcessor PDFProcessor []).
    vm_compute. reflexivity.
  - apply (later_registration_wins ascii_lower ∅ (py ".txt") (py ".pdf")
             TextProcessor PDFProcessor []).
    vm_compute. discriminate.
  - apply (later_registration_wins ascii_lower
             (imported_registry ascii_lower) (py ".txt") (py ".txt")
             TextProcessor PDFProcessor [py "scan.png"]).
    vm_compute. discriminate.
Defined.

Lemma imported_registry_resolution_witness :
  get_processor ascii_lower (imported_registry ascii_lower) [py "Scan.JPEG"]
  = Some ImageProcessor
  ∧ get_processor ascii_lower (imported_registry ascii_lower) [py "a.PDF"]
    = Some PDFProcessor
  ∧ get_processor ascii_lower (imported_registry ascii_lower) [py "a.docx"]
    = None.
Proof.
  assert (Hfix : Forall (fun e => ascii_lower e = e)
                   (text_extensions ++ py ".pdf" :: image_extensions)).
  { apply (bool_decide_unpack _). vm_compute. reflexivity. }
  split_and!;
    rewrite (imported_registry_resolution ascii_lower _ Hfix);
    vm_compute; reflexivity.
Defined.

End RegistryMore.

(** ** The three extractors *)

Module ExtractorsMore.
Import RetryFacts TraceFacts RetryMore FallbackMore.

Lemma has_text_spec (t : pystr) :
  has_text t = true ↔ ∃ c, c ∈ t ∧ is_space c = false.
Proof.
  unfold has_text. rewrite negb_true_iff.
  induction t as [|c t IH]; simpl.
  - split; [done|]. intros (c & Hc & _). by apply elem_of_nil in Hc.
  - rewrite andb_false_iff, IH. split.
    + intros [Hc|(d & Hd & Hs)].
      * exists c. split; [apply list_elem_of_here|done].
      * exists d. split; [by apply list_elem_of_further|done].
    + intros (d & Hd & Hs). apply elem_of_cons in Hd as [->|Hd]; [by left|].
      right. by exists d.
Qed.

Lemma join_nil_iff sep (l : list pystr) :
  Forall (fun x => x ≠ []) l → join sep l = [] ↔ l = [].
Proof.
  intros Hl. split; [|by intros ->].
  destruct Hl as [|x l Hx _]; [done|].
  destruct l; simpl; [done|]. by destruct x.
Qed.

Section WithEnv.

Context (lower : pystr → pystr) (E : env) (cfg : config).
Context (reg : gmap pystr processor_cls).

Lemma try_encodings_decides f pre enc post tr :
  (∀ tr0 e, e ∈ pre →
     ∃ x, read_text E tr0 f e = Raise x ∧ decoding_error x = true) →
  try_encodings E f (pre ++ enc :: post) tr
  = match read_text E (tr ++ map (EvReadText f) pre) f enc with
    | Ret text => (Ret text, tr ++ map (EvReadText f) (pre ++ [enc]))
    | Raise x =>
        if decoding_error x
        then try_encodings E f post (tr ++ map (EvReadText f) (pre ++ [enc]))
        else (Raise x, tr ++ map (EvReadText f) (pre ++ [enc]))
    end.
Proof.
  revert tr. induction pre as [|e pre IH]; intros tr Hpre.
  - simpl. rewrite app_nil_r. cbn [try_encodings]. unfold try_except, ask.
    by destruct (read_text E tr f enc).
  - cbn [app try_encodings]. unfold try_except at 1. unfold ask.
    destruct (Hpre tr e) as (x & -> & Hx); [apply list_elem_of_here|].
    unfold decoding_error in Hx. rewrite Hx.
    rewrite IH by (intros tr0 e' He'; apply Hpre; by apply list_elem_of_further).
    simpl. by rewrite <- !app_assoc.
Qed.

(** X15. The text extractor tries the encodings in the order utf-8,
    cp1251, latin-1 and returns the first text that decodes: when every
    encoding before [enc] fails to decode the file and [enc] decodes it,
    the result is that text and no later encoding is tried. An error that
    is not a decoding error is raised at once instead, with no later
    encoding tried either. *)
Theorem first_decodable_encoding_wins f pre enc post tr :
  ENCODINGS = pre ++ enc :: post →
  (∀ tr0 e, e ∈ pre →
     ∃ x, read_text E tr0 f e = Raise x ∧ decoding_error x = true) →
  let tr1 := tr ++ EvExtract TextProcessor f :: map (EvReadText f) pre in
  (∀ text, read_text E tr1 f enc = Ret text →
     extract E cfg TextProcessor f tr = (Ret text, tr1 ++ [EvReadText f enc]))
  ∧ (∀ x, read_text E tr1 f enc = Raise x → decoding_error x = false →
       extract E cfg TextProcessor f tr = (Raise x, tr1 ++ [EvReadText f enc])).
Proof.
  intros Hencs Hpre tr1.
  assert (Hrun : extract E cfg TextProcessor f tr
                 = try_encodings E f (pre ++ enc :: post)
                     (tr ++ [EvExtract TextProcessor f])).
  { unfold extract, text_extract. unfold_eff. by rewrite Hencs. }
  rewrite Hrun, try_encodings_decides by done.
  assert (Htr : (tr ++ [EvExtract TextProcessor f]) ++ map (EvReadText f) pre = tr1).
  { subst tr1. by rewrite <- app_assoc. }
  assert (Htr' : (tr ++ [EvExtract TextProcessor f])
                 ++ map (EvReadText f) (pre ++ [enc])
                 = tr1 ++ [EvReadText f enc]).
  { subst tr1. rewrite map_app. simpl. by rewrite <- !app_assoc. }
  rewrite Htr, Htr'. split.
  - by intros text ->.
  - by intros x -> ->.
Qed.

(** X16. The PDF extractor returns the empty string exactly when no page
    has text, a page without text being one that is missing or holds white
    space only; and every page with text occurs in the result. A page has
    text when one of its characters is not white space. *)
Theorem pdf_text_of_pages f tr texts :
  pdf_page_texts E (tr ++ [EvExtract PDFProcessor f]) f = Ret texts →
  ∃ body,
    extract E cfg PDFProcessor f tr
    = (Ret body, tr ++ [EvExtract PDFProcessor f; EvOpenPdf f])
    ∧ (body = [] ↔ Forall blank_page texts)
    ∧ (∀ t, Some t ∈ texts → (∃ c, c ∈ t ∧ is_space c = false) →
            ∃ before after, body = before ++ t ++ after).
Proof.
  intros Hpages.
  set (pages := List.filter has_text (map (default []) texts)).
  exists (join (nl ++ nl) pages). split_and!.
  - unfold extract, pdf_extract. unfold_eff. rewrite Hpages.
    by rewrite <- app_assoc.
  - assert (Hne : Forall (fun x : pystr => x ≠ []) pages).
    { apply Forall_forall. intros x Hx. subst pages.
      apply list_elem_of_In, filter_In in Hx as [_ Hx]. by destruct x. }
    rewrite (join_nil_iff _ _ Hne). subst pages. unfold blank_page.
    clear. induction texts as [|t texts IH]; simpl.
    + split; [constructor|done].
    + rewrite Forall_cons. destruct (has_text (default [] t)); [|tauto].
      split; [done|]. by intros [? _].
  - intros t Hin Htext. apply has_text_spec in Htext.
    assert (Hpage : t ∈ pages).
    { subst pages. apply list_elem_of_In, filter_In. split; [|done].
      apply in_map_iff. exists (Some t). split; [done|].
      by apply list_elem_of_In. }
    apply list_elem_of_lookup in Hpage as [i Hi].
    apply (PromptFacts.join_infix _ _ _ _ Hi).
Qed.

(** X17. The image extractor prepares the image, with enhancement, before
    anything else. When that fails, the error leaves [extract] and no
    request is sent. Otherwise every request carries the fixed instruction
    and the data URL made of the PNG prefix and the base64 text, and goes
    to the vision candidates in order. *)
Theorem image_requests_carry_data_url f tr :
  let tr1 := tr ++ [EvExtract ImageProcessor f] in
  (∀ e, png_base64 E tr1 f true = Raise e →
        extract E cfg ImageProcessor f tr = (Raise e, tr1 ++ [EvPrepareImage f]))
  ∧ (∀ b64, png_base64 E tr1 f true = Ret b64 →
       ∃ evs ks,
         (extract E cfg ImageProcessor f tr).2
         = tr1 ++ EvPrepareImage f :: evs
         ∧ posts evs
           = concat (zip_with
                       (fun k m =>
                          replicate k
                            {| model := m;
                               messages :=
                                 vision_messages
                                   (py "data:image/png;base64," ++ b64)
                                   IMAGE_PROMPT |})
                       ks
                       (models_to_try (VISION_MODEL cfg)
                          (VISION_FALLBACK_MODELS cfg)))).
Proof.
  intros tr1. split.
  - intros e He. unfold extract, image_extract, _prepare_image. unfold_eff.
    fold tr1. by rewrite He.
  - intros b64 Hb. unfold extract, image_extract, _prepare_image. unfold_eff.
    fold tr1. rewrite Hb. unfold describe_image.
    destruct (try_models_requests E cfg
                (vision_messages (py "data:image/png;base64," ++ b64) IMAGE_PROMPT)
                (models_to_try (VISION_MODEL cfg) (VISION_FALLBACK_MODELS cfg))
                None (tr1 ++ [EvPrepareImage f]))
      as (evs & ks & Heq & Hp & _).
    exists evs, ks. split; [|done]. rewrite Heq. by rewrite <- app_assoc.
Qed.

End WithEnv.

Lemma first_decodable_encoding_wins_witness :
  let f := [py "downloads"; py "old.txt"] in
  extract (legacy_text_env (py "привет")) default_config TextProcessor f []
  = (Ret (py "привет"),
     [EvExtract TextProcessor f; EvReadText f (py "utf-8");
      EvReadText f (py "cp1251")])
  ∧ extract (constant_server error_200) default_config TextProcessor f []
    = (Raise (Exn OSError (py "No such file")),
       [EvExtract TextProcessor f; EvReadText f (py "utf-8")]).
Proof.
  intros f. split.
  - destruct (first_decodable_encoding_wins (legacy_text_env (py "привет"))
                default_config f [py "utf-8"] (py "cp1251") [py "latin-1"] [])
      as [Hok _].
    + reflexivity.
    + intros tr0 e He. apply list_elem_of_singleton in He as ->.
      eexists. split; reflexivity.
    + apply (Hok (py "привет")). reflexivity.
  - destruct (first_decodable_encoding_wins (constant_server error_200)
                default_config f [] (py "utf-8") [py "cp1251"; py "latin-1"] [])
      as [_ Hraise].
    + reflexivity.
    + intros tr0 e He. by apply elem_of_nil in He.
    + apply (Hraise (Exn OSError (py "No such file"))); reflexivity.
Defined.

Lemma pdf_text_of_pages_witness :
  let f := [py "downloads"; py "report.pdf"] in
  let scan := [py "downloads"; py "scan.pdf"] in
  let E := mixed_folder None []
             [ (f, [Some (py "Page one"); None; Some (py "  "); Some (py "Page two")]);
               (scan, [None; Some (py " ")]) ]
             [] (fun _ _ => PostRaise (py "Connection refused")) in
  (∃ body before after,
     extract E default_config PDFProcessor f []
     = (Ret body, [EvExtract PDFProcessor f; EvOpenPdf f])
     ∧ body ≠ [] ∧ body = before ++ py "Page two" ++ after)
  ∧ extract E default_config PDFProcessor scan []
    = (Ret [], [EvExtract PDFProcessor scan; EvOpenPdf scan]).
Proof.
  intros f scan E. split.
  - destruct (pdf_text_of_pages E default_config f []
                [Some (py "Page one"); None; Some (py "  "); Some (py "Page two")])
      as (body & Hrun & Hempty & Hpages); [vm_compute; reflexivity|].
    destruct (Hpages (py "Page two")) as (before & after & Hbody).
    { apply (bool_decide_unpack _). vm_compute. reflexivity. }
    { exists 80%N. split; [|reflexivity].
      apply (bool_decide_unpack _). vm_compute. reflexivity. }
    exists body, before, after. split_and!; [exact Hrun| |exact Hbody].
    intros Hnil. apply Hempty in Hnil. inversion Hnil as [|? ? Hblank _].
    vm_compute in Hblank. discriminate.
  - destruct (pdf_text_of_pages E default_config scan [] [None; Some (py " ")])
      as (body & Hrun & Hempty & _); [vm_compute; reflexivity|].
    rewrite Hrun. f_equal. f_equal. apply Hempty.
    repeat constructor.
Defined.

Lemma image_requests_carry_data_url_witness :
  let f := [py "downloads"; py "scan.png"] in
  let broken := [py "downloads"; py "broken.png"] in
  let E := mixed_folder None [] [] [(f, py "iVBORw0KGgo=")]
             (fun _ _ => PostResp (reply_200 (py "an invoice"))) in
  extract E default_config ImageProcessor broken []
  = (Raise (Exn OSError (py "cannot identify image file")),
     [EvExtract ImageProcessor broken; EvPrepareImage broken])
  ∧ ∃ evs ks,
      (extract E default_config ImageProcessor f []).2
      = EvExtract ImageProcessor f :: EvPrepareImage f :: evs
      ∧ posts evs
        = concat (zip_with
                    (fun k m =>
                       replicate k
                         {| model := m;
                            messages :=
                              vision_messages
                                (py "data:image/png;base64," ++ py "iVBORw0KGgo=")
                                IMAGE_PROMPT |})
                    ks
                    (models_to_try (VISION_MODEL default_config)
                       (VISION_FALLBACK_MODELS default_config))).
Proof.
  intros f broken E. split.
  - destruct (image_requests_carry_data_url E default_config broken [])
      as [Hfail _].
    apply (Hfail (Exn OSError (py "cannot identify image file"))).
    reflexivity.
  - destruct (image_requests_carry_data_url E default_config f [])
      as [_ Hok].
    destruct (Hok (py "iVBORw0KGgo=")) as (evs & ks & Htr & Hp);
      [reflexivity|].
    exists evs, ks. split; [exact Htr|exact Hp].
Defined.

End ExtractorsMore.

(** ** The order of the downloaded files *)

From Stdlib Require Import Sorted.
From stdpp Require sorting.

Module DownloaderMore.

Lemma str_ltb_irrefl a : str_ltb a a = false.
Proof.
  induction a as [|x a IH]; [done|]. simpl.
  by rewrite N.ltb_irrefl, N.eqb_refl.
Qed.

Lemma str_ltb_trans a b c :
  str_ltb a b = true → str_ltb b c = true → str_ltb a c = true.
Proof.
  revert b c. induction a as [|x a IH]; intros [|y b] [|z c]; simpl; try done.
  rewrite !orb_true_iff, !andb_true_iff, !N.ltb_lt, !N.eqb_eq.
  intros [Hxy|[-> Hab]] [Hyz|[-> Hbc]].
  - left. lia.
  - by left.
  - by left.
  - right. eauto.
Qed.

Lemma str_ltb_total a b :
  str_ltb a b = false → str_ltb b a = false → a = b.
Proof.
  revert b. induction a as [|x a IH]; intros [|y b]; simpl; try done.
  rewrite !orb_false_iff, !andb_false_iff, !N.ltb_ge, !N.eqb_neq.
  intros [Hyx [Hne|Hab]] [Hxy [Hne'|Hba]]; try lia.
  assert (x = y) as -> by lia. f_equal. by apply IH.
Qed.

Lemma path_ltb_irrefl p : path_ltb p p = false.
Proof.
  induction p as [|x p IH]; [done|]. simpl.
  by rewrite str_ltb_irrefl, IH, andb_false_r.
Qed.

Lemma path_ltb_trans p q r :
  path_ltb p q = true → path_ltb q r = true → path_ltb p r = true.
Proof.
  revert q r. induction p as [|x p IH]; intros [|y q] [|z r]; simpl; try done.
  rewrite !orb_true_iff, !andb_true_iff, !bool_decide_eq_true.
  intros [Hxy|[-> Hpq]] [Hyz|[-> Hqr]].
  - left. by eapply str_ltb_trans.
  - by left.
  - by left.
  - right. eauto.
Qed.

Lemma path_ltb_total p q :
  path_ltb p q = false → path_ltb q p = false → p = q.
Proof.
  revert q. induction p as [|x p IH]; intros [|y q]; simpl; try done.
  rewrite !orb_false_iff, !andb_false_iff, !bool_decide_eq_false.
  intros [Hxy Hpq] [Hyx Hqp].
  assert (x = y) as -> by by apply str_ltb_total.
  destruct Hpq as [?|Hpq]; [done|]. destruct Hqp as [?|Hqp]; [done|].
  f_equal. by apply IH.
Qed.

#[local] Instance path_le_trans : Transitive path_le.
Proof.
  intros p q r Hpq Hqr. unfold path_le in *.
  destruct (path_ltb r p) eqn:Hrp; [|done].
  destruct (path_ltb q r) eqn:Hrq.
  - by rewrite (path_ltb_trans q r p) in Hpq.
  - rewrite (path_ltb_total _ _ Hrq Hqr) in Hpq. congruence.
Qed.

#[local] Instance path_le_antisym : AntiSymm (=) path_le.
Proof. intros p q Hpq Hqp. by apply path_ltb_total. Qed.

Lemma path_lt_le p q : path_ltb p q = true → path_le p q.
Proof.
  intros Hpq. unfold path_le. destruct (path_ltb q p) eqn:Hqp; [|done].
  by rewrite <- (path_ltb_irrefl p), (path_ltb_trans p q p).
Qed.

Lemma insert_sorted_perm p l : insert_sorted p l ≡ₚ p :: l.
Proof.
  induction l as [|q l IH]; [done|]. simpl.
  destruct (path_ltb q p); [|done]. by rewrite IH, Permutation_swap.
Qed.

Lemma sorted_perm l : sorted l ≡ₚ l.
Proof.
  induction l as [|p l IH]; [done|]. unfold sorted in *. simpl.
  by rewrite insert_sorted_perm, IH.
Qed.

Lemma insert_sorted_sorted p l :
  StronglySorted path_le l → StronglySorted path_le (insert_sorted p l).
Proof.
  induction 1 as [|q l Hl IH Hq]; simpl; [by repeat constructor|].
  destruct (path_ltb q p) eqn:Hqp.
  - constructor; [done|].
    apply list.Forall_forall. intros r Hr.
    rewrite insert_sorted_perm in Hr.
    apply elem_of_cons in Hr as [->|Hr]; [by apply path_lt_le|].
    by apply (proj1 (list.Forall_forall _ _) Hq).
  - constructor; [by constructor|].
    constructor; [done|].
    eapply Forall_impl; [exact Hq|]. intros r Hr. by transitivity q.
Qed.

Lemma sorted_sorted l : StronglySorted path_le (sorted l).
Proof.
  induction l as [|p l IH]; [constructor|]. by apply insert_sorted_sorted.
Qed.

Lemma sorted_order_independent l l' : l ≡ₚ l' → sorted l = sorted l'.
Proof.
  intros Hperm. apply (sorting.StronglySorted_unique path_le); try apply sorted_sorted.
  by rewrite !sorted_perm.
Qed.

Section WithEnv.

Context (E : env) (cfg : config).

(** X18. Whatever order [gdown] lists the downloaded files in,
    [download_folder] returns the same files, each as often as it was
    listed, in ascending order of their paths; so the result depends on
    what was downloaded and not on the order of the listing. The only
    event is the download itself. *)
Theorem download_folder_sorted (folder_url : pystr) (output_dir : option pystr)
    (tr : trace) (listing : list path) :
  gdown_download_folder E tr folder_url (dest_of cfg output_dir)
  = Ret (Some listing) →
  ∃ files,
    download_folder E cfg folder_url output_dir tr
    = (Ret files, tr ++ [EvDownload folder_url (dest_of cfg output_dir)])
    ∧ files ≡ₚ listing
    ∧ StronglySorted path_le files
    ∧ (∀ other, other ≡ₚ listing → sorted other = files).
Proof.
  intros Hgdown. exists (sorted listing).
  split_and!.
  - rewrite SummarizerFacts.download_folder_cases.
    by rewrite (gdown_after_mkdir E _ _ _ _ Hgdown), Hgdown.
  - apply sorted_perm.
  - apply sorted_sorted.
  - intros other. apply sorted_order_independent.
Qed.

End WithEnv.

Lemma download_folder_sorted_witness :
  let a := [py "downloads"; py "a"; py "notes.txt"] in
  let b := [py "downloads"; py "b.pdf"] in
  let c := [py "downloads"; py "b"; py "a.png"] in
  let E := mixed_folder (Some [c; b; a; b]) [] [] []
             (fun _ _ => PostRaise (py "Connection refused")) in
  download_folder E default_config (py "https://drive/f") None []
  = (Ret [a; c; b; b], [EvDownload (py "https://drive/f") (py "downloads")])
  ∧ sorted [b; a; b; c] = [a; c; b; b].
Proof.
  intros a b c E.
  destruct (download_folder_sorted E default_config (py "https://drive/f")
              None [] [c; b; a; b])
    as (files & Hrun & _ & _ & Hany); [reflexivity|].
  rewrite Hrun. rewrite <- (Hany [b; a; b; c]).
  - split; vm_compute; reflexivity.
  - apply (bool_decide_unpack _). vm_compute. reflexivity.
Defined.

End DownloaderMore.

(** ** Reading the fallback list *)

Module ConfigMore.

Lemma lstrip_idemp s : lstrip (lstrip s) = lstrip s.
Proof.
  induction s as [|c s IH]; [done|]. simpl.
  destruct (is_space c) eqn:Hc; [done|]. simpl. by rewrite Hc.
Qed.

Lemma lstrip_cases s :
  lstrip s = [] ∨ ∃ c t, lstrip s = c :: t ∧ is_space c = false.
Proof.
  induction s as [|c s IH]; [by left|]. simpl.
  destruct (is_space c) eqn:Hc; [done|]. right. by exists c, s.
Qed.

Lemma lstrip_snoc s c :
  is_space c = false → lstrip (s ++ [c]) = lstrip s ++ [c].
Proof.
  intros Hc. induction s as [|x s IH]; simpl; [by rewrite Hc|].
  by destruct (is_space x).
Qed.

Lemma rstrip_idemp s : rstrip (rstrip s) = rstrip s.
Proof. unfold rstrip. by rewrite reverse_involutive, lstrip_idemp. Qed.

Lemma rstrip_cons c t :
  is_space c = false → rstrip (c :: t) = c :: rstrip t.
Proof.
  intros Hc. unfold rstrip.
  by rewrite reverse_cons, lstrip_snoc, reverse_snoc.
Qed.

Lemma strip_cases s :
  strip s = [] ∨ ∃ c t, strip s = c :: rstrip t ∧ is_space c = false.
Proof.
  unfold strip. destruct (lstrip_cases s) as [->|(c & t & -> & Hc)].
  - by left.
  - right. exists c, t. by rewrite rstrip_cons.
Qed.

Lemma strip_idemp s : strip (strip s) = strip s.
Proof.
  destruct (strip_cases s) as [->|(c & t & -> & Hc)]; [done|].
  unfold strip at 1. simpl. rewrite Hc.
  by rewrite rstrip_cons, rstrip_idemp.
Qed.

(** The pieces of [split] hold no comma. *)
Lemma split_comma_no_comma s : Forall (fun m => 44%N ∉ m) (split_comma s).
Proof.
  induction s as [|c s IH]; simpl.
  - repeat constructor. apply not_elem_of_nil.
  - destruct (N.eqb_spec c 44) as [->|Hc].
    + constructor; [apply not_elem_of_nil|done].
    + destruct (split_comma s) as [|piece pieces].
      * repeat constructor. set_solver.
      * inversion IH; subst. constructor; [set_solver|done].
Qed.

(** Cutting off white space adds no comma. *)
Lemma lstrip_elem c s : c ∈ lstrip s → c ∈ s.
Proof.
  induction s as [|x s IH]; [done|]. simpl.
  destruct (is_space x); [|done]. intros. right. auto.
Qed.

Lemma strip_elem c s : c ∈ strip s → c ∈ s.
Proof.
  unfold strip, rstrip. rewrite elem_of_reverse. intros Hc.
  apply lstrip_elem in Hc. rewrite elem_of_reverse in Hc.
  by apply lstrip_elem.
Qed.

Lemma split_comma_no_comma_piece m :
  (44%N ∉ m) → split_comma m = [m].
Proof.
  induction m as [|c m IH]; [done|]. intros Hm. simpl.
  destruct (N.eqb_spec c 44) as [->|Hc]; [set_solver|].
  rewrite IH by set_solver. done.
Qed.

Lemma split_comma_app m rest :
  (44%N ∉ m) → split_comma (m ++ 44%N :: rest) = m :: split_comma rest.
Proof.
  induction m as [|c m IH]; [done|]. intros Hm. simpl.
  destruct (N.eqb_spec c 44) as [->|Hc]; [set_solver|].
  rewrite IH by set_solver. done.
Qed.

Lemma split_comma_join l :
  l ≠ [] → Forall (fun m => 44%N ∉ m) l → split_comma (join [44%N] l) = l.
Proof.
  intros Hne Hl. induction Hl as [|m l Hm Hl IH]; [done|].
  destruct l as [|m' l].
  - by apply split_comma_no_comma_piece.
  - change (join [44%N] (m :: m' :: l)) with (m ++ 44%N :: join [44%N] (m' :: l)).
    rewrite split_comma_app by done. by rewrite IH.
Qed.

Lemma lstrip_suffix s : ∃ pre, s = pre ++ lstrip s.
Proof.
  induction s as [|c s [pre IH]]; [by exists []|]. simpl.
  destruct (is_space c); [|by exists []].
  exists (c :: pre). simpl. by rewrite <- IH.
Qed.

Lemma strip_infix s : ∃ pre post, s = pre ++ strip s ++ post.
Proof.
  destruct (lstrip_suffix s) as [pre Hpre].
  destruct (lstrip_suffix (reverse (lstrip s))) as [post Hpost].
  exists pre, (reverse post). unfold strip, rstrip.
  rewrite <- reverse_app, <- Hpost, reverse_involutive. done.
Qed.

Lemma split_comma_first s :
  ∃ piece pieces after, split_comma s = piece :: pieces ∧ s = piece ++ after.
Proof.
  induction s as [|c s (piece & pieces & after & IH & Hs)]; simpl.
  - by exists [], [], [].
  - destruct (c =? 44)%N.
    + by exists [], (split_comma s), (c :: s).
    + rewrite IH. exists (c :: piece), pieces, after. simpl. by rewrite <- Hs.
Qed.

Lemma split_comma_infix s piece :
  piece ∈ split_comma s → ∃ before after, s = before ++ piece ++ after.
Proof.
  revert piece. induction s as [|c s IH]; intros piece Hpiece; simpl in *.
  - apply list_elem_of_singleton in Hpiece as ->. by exists [], [].
  - destruct (c =? 44)%N.
    + apply elem_of_cons in Hpiece as [->|Hpiece]; [by exists [], (c :: s)|].
      destruct (IH _ Hpiece) as (before & after & ->).
      by exists (c :: before), after.
    + destruct (split_comma_first s) as (p & ps & after & Hsplit & Hs).
      rewrite Hsplit in *.
      apply elem_of_cons in Hpiece as [->|Hpiece].
      * exists [], after. simpl. by rewrite <- Hs.
      * destruct (IH piece) as (before & after' & Heq); [set_solver|].
        exists (c :: before), after'. simpl. by rewrite <- Heq.
Qed.

(** X19. However the [VISION_FALLBACK_MODELS] variable is written, the
    parsed list holds only usable identifiers: none is empty, none holds a
    comma, none starts or ends with white space. Each of them is a piece
    of the variable's text. *)
Theorem parse_models_clean (_vision_fb : pystr) :
  Forall clean (parse_models _vision_fb)
  ∧ ∀ m, m ∈ parse_models _vision_fb →
         ∃ before after, _vision_fb = before ++ m ++ after.
Proof.
  unfold parse_models. split.
  - apply List.Forall_map, List.Forall_forall. intros m Hm.
    apply List.filter_In in Hm as [Hin Hm].
    pose proof (split_comma_no_comma _vision_fb) as Hcomma.
    rewrite List.Forall_forall in Hcomma.
    split_and!.
    + by destruct (strip m).
    + intros Hc. apply strip_elem in Hc. by apply (Hcomma m).
    + apply strip_idemp.
  - intros m Hm.
    apply list_elem_of_In, List.in_map_iff in Hm as (piece & <- & Hpiece).
    apply List.filter_In in Hpiece as [Hpiece _].
    apply list_elem_of_In, split_comma_infix in Hpiece as (before & after & ->).
    destruct (strip_infix piece) as (pre & post & Heq).
    exists (before ++ pre), (post ++ after).
    rewrite Heq at 1. by rewrite <- !app_assoc.
Qed.

Lemma filter_all {A} (f : A → bool) (l : list A) :
  Forall (fun x => f x = true) l → List.filter f l = l.
Proof. induction 1 as [|x l Hx _ IH]; simpl; [done|]. by rewrite Hx, IH. Qed.

Lemma map_fixed {A} (f : A → A) (l : list A) :
  Forall (fun x => f x = x) l → map f l = l.
Proof. induction 1 as [|x l Hx _ IH]; simpl; [done|]. by rewrite Hx, IH. Qed.

(** X20. Writing a list of usable identifiers with commas between them
    and reading it back gives the same list, in the same order: nothing is
    lost, merged or reordered by the parser. *)
Theorem parse_models_round_trip (models : list pystr) :
  Forall clean models →
  parse_models (join (py ",") models) = models.
Proof.
  intros Hclean. change (py ",") with [44%N].
  destruct (decide (models = [])) as [->|Hne]; [done|].
  unfold parse_models. rewrite split_comma_join.
  - rewrite filter_all.
    + apply map_fixed. eapply Forall_impl; [exact Hclean|]. by intros m (_ & _ & ?).
    + eapply Forall_impl; [exact Hclean|]. intros m (Hm & _ & ->).
      by destruct m.
  - done.
  - eapply Forall_impl; [exact Hclean|]. by intros m (_ & ? & _).
Qed.

Lemma parse_models_round_trip_witness :
  parse_models DEFAULT_VISION_FALLBACK = VISION_FALLBACK_MODELS default_config.
Proof.
  assert (DEFAULT_VISION_FALLBACK
          = join (py ",") (VISION_FALLBACK_MODELS default_config)) as ->
    by (vm_compute; reflexivity).
  apply (parse_models_round_trip (VISION_FALLBACK_MODELS default_config)).
  repeat (constructor;
          [split_and!;
           [discriminate
           |apply (bool_decide_unpack _); vm_compute; reflexivity
           |vm_compute; reflexivity]|]).
  constructor.
Defined.

(** White space around the commas and empty entries are dropped. *)
Example parse_models_untidy :
  parse_models (py " google/gemma-3-12b-it:free ,, ,x/y:free,")
  = [py "google/gemma-3-12b-it:free"; py "x/y:free"].
Proof. vm_compute. reflexivity. Qed.

End ConfigMore.

(** ** The pipeline as a whole *)

Module PipelineMore.
Import RetryFacts TraceFacts SummarizerFacts PromptFacts RetryMore.

Lemma truncate_length content :
  (length (truncate content) ≤ CAP + length TRUNCATION_MARKER)%nat.
Proof.
  unfold truncate, slice_to.
  destruct (CAP <? length content)%nat;
    rewrite ?length_app, length_take; lia.
Qed.

Lemma file_section_length name content :
  (length (file_section (name, content)) ≤ section_bound name)%nat.
Proof.
  unfold file_section, section_bound. rewrite !length_app.
  pose proof (truncate_length content). change (length nl) with 1%nat. lia.
Qed.

Lemma join_length sep (parts : list pystr) :
  length (join sep parts)
  = (sum_list_with length parts + (length parts - 1) * length sep)%nat.
Proof.
  induction parts as [|p [|q rest] IH]; [done|simpl; lia|].
  change (join sep (p :: q :: rest)) with (p ++ sep ++ join sep (q :: rest)).
  rewrite !length_app, IH. cbn [sum_list_with length]. nia.
Qed.




Section WithEnv.

Context (lower : pystr → pystr) (E : env) (cfg : config).
Context (reg : gmap pystr processor_cls).

(** What a run of the pipeline comes to, by what making the directory and
    [gdown] come to. *)
Lemma summarize_folder_run folder_url output_dir tr :
  let start := tr ++ [EvDownload folder_url (dest_of cfg output_dir)] in
  match mkdir E tr (dest_of cfg output_dir) with
  | Raise e =>
      summarize_folder lower E cfg reg folder_url output_dir tr = (Raise e, tr)
  | Ret _ =>
      match gdown_download_folder E tr folder_url (dest_of cfg output_dir) with
      | Raise e =>
          summarize_folder lower E cfg reg folder_url output_dir tr
          = (Raise e, start)
      | Ret listing =>
          let files := sorted (default [] listing) in
          ∃ d evs,
            extract_all lower E cfg reg files [] start = (Ret d, start ++ evs)
            ∧ Forall no_chat evs
            ∧ summarize_folder lower E cfg reg folder_url output_dir tr
              = if decide (files = []) then (Ret FOLDER_EMPTY, start)
                else if nothing_extracted d
                     then (Ret NOTHING_EXTRACTED, start ++ evs)
                     else chat E cfg (combined_prompt d) _SYSTEM_PROMPT
                            (start ++ evs)
      end
  end.
Proof.
  intros start.
  pose proof (download_folder_cases E cfg folder_url output_dir tr) as Hdl.
  fold start in Hdl.
  destruct (mkdir E tr (dest_of cfg output_dir)) as [[]|e].
  2:{ unfold summarize_folder. unfold_eff. by rewrite Hdl. }
  destruct (gdown_download_folder E tr folder_url (dest_of cfg output_dir))
    as [listing|e].
  2:{ unfold summarize_folder. unfold_eff. by rewrite Hdl. }
  intros files. fold files in Hdl.
  destruct (extract_all_quiet lower E cfg reg files [] start)
    as (d & evs & Hex & Hquiet).
  exists d, evs. split_and!; [done..|].
  destruct (decide (files = [])) as [Hnil|Hne].
  - unfold summarize_folder. unfold_eff. rewrite Hdl, Hnil. done.
  - by apply (summarize_folder_after_download lower E cfg reg
                _ _ _ files start d (start ++ evs)).
Qed.

(** X21. The pipeline asks for at most one summary. When the download
    directory cannot be made, that error leaves [summarize_folder] and
    nothing has been done. Otherwise the run starts with the download.
    Whatever the folder holds and whatever the service answers, as long
    as its replies are text, the run has either no [chat] call at all, or
    exactly one: it comes after the download and every extraction,
    carries the combined prompt of a dictionary in which something was
    extracted, with the analyst system prompt, and is followed only by at
    most [MAX_RETRIES] requests to the text model. *)
Theorem one_summary_request (folder_url : pystr) (output_dir : option pystr)
    (tr : trace) :
  text_replies E →
  ∃ evs,
    (summarize_folder lower E cfg reg folder_url output_dir tr).2 = tr ++ evs
    ∧ match mkdir E tr (dest_of cfg output_dir) with
      | Raise e =>
          (summarize_folder lower E cfg reg folder_url output_dir tr).1
          = Raise e
          ∧ evs = []
      | Ret _ =>
          ∃ rest, evs = EvDownload folder_url (dest_of cfg output_dir) :: rest
      end
    ∧ (chats evs = []
       ∨ ∃ per_file before after k,
           evs = before
                 ++ EvChat (combined_prompt per_file) _SYSTEM_PROMPT :: after
           ∧ nothing_extracted per_file = false
           ∧ chats before = []
           ∧ extractions after = [] ∧ chats after = []
           ∧ posts after
             = replicate k
                 {| model := TEXT_MODEL cfg;
                    messages :=
                      [ {| role := py "system";
                           msg_content := TextContent _SYSTEM_PROMPT |};
                        {| role := py "user";
                           msg_content :=
                             TextContent (combined_prompt per_file) |} ] |}
           ∧ (k ≤ Z.to_nat (MAX_RETRIES cfg))%nat).
Proof.
  intros _.
  pose proof (summarize_folder_run folder_url output_dir tr) as Hrun.
  cbv zeta in Hrun.
  set (download := EvDownload folder_url (dest_of cfg output_dir)) in *.
  destruct (mkdir E tr (dest_of cfg output_dir)) as [[]|e].
  2:{ rewrite Hrun. exists []. rewrite app_nil_r. split_and!; [done..|by left]. }
  destruct (gdown_download_folder E tr folder_url (dest_of cfg output_dir))
    as [listing|e].
  2:{ rewrite Hrun. exists [download].
      split_and!; [done|by exists []|by left]. }
  destruct Hrun as (d & evs & _ & Hquiet & ->).
  destruct (decide (sorted (default [] listing) = [])).
  { exists [download]. split_and!; [done|by exists []|by left]. }
  destruct (nothing_extracted d) eqn:Hd.
  { exists (download :: evs). split_and!.
    - by rewrite <- app_assoc.
    - by exists evs.
    - left. change (download :: evs) with ([download] ++ evs).
      by rewrite chats_app, (no_chat_chats evs Hquiet). }
  unfold chat, _request_with_retry. unfold_eff.
  match goal with
  | |- context [attempts_loop E cfg ?p ?l None ?t] =>
      destruct (attempts_loop_bounded E cfg p l None t)
        as (after & k & Heq & Hp & Hk & _ & _ & Hc & Hx)
  end.
  exists (download :: evs
          ++ EvChat (combined_prompt d) _SYSTEM_PROMPT :: after).
  split_and!.
  - rewrite Heq. by rewrite <- !app_assoc.
  - by eexists.
  - right. exists d, (download :: evs), after, k. rewrite length_seqZ in Hk.
    split_and!; try done.
    + change (download :: evs) with ([download] ++ evs).
      by rewrite chats_app, (no_chat_chats evs Hquiet).
    + by apply no_chat_chats.
Qed.

(** X22. A file that cannot be processed never aborts the pipeline, as
    long as the replies of the service are text. When [summarize_folder]
    raises, one of three things has happened: the download directory
    could not be made, that error is the one raised and nothing else was
    done; or [gdown] raised that error and nothing else was done after
    it; or every file was gone through, a dictionary was built, and the
    error is the one the final [chat] call raised. *)
Theorem only_download_and_summary_errors_escape
    (folder_url : pystr) (output_dir : option pystr) (tr : trace)
    (e : exn) (tr' : trace) :
  text_replies E →
  summarize_folder lower E cfg reg folder_url output_dir tr = (Raise e, tr') →
  let start := tr ++ [EvDownload folder_url (dest_of cfg output_dir)] in
  (mkdir E tr (dest_of cfg output_dir) = Raise e ∧ tr' = tr)
  ∨ (mkdir E tr (dest_of cfg output_dir) = Ret tt
     ∧ gdown_download_folder E tr folder_url (dest_of cfg output_dir) = Raise e
     ∧ tr' = start)
  ∨ ∃ files per_file evs,
      download_folder E cfg folder_url output_dir tr = (Ret files, start)
      ∧ extract_all lower E cfg reg files [] start
        = (Ret per_file, start ++ evs)
      ∧ chats evs = []
      ∧ chat E cfg (combined_prompt per_file) _SYSTEM_PROMPT (start ++ evs)
        = (Raise e, tr').
Proof.
  intros _ Hraise start.
  pose proof (summarize_folder_run folder_url output_dir tr) as Hrun.
  pose proof (download_folder_cases E cfg folder_url output_dir tr) as Hdl.
  cbv zeta in Hrun. fold start in Hrun, Hdl.
  destruct (mkdir E tr (dest_of cfg output_dir)) as [[]|e0].
  2:{ left. rewrite Hrun in Hraise. by injection Hraise as -> ->. }
  right.
  destruct (gdown_download_folder E tr folder_url (dest_of cfg output_dir))
    as [listing|e0].
  2:{ left. rewrite Hrun in Hraise. by injection Hraise as -> ->. }
  right. destruct Hrun as (d & evs & Hex & Hquiet & Hrun).
  rewrite Hrun in Hraise.
  destruct (decide (sorted (default [] listing) = [])); [done|].
  destruct (nothing_extracted d); [done|].
  exists (sorted (default [] listing)), d, evs.
  split_and!; [done|done|by apply no_chat_chats|done].
Qed.



(** X24. The prompt grows with the number of files, not with their size:
    its length is at most that of the introduction, plus one bounded
    section per dictionary entry, plus the delimiters between them. A
    section takes at most 12038 characters besides the file's name. *)
Theorem prompt_length_bounded (per_file : pydict) :
  (length (combined_prompt per_file)
   ≤ length PROMPT_INTRO
     + sum_list_with (fun kv => section_bound kv.1) per_file
     + (length per_file - 1) * length DELIMITER)%nat
  ∧ length PROMPT_INTRO = 115%nat
  ∧ length DELIMITER = 7%nat
  ∧ ∀ name, Z.of_nat (section_bound name) = 12038 + Z.of_nat (length name).
Proof.
  split_and!.
  - unfold combined_prompt, build_parts.
    rewrite length_app, join_length, length_map.
    assert (sum_list_with length (map file_section per_file)
            ≤ sum_list_with (fun kv => section_bound kv.1) per_file)%nat.
    { induction per_file as [|[k v] d IH]; [done|].
      cbn [map sum_list_with fst].
      pose proof (file_section_length k v). lia. }
    lia.
  - vm_compute. reflexivity.
  - vm_compute. reflexivity.
  - intros name. unfold section_bound.
    assert (length SECTION_HEADER = 10%nat) as -> by (vm_compute; reflexivity).
    assert (length TRUNCATION_MARKER = 26%nat) as -> by (vm_compute; reflexivity).
    unfold CAP. lia.
Qed.

End WithEnv.

Lemma one_summary_request_witness :
  let a := [py "downloads"; py "a.txt"] in
  let b := [py "downloads"; py "b.bin"] in
  let E := folder_env [(a, Ret (py "hello")); (b, Ret (py "ignored"))]
             (reply_200 (py "summary")) in
  let reg := imported_registry ascii_lower in
  let run := summarize_folder ascii_lower E default_config reg
               (py "https://drive/f") None [] in
  run.1 = Ret (py "summary")
  ∧ ∃ per_file before after,
      run.2 = before ++ EvChat (combined_prompt per_file) _SYSTEM_PROMPT :: after
      ∧ chats before = [] ∧ chats after = [] ∧ extractions after = [].
Proof.
  intros a b E reg run. split; [vm_compute; reflexivity|].
  destruct (one_summary_request ascii_lower E default_config reg
              (py "https://drive/f") None [])
    as (evs & Hevs & _ & [Hnone|Hone]).
  - intros tr p r data content [= <-] _ [= <-] Hreply _.
    vm_compute in Hreply. injection Hreply as <-. by eexists.
  - exfalso. change (run.2 = evs) in Hevs.
    assert (Hchats : chats run.2 ≠ []) by (vm_compute; discriminate).
    rewrite Hevs in Hchats. exact (Hchats Hnone).
  - destruct Hone as (per_file & before & after & k & Heq & _ & Hb & Hx & Ha & _).
    exists per_file, before, after. change (run.2 = evs) in Hevs.
    rewrite Hevs. split_and!; [exact Heq|exact Hb|exact Ha|exact Hx].
Defined.

Lemma only_download_and_summary_errors_escape_witness :
  let a := [py "downloads"; py "a.txt"] in
  let b := [py "downloads"; py "b.bin"] in
  let E := folder_env [(a, Ret (py "hello")); (b, Ret (py "ignored"))]
             blocked_403 in
  let reg := imported_registry ascii_lower in
  let start := [EvDownload (py "https://drive/f") (py "downloads")] in
  (∃ e tr',
     summarize_folder ascii_lower E default_config reg (py "https://drive/f")
       None []
     = (Raise e, tr')
     ∧ ∃ files per_file evs,
         download_folder E default_config (py "https://drive/f") None []
         = (Ret files, start)
         ∧ extract_all ascii_lower E default_config reg files [] start
           = (Ret per_file, start ++ evs)
         ∧ chats evs = []
         ∧ chat E default_config (combined_prompt per_file) _SYSTEM_PROMPT
             (start ++ evs)
           = (Raise e, tr'))
  ∧ ∃ e,
      summarize_folder ascii_lower taken_destination default_config reg
        (py "https://drive/f") None []
      = (Raise e, [])
      ∧ mkdir taken_destination [] (py "downloads") = Raise e.
Proof.
  intros a b E reg start. split.
  - destruct (summarize_folder ascii_lower E default_config reg
                (py "https://drive/f") None []) as [[s|e] tr'] eqn:Hrun.
    { exfalso. vm_compute in Hrun. discriminate. }
    exists e, tr'. split; [reflexivity|].
    destruct (only_download_and_summary_errors_escape ascii_lower E
                default_config reg (py "https://drive/f") None [] e tr')
      as [[Hmkdir _]|[(_ & Hgdown & _)|Hchat]].
    + intros tr p r data content [= <-] Hs. discriminate Hs.
    + exact Hrun.
    + exfalso. vm_compute in Hmkdir. discriminate.
    + exfalso. vm_compute in Hgdown. discriminate.
    + exact Hchat.
  - destruct (summarize_folder ascii_lower taken_destination default_config reg
                (py "https://drive/f") None []) as [[s|e] tr'] eqn:Hrun.
    { exfalso. vm_compute in Hrun. discriminate. }
    destruct (only_download_and_summary_errors_escape ascii_lower
                taken_destination default_config reg (py "https://drive/f")
                None [] e tr')
      as [[Hmkdir ->]|[(Hmkdir & _)|(files & d & evs & Hdl & _)]].
    + intros tr p r data content Hpost. discriminate Hpost.
    + exact Hrun.
    + exists e. split; [reflexivity|exact Hmkdir].
    + exfalso. vm_compute in Hmkdir. discriminate.
    + exfalso. vm_compute in Hdl. discriminate.
Defined.


End PipelineMore.

(** ** The command line *)

Module MainMore.
Import RetryFacts TraceFacts SummarizerFacts.

Lemma startswith_spec s prefix :
  startswith s prefix = true ↔ ∃ rest, s = prefix ++ rest.
Proof.
  revert s. induction prefix as [|x prefix IH]; intros s.
  - split; [by exists s|by destruct s].
  - destruct s as [|y s]; simpl.
    + split; [done|by intros [rest ?]].
    + rewrite andb_true_iff, N.eqb_eq, IH. split.
      * intros [-> [rest ->]]. by exists rest.
      * intros [rest [= -> ->]]. eauto.
Qed.

Section WithEnv.

Context (lower : pystr → pystr) (E : env) (cfg : config).
Context (reg : gmap pystr processor_cls).
Context (write_text : pystr → pystr → outcome unit).
Context (resolve : pystr → pystr).

Lemma summarize_folder_starts (a : args) (tr : trace) :
  match mkdir E tr (dest_of cfg (Some (arg_output a))) with
  | Raise e =>
      summarize_folder lower E cfg reg (arg_url a) (Some (arg_output a)) tr
      = (Raise e, tr)
  | Ret _ =>
      ∃ evs,
        (summarize_folder lower E cfg reg (arg_url a) (Some (arg_output a)) tr).2
        = tr ++ EvDownload (arg_url a) (dest_of cfg (Some (arg_output a)))
                :: evs
  end.
Proof.
  pose proof (PipelineMore.summarize_folder_run lower E cfg reg
                (arg_url a) (Some (arg_output a)) tr) as Hrun.
  cbv zeta in Hrun.
  destruct (mkdir E tr (dest_of cfg (Some (arg_output a)))) as [[]|e]; [|done].
  destruct (gdown_download_folder E tr (arg_url a) _) as [listing|e].
  - destruct Hrun as (d & evs & _ & _ & ->).
    destruct (decide (sorted (default [] listing) = [])); [by exists []|].
    destruct (nothing_extracted d).
    { exists evs. by rewrite <- app_assoc. }
    unfold chat, _request_with_retry. unfold_eff.
    match goal with
    | |- context [attempts_loop E cfg ?p ?l None ?t] =>
        destruct (RetryMore.attempts_loop_bounded E cfg p l None t)
          as (after & k & Heq & _)
    end.
    rewrite Heq.
    exists (evs ++ EvChat (combined_prompt d) _SYSTEM_PROMPT :: after).
    by rewrite <- !app_assoc.
  - rewrite Hrun. by exists [].
Qed.

(** X25. [main] ends by calling [sys.exit(1)] exactly when the API key is
    empty or starts with the placeholder of the sample configuration. In
    that case it has printed the hint on standard error and done nothing
    else: no directory made, no download, no request, no file written. In
    every other case the directory for the download is made first, named
    by [--output], or by [DOWNLOAD_DIR] when that is empty, as [Path]
    writes it. When that fails, the error leaves [main] and nothing has
    been downloaded, printed or written; otherwise the download is
    started into that directory. *)
Theorem exit_1_iff_key_missing (a : args) (tr : trace) :
  let key := OPENROUTER_API_KEY cfg in
  let run := main lower E cfg reg write_text resolve a tr in
  let dest := dest_of cfg (Some (arg_output a)) in
  (ended run = SystemExit 1
   ↔ key = [] ∨ ∃ rest, key = KEY_PLACEHOLDER ++ rest)
  ∧ (ended run = SystemExit 1 →
     pipeline run = tr ∧ written run = []
     ∧ printed run = [(Stderr, MISSING_KEY)])
  ∧ (ended run ≠ SystemExit 1 →
     match mkdir E tr dest with
     | Raise e =>
         pipeline run = tr ∧ ended run = Uncaught e
         ∧ printed run = [] ∧ written run = []
     | Ret _ =>
         ∃ evs, pipeline run = tr ++ EvDownload (arg_url a) dest :: evs
     end)
  ∧ dest = path_str (if truthy (arg_output a) then arg_output a
                     else DOWNLOAD_DIR cfg).
Proof.
  intros key run dest. subst run. unfold main. fold key.
  assert (Hkey : negb (truthy key) || startswith key KEY_PLACEHOLDER = true
                 ↔ key = [] ∨ ∃ rest, key = KEY_PLACEHOLDER ++ rest).
  { rewrite orb_true_iff, startswith_spec.
    by destruct key; split; intros [?|?]; auto. }
  destruct (negb (truthy key) || startswith key KEY_PLACEHOLDER).
  { split_and!; [by rewrite <- Hkey|done..]. }
  assert (Hno : ¬ (key = [] ∨ ∃ rest, key = KEY_PLACEHOLDER ++ rest))
    by (rewrite <- Hkey; discriminate).
  pose proof (summarize_folder_starts a tr) as Hstart. fold dest in Hstart.
  destruct (mkdir E tr dest) as [[]|e0].
  - destruct Hstart as (evs & Hevs).
    destruct (summarize_folder lower E cfg reg (arg_url a)
                (Some (arg_output a)) tr) as [[summary|e] tr1];
      simpl in Hevs; subst tr1.
    + destruct (write_text (arg_save a) summary);
        (split_and!; [by split|done|by exists evs|done]).
    + split_and!; [by split|done|by exists evs|done].
  - rewrite Hstart. split_and!; [by split|done..].
Qed.



End WithEnv.

Lemma exit_1_iff_key_missing_witness :
  let cfg := with_api_key (py "sk-or-v1-0123abcd") default_config in
  let a := {| arg_url := py "https://drive/f"; arg_output := py "./out/";
              arg_save := py "summary.txt"; arg_verbose := false |} in
  let run := main ascii_lower taken_destination cfg
               (imported_registry ascii_lower) (fun _ _ => Ret tt)
               (fun p => p) a [] in
  pipeline run = []
  ∧ ended run = Uncaught (Exn OSError (py "[Errno 17] File exists: 'out'"))
  ∧ printed run = [] ∧ written run = [].
Proof.
  intros cfg a run.
  destruct (exit_1_iff_key_missing ascii_lower taken_destination cfg
              (imported_registry ascii_lower) (fun _ _ => Ret tt)
              (fun p => p) a []) as (_ & _ & Hrun & _).
  apply Hrun. intros Hexit. vm_compute in Hexit. discriminate.
Defined.


(** With the key of the sample configuration nothing is downloaded. *)
Example main_with_placeholder_key :
  let cfg := with_api_key (py "sk-or-v1-xxxxxxxx") default_config in
  let a := {| arg_url := py "https://drive/f"; arg_output := py "./out";
              arg_save := py "summary.txt"; arg_verbose := false |} in
  main ascii_lower (constant_server error_200) cfg
    (imported_registry ascii_lower) (fun _ _ => Ret tt) (fun p => p) a []
  = {| pipeline := []; printed := [(Stderr, MISSING_KEY)]; written := [];
       ended := SystemExit 1 |}.
Proof. vm_compute. reflexivity. Qed.

End MainMore.
